(** * conll2hf: splitting a CoNLL corpus and converting it to JSON records

    A shallow embedding of [conll2hf.py].  The three functions of the
    module that do the work, [split_conll], [conll_to_json] and the Flask
    route [process_conll], are state-passing functions over a [world]
    (file system, heap of Python dictionaries, random source, trace of
    effects); the Python builtins they call ([str.strip], [str.split],
    slicing, [dict], [Counter], [random.shuffle], binary64 arithmetic) are
    modelled first. *)

From Stdlib Require Import ZArith Ascii Floats.SpecFloat.
From stdpp Require Import gmap strings pretty list fin_maps sorting.

Open Scope string_scope.
Open Scope list_scope.
Open Scope Z_scope.

(** ** Exceptions

    A call returns a value or raises: [result] is the outcome. *)

Inductive exn_class :=
  | ValueError | KeyError | IndexError | OverflowError | AttributeError
  | JSONDecodeError | FileNotFoundError | FileExistsError
  | NotADirectoryError | IsADirectoryError | BadRequestKeyError
  | Exception_.

(** An exception: its class and the text [str(e)] gives. *)
Record exn := Exn { exn_class_of : exn_class; exn_str : string }.

Inductive result (A : Type) :=
  | Ok (a : A)
  | Raise (e : exn).
Arguments Ok {A} a.
Arguments Raise {A} e.

(** A hexadecimal digit, in lower case. *)
Definition hex_digit (n : nat) : ascii :=
  ascii_of_nat (if (n <? 10)%nat then 48 + n else 87 + n).

(** ** Python strings

    A [str] is a [string]; each [ascii] stands for one code point below
    256 (the corpus after decoding). *)
Module PyStr.

Definition nl : ascii := "010"%char.
Definition cr : ascii := "013"%char.

(** [str.isspace] on one code point below 256: TAB..CR, FS..US, space,
    NEL and NBSP. *)
Definition is_space (c : ascii) : bool :=
  let n := nat_of_ascii c in
  ((9 <=? n) && (n <=? 13) || (28 <=? n) && (n <=? 32)
   || (n =? 133) || (n =? 160))%nat.

Fixpoint lstrip (s : string) : string :=
  match s with
  | String c s' => if is_space c then lstrip s' else s
  | EmptyString => EmptyString
  end.

Definition rstrip (s : string) : string := String.rev (lstrip (String.rev s)).

(** [s.strip()] *)
Definition strip (s : string) : string := rstrip (lstrip s).

(** [s.startswith(p)] *)
Definition startswith (s p : string) : bool := String.prefix p s.

(** [s.split()]: the maximal runs of non-whitespace. [w] is the run
    being read, reversed. *)
Fixpoint split_ws_go (w : string) (s : string) : list string :=
  match s with
  | EmptyString =>
      match w with EmptyString => [] | _ => [String.rev w] end
  | String c s' =>
      if is_space c
      then match w with
           | EmptyString => split_ws_go EmptyString s'
           | _ => String.rev w :: split_ws_go EmptyString s'
           end
      else split_ws_go (String c w) s'
  end.

Definition split_ws (s : string) : list string := split_ws_go EmptyString s.

(** [s.split(sep)] for a non-empty [sep]: leftmost non-overlapping
    occurrences. [skip] counts the characters of a matched separator
    still to pass, [acc] is the piece being read, reversed. *)
Fixpoint split_go (sep : string) (skip : nat) (acc : string) (s : string)
  : list string :=
  match s with
  | EmptyString => [String.rev acc]
  | String c s' =>
      match skip with
      | S k => split_go sep k acc s'
      | O =>
          if String.prefix sep s
          then String.rev acc
                 :: split_go sep (Nat.pred (String.length sep)) EmptyString s'
          else split_go sep O (String c acc) s'
      end
  end.

Definition split (s sep : string) : list string := split_go sep O EmptyString s.

(** [s.replace(old, new)] for a non-empty [old]. *)
Definition replace (s old new : string) : string :=
  String.concat new (split s old).

(** [sep.join(l)] *)
Definition join (sep : string) (l : list string) : string :=
  String.concat sep l.

(** Text mode with [newline=None]: on reading, CR LF and a lone CR become
    LF. *)
Fixpoint universal_newlines (s : string) : string :=
  match s with
  | EmptyString => EmptyString
  | String c s' =>
      if Ascii.eqb c cr
      then match s' with
           | String c' s'' =>
               if Ascii.eqb c' nl then String nl (universal_newlines s'')
               else String nl (universal_newlines s')
           | EmptyString => String nl EmptyString
           end
      else String c (universal_newlines s')
  end.

(** [for line in f]: the lines of a text, each with its terminator; a
    last line without terminator is a line when it is not empty. *)
Fixpoint lines_go (acc : string) (s : string) : list string :=
  match s with
  | EmptyString =>
      match acc with EmptyString => [] | _ => [String.rev acc] end
  | String c s' =>
      if Ascii.eqb c nl
      then String.rev (String c acc) :: lines_go EmptyString s'
      else lines_go (String c acc) s'
  end.

Definition lines (s : string) : list string := lines_go EmptyString s.

(** [s[n:]] *)
Fixpoint drop (n : nat) (s : string) : string :=
  match n, s with
  | S n', String _ s' => drop n' s'
  | _, _ => s
  end.

(** [c in s] for one character. *)
Fixpoint contains (c : ascii) (s : string) : bool :=
  match s with
  | EmptyString => false
  | String c' s' => Ascii.eqb c c' || contains c s'
  end.

Definition is_digit (c : ascii) : bool :=
  let n := nat_of_ascii c in ((48 <=? n) && (n <=? 57))%nat.

Definition digit_val (c : ascii) : Z := Z.of_nat (nat_of_ascii c) - 48.

(** The digits of an [int] literal in base 10: digits with single
    underscores between them. [prev] tells whether the previous character
    was a digit. *)
Fixpoint int_digits (prev : bool) (acc : Z) (s : string) : option Z :=
  match s with
  | EmptyString => if prev then Some acc else None
  | String c s' =>
      if is_digit c then int_digits true (10 * acc + digit_val c) s'
      else if Ascii.eqb c "_"%char
           then if prev then int_digits false acc s' else None
           else None
  end.

(** The white space [int] skips at the ends of a literal: TAB..CR,
    space, NEL and NBSP. The separators FS..US, which [str.strip] takes
    off, are no white space for [int]. *)
Definition is_int_space (c : ascii) : bool :=
  let n := nat_of_ascii c in
  ((9 <=? n) && (n <=? 13) || (n =? 32) || (n =? 133) || (n =? 160))%nat.

Fixpoint int_lstrip (s : string) : string :=
  match s with
  | String c s' => if is_int_space c then int_lstrip s' else s
  | EmptyString => EmptyString
  end.

Definition int_strip (s : string) : string :=
  String.rev (int_lstrip (String.rev (int_lstrip s))).

(** [int(s)] for a [str]: [None] stands for [ValueError]. An [int] has
    no bound; the limit that CPython 3.11 sets on the number of digits
    of a literal ([sys.int_max_str_digits]) is left out. *)
Definition int_of_str (s : string) : option Z :=
  match int_strip s with
  | String "-" d => Z.opp <$> int_digits false 0 d
  | String "+" d => int_digits false 0 d
  | d => int_digits false 0 d
  end.

(** [str(n)] for an [int]. *)
Definition str_of_int (n : Z) : string := pretty n.

(** [s.zfill(w)] for a string without sign. *)
Definition zfill (w : nat) (s : string) : string :=
  String.concat "" (replicate (w - String.length s)%nat "0") +:+ s.

(** [c.isprintable()] on one code point below 256. *)
Definition is_printable (c : ascii) : bool :=
  let n := nat_of_ascii c in
  negb ((n <? 32) || (127 <=? n) && (n <=? 160) || (n =? 173))%nat.

(** [repr(s)]: single quotes, or double quotes when [s] has a single
    quote and no double quote; the quote in use, the backslash and the
    characters that are not printable are escaped. *)
Definition repr_char (q : ascii) (c : ascii) : string :=
  let n := nat_of_ascii c in
  if Ascii.eqb c q || Ascii.eqb c "\"%char then String "\"%char (String c EmptyString)
  else if (n =? 9)%nat then "\t"
  else if (n =? 10)%nat then "\n"
  else if (n =? 13)%nat then "\r"
  else if is_printable c then String c EmptyString
  else "\x" +:+ String (hex_digit (n / 16)) (String (hex_digit (n mod 16)) EmptyString).

Fixpoint repr_chars (q : ascii) (s : string) : string :=
  match s with
  | EmptyString => EmptyString
  | String c s' => repr_char q c +:+ repr_chars q s'
  end.

Definition repr (s : string) : string :=
  let q := if contains "'"%char s && negb (contains "034"%char s)
           then "034"%char else "'"%char in
  String q (repr_chars q s) +:+ String q EmptyString.

End PyStr.

(** ** Python floats: IEEE 754 binary64, round to nearest even *)
Module PyFloat.

Definition float := spec_float.
Definition prec : Z := 53.
Definition emax : Z := 1024.

Definition mul : float -> float -> float := SFmul prec emax.
Definition add : float -> float -> float := SFadd prec emax.
Definition div : float -> float -> float := SFdiv prec emax.

(** [x == y] *)
Definition eqb (x y : float) : bool := SFeqb x y.
(** [x > y] *)
Definition gt (x y : float) : bool := SFltb y x.

(** [float(n)] for an [int]; an infinite result stands for
    [OverflowError]. *)
Definition of_int (n : Z) : float := binary_normalize prec emax n 0 false.

Definition zero : float := S754_zero false.
Definition one : float := of_int 1.

(** The literal [n/10^k] written in decimal, e.g. [dec 7 1] for [0.7]:
    the binary64 nearest to the quotient. *)
Definition dec (n : Z) (k : nat) : float := div (of_int n) (of_int (10 ^ Z.of_nat k)).

(** [int(x)]: truncation towards zero; it raises on an infinity and on
    NaN. *)
Definition to_int (x : float) : result Z :=
  match x with
  | S754_zero _ => Ok 0
  | S754_finite s m e => Ok (cond_Zopp s (Z.shiftl (Z.pos m) e))
  | S754_infinity _ =>
      Raise (Exn OverflowError "cannot convert float infinity to integer")
  | S754_nan => Raise (Exn ValueError "cannot convert float NaN to integer")
  end.

(** [sum(t)] for a tuple of floats: [0 + t[0] + t[1] + ...], added from
    the left, each sum rounded (CPython up to 3.11; later versions carry
    a correction term along, which can move the last bit). *)
Definition sum (t : list float) : float := foldl add zero t.

End PyFloat.

(** ** Python lists and dictionaries *)
Module PyList.

(** An index of a slice, brought into [0 .. len]. *)
Definition clamp (len i : Z) : Z :=
  let i' := if i <? 0 then i + len else i in
  Z.max 0 (Z.min len i').

(** [l[lo:hi]]; [None] is an omitted bound. *)
Definition slice {A} (l : list A) (lo hi : option Z) : list A :=
  let len := Z.of_nat (length l) in
  let a := clamp len (default 0 lo) in
  let b := clamp len (default len hi) in
  take (Z.to_nat (b - a)) (drop (Z.to_nat a) l).

End PyList.

(** A [dict] keeps its keys in insertion order: an association list
    without repeated keys. *)
Module PyDict.
Section Dict.
Context {K V : Type} `{EqDecision K}.

(** [d.get(k)] *)
Fixpoint get (d : list (K * V)) (k : K) : option V :=
  match d with
  | [] => None
  | (k', v) :: d' => if decide (k' = k) then Some v else get d' k
  end.

(** [k in d] *)
Definition mem (d : list (K * V)) (k : K) : bool := bool_decide (is_Some (get d k)).

(** [d[k] = v]: the value of an existing key is replaced where it
    stands, a new key goes last. *)
Fixpoint set (d : list (K * V)) (k : K) (v : V) : list (K * V) :=
  match d with
  | [] => [(k, v)]
  | (k', v') :: d' =>
      if decide (k' = k) then (k', v) :: d' else (k', v') :: set d' k v
  end.

(** [d.keys()] *)
Definition keys (d : list (K * V)) : list K := d.*1.

(** [{f(k, v) for k, v in items}] built by successive assignments. *)
Definition of_items (items : list (K * V)) : list (K * V) :=
  foldl (fun d kv => set d kv.1 kv.2) [] items.
End Dict.
End PyDict.

(** ** The world and the effect monad *)

(** One record of the JSON-lines output:
    [{"id": ..., "tokens": [...], "ner_tags": [...]}]. *)
Record sentence := Sentence {
  id_ : string;
  tokens : list string;
  ner_tags : list Z
}.

(** A file holds a text: what reading it with [encoding='utf-8'] gives.
    The model has text files only: a file whose bytes are not UTF-8, on
    which the read raises [UnicodeDecodeError], has no node. *)
Inductive node :=
  | Dir
  | File (text : string).

(** The effects a run performs, in order. *)
Inductive event :=
  | EvMakedirs (path : string)
  | EvRead (path : string)
  | EvWrite (path : string)
  | EvShuffle (len : nat).

(** The state a request runs in: the file system (keyed by the path as the
    program spells it), the heap of [dict] objects that are passed by
    reference, the random source of [random] with the number of draws
    taken from it, today's date as [strftime('%d-%b-%Y')] prints it, and
    the effects so far (latest first). *)
Record world := World {
  fs : gmap string node;
  heap : gmap nat (list (Z * string));
  rand : nat -> nat;
  rand_pos : nat;
  today : string;
  trace : list event
}.

Definition M (A : Type) : Type := world -> result A * world.

Definition ret {A} (a : A) : M A := fun w => (Ok a, w).
Definition raise {A} (c : exn_class) (msg : string) : M A :=
  fun w => (Raise (Exn c msg), w).
Definition bind {A B} (m : M A) (k : A -> M B) : M B :=
  fun w => match m w with
           | (Ok a, w') => k a w'
           | (Raise e, w') => (Raise e, w')
           end.
(** [try: m except Exception as e: h(e)] *)
Definition try_except {A} (m : M A) (h : exn -> M A) : M A :=
  fun w => match m w with
           | (Ok a, w') => (Ok a, w')
           | (Raise e, w') => h e w'
           end.
(** A computation without effect. *)
Definition lift {A} (r : result A) : M A := fun w => (r, w).
Definition log (e : event) : M unit :=
  fun w => (Ok tt, World (fs w) (heap w) (rand w) (rand_pos w) (today w)
                         (e :: trace w)).
Definition get_world : M world := fun w => (Ok w, w).
Definition set_fs (f : gmap string node) : M unit :=
  fun w => (Ok tt, World f (heap w) (rand w) (rand_pos w) (today w) (trace w)).
Definition set_heap (h : gmap nat (list (Z * string))) : M unit :=
  fun w => (Ok tt, World (fs w) h (rand w) (rand_pos w) (today w) (trace w)).

Notation "x <- m ;; k" := (bind m (fun x => k))
  (at level 100, m at next level, right associativity).
Notation "m ;;; k" := (bind m (fun _ => k))
  (at level 100, right associativity).

(** ** The file system calls *)
Module Os.

(** [os.path.join(a, b)] for a relative [b]. *)
Definition path_join (a b : string) : string :=
  if decide (a = "") then b
  else if PyStr.startswith (String.rev a) "/" then a +:+ b
  else a +:+ "/" +:+ b.

(** The proper prefixes of a path that end before a ["/"]: the
    directories above it, outermost first. *)
Fixpoint ancestors_go (acc : string) (s : string) : list string :=
  match s with
  | EmptyString => []
  | String c s' =>
      if Ascii.eqb c "/"%char
      then match acc with
           | EmptyString => ancestors_go (String c acc) s'
           | _ => String.rev acc :: ancestors_go (String c acc) s'
           end
      else ancestors_go (String c acc) s'
  end.
Definition ancestors (p : string) : list string := ancestors_go EmptyString p.

(** [os.path.dirname(p)], when [p] has one. *)
Definition parent (p : string) : option string := last (ancestors p).

(** The text of an [OSError]: the error number, its message and the
    path the call was given. *)
Definition strerror (cls : exn_class) : string :=
  match cls with
  | FileNotFoundError => "[Errno 2] No such file or directory"
  | FileExistsError => "[Errno 17] File exists"
  | NotADirectoryError => "[Errno 20] Not a directory"
  | IsADirectoryError => "[Errno 21] Is a directory"
  | _ => ""
  end.

Definition os_error {A} (cls : exn_class) (p : string) : M A :=
  raise cls (strerror cls +:+ ": " +:+ PyStr.repr p).

(** The step of [p] below its ancestor [d]: the next longer ancestor, or
    [p] itself. It is the path [mkdir] is called on when [d] is a file. *)
Definition below (d p : string) : string :=
  default p (head (filter (fun a => String.length d <? String.length a)%nat
                          (ancestors p))).

(** One directory of [makedirs]: nothing to do when it is there; a file
    in its place raises [cls] for the path [named]. *)
Definition mkdir_exist_ok (cls : exn_class) (named p : string) : M unit :=
  w <- get_world ;;
  match fs w !! p with
  | Some Dir => ret tt
  | Some (File _) => os_error cls named
  | None => set_fs (<[p := Dir]> (fs w))
  end.

(** [os.makedirs(p, exist_ok=True)]: the directories above [p], then
    [p]. *)
Definition makedirs (p : string) : M unit :=
  log (EvMakedirs p) ;;;
  if decide (p = "") then os_error FileNotFoundError p
  else
    foldr (fun d k => mkdir_exist_ok NotADirectoryError (below d p) d ;;; k)
          (mkdir_exist_ok FileExistsError p p) (ancestors p).

(** [open(p, 'r', encoding='utf-8')] followed by [f.read()]. *)
Definition read_text (p : string) : M string :=
  log (EvRead p) ;;;
  w <- get_world ;;
  match fs w !! p with
  | Some (File s) => ret (PyStr.universal_newlines s)
  | Some Dir => os_error IsADirectoryError p
  | None => os_error FileNotFoundError p
  end.

(** [open(p, 'w', encoding='utf-8')] followed by the writes that give
    the file the text [c]. *)
Definition write_file (p : string) (c : string) : M unit :=
  log (EvWrite p) ;;;
  w <- get_world ;;
  match fs w !! p with
  | Some Dir => os_error IsADirectoryError p
  | _ =>
      if PyStr.startswith (String.rev p) "/" then os_error IsADirectoryError p
      else
      match parent p with
      | Some d =>
          match fs w !! d with
          | Some Dir => set_fs (<[p := File c]> (fs w))
          | Some (File _) => os_error NotADirectoryError p
          | None => os_error FileNotFoundError p
          end
      | None => set_fs (<[p := File c]> (fs w))
      end
  end.

(** [os.path.exists(p)] *)
Definition exists_ (p : string) : M bool :=
  w <- get_world ;; ret (bool_decide (is_Some (fs w !! p))).

(** [os.path.isdir(p)] *)
Definition isdir (p : string) : M bool :=
  w <- get_world ;;
  ret (match fs w !! p with Some Dir => true | _ => false end).

(** The name [p] has below the directory [d], when it is an entry of
    [d]. *)
Definition entry_of (d p : string) : option string :=
  let pre := d +:+ "/" in
  if PyStr.startswith p pre
  then let name := PyStr.drop (String.length pre) p in
       if bool_decide (name = "") || PyStr.contains "/"%char name
       then None else Some name
  else None.

(** [os.listdir(d)]; the order is the order of the keys. *)
Definition listdir (d : string) : M (list string) :=
  w <- get_world ;;
  match fs w !! d with
  | Some Dir => ret (omap (entry_of d) (map_to_list (fs w)).*1)
  | Some (File _) => os_error NotADirectoryError d
  | None => os_error FileNotFoundError d
  end.

End Os.

(** ** [random.shuffle] *)
Module Random.

(** [randbelow(n)]: the next draw of the source, brought below [n]. *)
Definition randbelow (n : nat) : M nat :=
  fun w => (Ok (rand w (rand_pos w) mod n)%nat,
            World (fs w) (heap w) (rand w) (S (rand_pos w)) (today w) (trace w)).

(** [for i in reversed(range(1, len(x))): j = randbelow(i + 1);
    x[i], x[j] = x[j], x[i]], from [i] downwards. *)
Fixpoint shuffle_from {A} (i : nat) (x : list A) : M (list A) :=
  match i with
  | O => ret x
  | S i' =>
      j <- randbelow (S i) ;;
      match x !! i, x !! j with
      | Some xi, Some xj => shuffle_from i' (<[j := xi]> (<[i := xj]> x))
      | _, _ => raise IndexError "list index out of range"
      end
  end.

Definition shuffle {A} (x : list A) : M (list A) :=
  log (EvShuffle (length x)) ;;;
  shuffle_from (length x - 1)%nat x.

End Random.

(** ** [split_conll] *)

Definition blank_line : string := String PyStr.nl (String PyStr.nl EmptyString).
Definition DOCSTART : string := "-DOCSTART-".

(** [write_to_file]: the blocks joined by a blank line, and a last line
    feed. *)
Definition rendered (data : list string) : string :=
  PyStr.join blank_line data +:+ String PyStr.nl EmptyString.

Definition write_to_file (filename : string) (data : list string) : M unit :=
  Os.write_file filename (rendered data).

(** [int(n * r)] for an [int] [n] and a [float] [r]: [n] is converted
    first, which raises when it is too large. *)
Definition int_of_scaled (n : Z) (r : PyFloat.float) : result Z :=
  match PyFloat.of_int n with
  | S754_infinity _ => Raise (Exn OverflowError "int too large to convert to float")
  | fn => PyFloat.to_int (PyFloat.mul fn r)
  end.

Definition ratios : Type := PyFloat.float * PyFloat.float * PyFloat.float.

(** The three split groups, the file of each and its component of the
    ratio. *)
Inductive group := Train | Val | Test.

Definition file_name (g : group) : string :=
  match g with
  | Train => "train.conll"
  | Val => "val.conll"
  | Test => "test.conll"
  end.

Definition ratio_of (g : group) (ratio : ratios) : PyFloat.float :=
  match g with
  | Train => ratio.1.1
  | Val => ratio.1.2
  | Test => ratio.2
  end.

(** The three groups cut from the shuffled blocks (the assignments to
    [train_data], [val_data] and [test_data]). *)
Definition split_data (ratio : ratios) (train_end_idx val_end_idx : Z)
    (data : list string) : list string * list string * list string :=
  let '(r0, r1, r2) := ratio in
  (if PyFloat.gt r0 PyFloat.zero
   then PyList.slice data None (Some train_end_idx) else [],
   if PyFloat.gt r1 PyFloat.zero
   then PyList.slice data (Some train_end_idx) (Some val_end_idx) else [],
   if PyFloat.gt r2 PyFloat.zero
   then PyList.slice data (Some val_end_idx) None else []).

(** [if doc_start:] for [doc_start] a string or [None]. *)
Definition truthy (doc_start : option string) : bool :=
  match doc_start with
  | Some s => negb (bool_decide (s = ""))
  | None => false
  end.

(** [if split_data: split_data.insert(0, doc_start)], when [doc_start] is
    set. *)
Definition add_docstart (doc_start : option string) (split_data : list string)
  : list string :=
  match doc_start, split_data with
  | Some d, _ :: _ => if truthy doc_start then d :: split_data else split_data
  | _, _ => split_data
  end.

(** [if data: write_to_file(...); files_created.append((name, len(data)))] *)
Definition emit (output_dir name : string) (data : list string)
    (files_created : list (string * Z)) : M (list (string * Z)) :=
  match data with
  | [] => ret files_created
  | _ =>
      write_to_file (Os.path_join output_dir name) data ;;;
      ret (files_created ++ [(name, Z.of_nat (length data))])
  end.

(** [f.read().strip().split('\n\n')] *)
Definition blocks_of (text : string) : list string :=
  PyStr.split (PyStr.strip text) blank_line.

(** [data[0] if data[0].startswith("-DOCSTART-") else None] *)
Definition doc_start_of (first : string) : option string :=
  if PyStr.startswith first DOCSTART then Some first else None.

(** [if doc_start: data = data[1:]] *)
Definition without_docstart (doc_start : option string) (data : list string)
  : list string :=
  if truthy doc_start then PyList.slice data (Some 1) None else data.

Definition ratio_error : string := "The sum of the split ratios exceeds 1.0".

(** The body of the [try] of [split_conll]. *)
Definition split_conll_try (conll_file output_dir : string) (ratio : ratios)
  : M (list (string * Z)) :=
  let '(r0, r1, r2) := ratio in
  Os.makedirs output_dir ;;;
  (if PyFloat.gt (PyFloat.sum [r0; r1; r2]) PyFloat.one
   then raise ValueError ratio_error else ret tt) ;;;
  text <- Os.read_text conll_file ;;
  let data := blocks_of text in
  first <- match data with
           | d :: _ => ret d
           | [] => raise IndexError "list index out of range"
           end ;;
  let doc_start := doc_start_of first in
  let data := without_docstart doc_start data in
  data <- Random.shuffle data ;;
  let total_length := Z.of_nat (length data) in
  train_end_idx <- lift (int_of_scaled total_length r0) ;;
  val_len <- lift (int_of_scaled total_length r1) ;;
  let val_end_idx := train_end_idx + val_len in
  let '(train_data, val_data, test_data) :=
    split_data ratio train_end_idx val_end_idx data in
  let train_data := add_docstart doc_start train_data in
  let val_data := add_docstart doc_start val_data in
  let test_data := add_docstart doc_start test_data in
  files_created <- emit output_dir "train.conll" train_data [] ;;
  files_created <- emit output_dir "val.conll" val_data files_created ;;
  files_created <- emit output_dir "test.conll" test_data files_created ;;
  ret files_created.

(** [split_conll]: any exception leaves as an [Exception] that carries its
    text. *)
Definition split_conll (conll_file output_dir : string) (ratio : ratios)
  : M (list (string * Z)) :=
  try_except (split_conll_try conll_file output_dir ratio)
    (fun e => raise Exception_ ("Error during CoNLL splitting: " +:+ exn_str e)).

(** ** [conll_to_json] *)

(** The Python types of the JSON values that are no object, and their
    names as an [AttributeError] prints them. *)
Inductive json_kind := JList | JStr | JInt | JFloat | JBool | JNull.

Definition type_name (k : json_kind) : string :=
  match k with
  | JList => "list" | JStr => "str" | JInt => "int" | JFloat => "float"
  | JBool => "bool" | JNull => "NoneType"
  end.

(** [x.attr] on a value of a type that has no such attribute. *)
Definition no_attribute (k : json_kind) (attr : string) : exn :=
  Exn AttributeError
      ("'" +:+ type_name k +:+ "' object has no attribute '" +:+ attr +:+ "'").

(** What [json.load] gives for a model configuration, as far as the
    program looks at it: the text of the [JSONDecodeError], the type of
    a value that is no object, or the [id2label] member of the top-level
    object. Its values are the tags, strings. *)
Inductive json_config :=
  | ConfigInvalid (msg : string)
  | ConfigNotObject (k : json_kind)
  | ConfigObject (id2label : option (list (string * string))).

(** The summary [conll_to_json] returns; [new_entities] is a list made
    from a set, in no particular order. *)
Record summary := Summary {
  sentences_processed : Z;
  unique_tags : Z;
  tag_counts : list (string * Z);
  new_entities : gset string
}.

(** The local variables of the loop over the lines; [custom_mapping] is
    the dictionary the reference of that name points to. *)
Record locals := Locals {
  data : list sentence;
  current_sentence : sentence;
  sentence_id : Z;
  tag_counter : list (string * Z);
  tag_dict : list (string * Z);
  max_tag_id : Z;
  custom_mapping : list (Z * string);
  new_entities_ : gset string
}.

(** [max(d.keys()) if d else -1] *)
Definition max_key (d : list (Z * string)) : Z :=
  match PyDict.keys d with
  | [] => -1
  | k :: ks => foldl Z.max k ks
  end.

(** [{v: k for k, v in d.items()}] *)
Definition inverse (d : list (Z * string)) : list (string * Z) :=
  PyDict.of_items (prod_swap <$> d).

Definition init_locals (custom_mapping : list (Z * string)) : locals :=
  Locals [] (Sentence "0" [] []) 0 [] (inverse custom_mapping)
         (max_key custom_mapping) custom_mapping ∅.

(** [if current_sentence["tokens"]: data.append(current_sentence);
    sentence_id += 1; current_sentence = {...}] *)
Definition close_sentence (st : locals) : locals :=
  match tokens (current_sentence st) with
  | [] => st
  | _ =>
      let sid := sentence_id st + 1 in
      Locals (data st ++ [current_sentence st])
             (Sentence (PyStr.str_of_int sid) [] []) sid
             (tag_counter st) (tag_dict st) (max_tag_id st)
             (custom_mapping st) (new_entities_ st)
  end.

(** After the loop: [if current_sentence["tokens"]:
    data.append(current_sentence)]. *)
Definition last_sentence (st : locals) : list sentence :=
  match tokens (current_sentence st) with
  | [] => data st
  | _ => data st ++ [current_sentence st]
  end.

(** [counter[k] += 1] *)
Definition count (counter : list (string * Z)) (k : string) : list (string * Z) :=
  PyDict.set counter k (default 0 (PyDict.get counter k) + 1).

(** [if ner_tag not in tag_dict: ...]: the tag that is recorded, and the
    locals after the registration, if there is one. *)
Definition lookup_tag (ignore_mismatch : bool) (st : locals) (ner_tag : string)
  : string * locals :=
  if PyDict.mem (tag_dict st) ner_tag then (ner_tag, st)
  else if ignore_mismatch
       then let m := max_tag_id st + 1 in
            (ner_tag,
             Locals (data st) (current_sentence st) (sentence_id st)
                    (tag_counter st) (PyDict.set (tag_dict st) ner_tag m) m
                    (PyDict.set (custom_mapping st) m ner_tag)
                    ({[ner_tag]} ∪ new_entities_ st))
       else ("O", st).

(** The branch for a line of at least four fields, given its token and
    its tag. *)
Definition add_token (ignore_mismatch : bool) (st : locals)
    (token ner_tag : string) : result locals :=
  let '(ner_tag, st) := lookup_tag ignore_mismatch st ner_tag in
  match PyDict.get (tag_dict st) ner_tag with
  | None => Raise (Exn KeyError ("'" +:+ ner_tag +:+ "'"))
  | Some i =>
      let cur := current_sentence st in
      Ok (Locals (data st)
                 (Sentence (id_ cur) (tokens cur ++ [token]) (ner_tags cur ++ [i]))
                 (sentence_id st) (count (tag_counter st) ner_tag)
                 (tag_dict st) (max_tag_id st) (custom_mapping st)
                 (new_entities_ st))
  end.

(** The body of [for line in f]. *)
Definition process_line (ignore_mismatch : bool) (st : locals) (line : string)
  : result locals :=
  let line := PyStr.strip line in
  if PyStr.startswith line DOCSTART || bool_decide (line = "")
  then Ok (close_sentence st)
  else
    match PyStr.split_ws line with
    | token :: _ :: _ :: ner_tag :: _ => add_token ignore_mismatch st token ner_tag
    | _ => Ok st
    end.

(** The loop; when a line raises, the locals are those before that
    line. *)
Fixpoint process_lines (ignore_mismatch : bool) (st : locals)
    (lines : list string) : locals * option exn :=
  match lines with
  | [] => (st, None)
  | line :: rest =>
      match process_line ignore_mismatch st line with
      | Ok st' => process_lines ignore_mismatch st' rest
      | Raise e => (st, Some e)
      end
  end.

(** [json.dumps(s, ensure_ascii=False)] for a string: the quote, the
    backslash and the characters below 0x20 are escaped. *)
Definition json_escape (c : ascii) : string :=
  let n := nat_of_ascii c in
  if Ascii.eqb c "034"%char then "\" +:+ String c EmptyString
  else if Ascii.eqb c "\"%char then "\\"
  else if (n =? 8)%nat then "\b"
  else if (n =? 12)%nat then "\f"
  else if (n =? 10)%nat then "\n"
  else if (n =? 13)%nat then "\r"
  else if (n =? 9)%nat then "\t"
  else if (n <? 32)%nat
       then "\u00" +:+ String (hex_digit (n / 16)) (String (hex_digit (n mod 16)) EmptyString)
       else String c EmptyString.

Fixpoint json_escaped (s : string) : string :=
  match s with
  | EmptyString => EmptyString
  | String c s' => json_escape c +:+ json_escaped s'
  end.

Definition quote : string := String "034"%char EmptyString.

Definition json_string (s : string) : string := quote +:+ json_escaped s +:+ quote.

Definition json_list (items : list string) : string :=
  "[" +:+ String.concat "," items +:+ "]".

(** [json.dump(item, f, ensure_ascii=False, separators=(',', ':'))] for
    one record, and the file of all of them, one a line. *)
Definition json_record (r : sentence) : string :=
  "{" +:+ json_string "id" +:+ ":" +:+ json_string (id_ r) +:+ ","
  +:+ json_string "tokens" +:+ ":" +:+ json_list (json_string <$> tokens r) +:+ ","
  +:+ json_string "ner_tags" +:+ ":" +:+ json_list (PyStr.str_of_int <$> ner_tags r)
  +:+ "}".

Definition json_lines (data : list sentence) : string :=
  String.concat "" ((fun r => json_record r +:+ String PyStr.nl EmptyString) <$> data).

(** The order of [sorted] on [(int, str)] pairs. *)
Definition item_le (a b : Z * string) : Prop :=
  a.1 < b.1 ∨ (a.1 = b.1 ∧ String.le a.2 b.2).
Global Instance item_le_dec : RelDecision item_le.
Proof. intros a b. unfold item_le. apply _. Defined.

(** The text of the class mapping file. *)
Definition class_mapping_text (custom_mapping : list (Z * string)) : string :=
  "tag_mapping = {" +:+ String PyStr.nl EmptyString +:+
  String.concat ""
    ((fun it => "    " +:+ PyStr.str_of_int it.1 +:+ ": '" +:+ it.2 +:+ "',"
                +:+ String PyStr.nl EmptyString)
       <$> merge_sort item_le custom_mapping) +:+
  "}" +:+ String PyStr.nl EmptyString.

(** The heap: a new [dict] object, the object behind a reference, and an
    assignment to it. A reference that is not on the heap does not occur
    in a run of the program; [deref] raises on one. *)
Definition alloc (d : list (Z * string)) : M nat :=
  w <- get_world ;;
  let r := fresh (dom (heap w)) in
  set_heap (<[r := d]> (heap w)) ;;; ret r.

Definition deref (r : nat) : M (list (Z * string)) :=
  w <- get_world ;;
  match heap w !! r with
  | Some d => ret d
  | None => raise Exception_ "no such object"
  end.

Definition store (r : nat) (d : list (Z * string)) : M unit :=
  w <- get_world ;; set_heap (<[r := d]> (heap w)).

(** [max(l)] for a non-empty list of strings. *)
Definition max_str (l : list string) : option string :=
  match l with
  | [] => None
  | x :: xs => Some (foldl (fun a b => if String.leb a b then b else a) x xs)
  end.

Fixpoint filterM {A} (f : A -> M bool) (l : list A) : M (list A) :=
  match l with
  | [] => ret []
  | x :: xs =>
      b <- f x ;; ys <- filterM f xs ;; ret (if b then x :: ys else ys)
  end.

(** [{int(key): value for key, value in items}] *)
Fixpoint int_keys (items : list (string * string)) (acc : list (Z * string))
  : result (list (Z * string)) :=
  match items with
  | [] => Ok acc
  | (k, v) :: rest =>
      match PyStr.int_of_str k with
      | Some n => int_keys rest (PyDict.set acc n v)
      | None =>
          Raise (Exn ValueError
                   ("invalid literal for int() with base 10: " +:+ PyStr.repr k))
      end
  end.

Section Converter.

(** [json.load] on the text of a configuration file. *)
Variable json_load_config : string -> json_config.

(** [find_latest_model_config]: the pair of results. *)
Definition find_latest_model_config (model_dir : string)
  : M (option string * option string) :=
  e <- Os.exists_ model_dir ;;
  if negb e then ret (None, None)
  else
    names <- Os.listdir model_dir ;;
    model_folders <- filterM (fun f => Os.isdir (Os.path_join model_dir f)) names ;;
    match max_str model_folders with
    | None => ret (None, None)
    | Some latest_model =>
        let config_path :=
          Os.path_join (Os.path_join model_dir latest_model) "config.json" in
        e <- Os.exists_ config_path ;;
        ret (Some latest_model, if e then Some config_path else None)
    end.

(** [load_custom_map_from_json] *)
Definition load_custom_map_from_json (json_file : string)
  : M (list (Z * string)) :=
  text <- Os.read_text json_file ;;
  match json_load_config text with
  | ConfigInvalid msg => raise JSONDecodeError msg
  | ConfigNotObject k => lift (Raise (no_attribute k "get"))
  | ConfigObject id2label => lift (int_keys (default [] id2label) [])
  end.

(** [conll_to_json]; the argument [custom_mapping] is [None] or a
    reference to a dictionary, and [ref] is the reference the name holds
    after the first statement. *)
Definition conll_to_json (input_file output_file class_mapping_file : string)
    (custom_mapping_arg : option nat) (ignore_mismatch : bool) : M summary :=
  ref <-
    match custom_mapping_arg with
    | Some r => ret r
    | None =>
        found <- find_latest_model_config "./models" ;;
        let config_path := found.2 in
        if truthy config_path
        then d <- load_custom_map_from_json (default "" config_path) ;; alloc d
        else alloc []
    end ;;
  mapping <- deref ref ;;
  text <- Os.read_text input_file ;;
  let '(st, err) :=
    process_lines ignore_mismatch (init_locals mapping) (PyStr.lines text) in
  store ref (custom_mapping st) ;;;
  match err with
  | Some e => lift (Raise e)
  | None =>
      let data := last_sentence st in
      Os.write_file output_file (json_lines data) ;;;
      Os.write_file class_mapping_file
        (class_mapping_text (custom_mapping st)) ;;;
      ret (Summary (Z.of_nat (length data))
                   (Z.of_nat (length (custom_mapping st)))
                   (tag_counter st) (new_entities_ st))
  end.

End Converter.

(** ** The route [process_conll] *)

(** What [json.loads] gives for the [custom_map] field: an object whose
    values are strings (the tags), a JSON value of another type, or
    [JSONDecodeError]. *)
Inductive json_map :=
  | JsonInvalid
  | JsonNotObject (k : json_kind)
  | JsonObject (items : list (string * string)).

(** [str(e)] for the [BadRequestKeyError] that [request.files['file']]
    raises when a multipart request has no such part. *)
Definition bad_request_text : string :=
  "400 Bad Request: The browser (or proxy) sent a request that this server could not understand.".

(** The form of a request: the three optional fields and the uploaded
    file, a file name and its text, when the part [file] is there. *)
Record request := Request {
  folder_name : option string;
  ratios_field : option string;
  custom_map_field : option string;
  file : option (string * string)
}.

(** The result of one step of the run. *)
Record processing_info := ProcessingInfo {
  files_created : list (string * Z);
  split_ratios : ratios;
  json_results : list (string * summary)
}.

Inductive body :=
  | ErrorBody (error : string)
  | SuccessBody (output_directory : string) (info : processing_info).

(** The response [jsonify(...), status]. *)
Record response := Response { status : Z; body_of : body }.

Fixpoint mapM {A B} (f : A -> M B) (l : list A) : M (list B) :=
  match l with
  | [] => ret []
  | x :: xs => y <- f x ;; ys <- mapM f xs ;; ret (y :: ys)
  end.

Section Route.

(** [float(s)] on a string; [None] stands for [ValueError]. *)
Variable float_of_str : string -> option PyFloat.float.
(** [json.loads] on the [custom_map] field. *)
Variable json_loads : string -> json_map.
(** [json.load] on a configuration file. *)
Variable json_load_config : string -> json_config.
(** [werkzeug.utils.secure_filename] *)
Variable secure_filename : string -> string.

(** [create_data_directory] *)
Definition create_data_directory (custom_name : option string) : M string :=
  let base_dir := "./data" in
  Os.makedirs base_dir ;;;
  w <- get_world ;;
  let base_name :=
    if truthy custom_name then secure_filename (default "" custom_name)
    else today w in
  names <- Os.listdir base_dir ;;
  let existing_dirs := filter (fun d => PyStr.startswith d base_name) names in
  seq_num <-
    match existing_dirs with
    | [] => ret "0001"
    | _ =>
        seqs <- mapM (fun d =>
                  let piece := default "" (last (PyStr.split d "-")) in
                  match PyStr.int_of_str piece with
                  | Some n => ret n
                  | None =>
                      raise ValueError
                        ("invalid literal for int() with base 10: " +:+ PyStr.repr piece)
                  end) existing_dirs ;;
        let max_seq := foldl Z.max (default 0 (head seqs)) seqs in
        ret (PyStr.zfill 4 (PyStr.str_of_int (max_seq + 1)))
    end ;;
  let dir_name := base_name +:+ "-" +:+ seq_num in
  let full_path := Os.path_join base_dir dir_name in
  Os.makedirs full_path ;;;
  ret full_path.

(** [tuple(float(x) for x in ratios.split(','))] *)
Fixpoint floats_of (pieces : list string) : result (list PyFloat.float) :=
  match pieces with
  | [] => Ok []
  | x :: rest =>
      match float_of_str x with
      | None =>
          Raise (Exn ValueError
                   ("could not convert string to float: " +:+ PyStr.repr x))
      | Some r =>
          match floats_of rest with
          | Ok rs => Ok (r :: rs)
          | Raise e => Raise e
          end
      end
  end.

Definition parse_ratios (field : string) : result (list PyFloat.float) :=
  floats_of (PyStr.split field ",").

(** [# Parse ratios]: the ratios of the request, or the response the
    function returns at once. *)
Definition requested_ratios (ratios_str : option string)
  : result (response + ratios) :=
  if truthy ratios_str
  then match parse_ratios (default "" ratios_str) with
       | Raise e => Raise e
       | Ok [r0; r1; r2] => Ok (inr (r0, r1, r2))
       | Ok _ =>
           Ok (inl (Response 400
                      (ErrorBody "Ratios must be three comma-separated numbers")))
       end
  else Ok (inr (PyFloat.dec 7 1, PyFloat.dec 15 2, PyFloat.dec 15 2)).

(** [# Parse custom_map if provided]: the items of the dictionary, if
    there is a field, or the response the function returns at once. *)
Definition requested_map (custom_map_str : option string)
  : result (response + option (list (Z * string))) :=
  if truthy custom_map_str
  then match json_loads (default "" custom_map_str) with
       | JsonInvalid =>
           Ok (inl (Response 400 (ErrorBody "Invalid custom_map JSON format")))
       | JsonNotObject k => Raise (no_attribute k "items")
       | JsonObject items =>
           match int_keys items [] with
           | Ok d => Ok (inr (Some d))
           | Raise e => Raise e
           end
       end
  else Ok (inr None).

(** The loop over [split_results]. *)
Definition convert_splits (conll_dir output_dir class_mapping_file : string)
    (custom_map : option nat) (split_results : list (string * Z))
  : M (list (string * summary)) :=
  foldl (fun (acc : M (list (string * summary))) (sr : string * Z) =>
           json_results <- acc ;;
           let split_name := sr.1 in
           let conll_path := Os.path_join conll_dir split_name in
           let json_path :=
             Os.path_join output_dir (PyStr.replace split_name ".conll" ".json") in
           conversion_result <-
             conll_to_json json_load_config conll_path json_path
               class_mapping_file custom_map true ;;
           ret (PyDict.set json_results split_name conversion_result))
        (ret []) split_results.

(** The body of the [try] of [process_conll]: a response returned
    before the end, or the successful one. *)
Definition process_conll_try (req : request) : M response :=
  let custom_name := folder_name req in
  let ratios_str := ratios_field req in
  let custom_map_str := custom_map_field req in
  parsed <- lift (requested_ratios ratios_str) ;;
  match parsed with
  | inl r => ret r
  | inr ratio =>
  parsed <- lift (requested_map custom_map_str) ;;
  match parsed with
  | inl r => ret r
  | inr items =>
  custom_map <- match items with
                | Some d => r <- alloc d ;; ret (Some r)
                | None => ret None
                end ;;
  output_dir <- create_data_directory custom_name ;;
  let conll_dir := Os.path_join output_dir "conll_files" in
  Os.makedirs conll_dir ;;;
  match file req with
  | None => raise BadRequestKeyError bad_request_text
  | Some (filename, text) =>
  if bool_decide (filename = "")
  then ret (Response 400 (ErrorBody "No file uploaded"))
  else
  let original_filename := secure_filename filename in
  let input_path := Os.path_join conll_dir original_filename in
  Os.write_file input_path text ;;;
  split_results <- split_conll input_path conll_dir ratio ;;
  let class_mapping_file := Os.path_join output_dir "class_mapping.py" in
  json_results <-
    convert_splits conll_dir output_dir class_mapping_file custom_map
      split_results ;;
  ret (Response 200
         (SuccessBody output_dir
            (ProcessingInfo split_results ratio json_results)))
  end end end.

(** [process_conll]: every exception becomes the response 500 with its
    text. *)
Definition process_conll (req : request) : M response :=
  try_except (process_conll_try req)
    (fun e => ret (Response 500 (ErrorBody (exn_str e)))).

End Route.

(** ** Notions the statements use *)

(** What [emit] reports, writes and logs for one group. *)
Definition emitted (name : string) (data : list string) : list (string * Z) :=
  match data with [] => [] | _ => [(name, Z.of_nat (length data))] end.

Definition written (output_dir name : string) (data : list string)
    (f : gmap string node) : gmap string node :=
  match data with
  | [] => f
  | _ => <[Os.path_join output_dir name := File (rendered data)]> f
  end.

Definition write_events (output_dir name : string) (data : list string)
  : list event :=
  match data with [] => [] | _ => [EvWrite (Os.path_join output_dir name)] end.


(** Directories are only added: every path keeps what it had, or had
    nothing and is now a directory. *)
Definition grows (f f' : gmap string node) : Prop :=
  forall q, f' !! q = f !! q \/ (f !! q = None /\ f' !! q = Some Dir).

(** What a line of the corpus is to the loop of [conll_to_json]. *)
Inductive line_kind :=
  | Boundary
  | Token (token ner_tag : string)
  | Skipped.

Definition kind_of (line : string) : line_kind :=
  let line := PyStr.strip line in
  if PyStr.startswith line DOCSTART || bool_decide (line = "") then Boundary
  else match PyStr.split_ws line with
       | token :: _ :: _ :: ner_tag :: _ => Token token ner_tag
       | _ => Skipped
       end.

(** The sentence segmenter: the sentences of a corpus, each the list of
    its (token, tag) pairs. A boundary ends the sentence being read when
    it has a token; the end of the input does the same. *)
Fixpoint segment_from (cur : list (string * string)) (lines : list string)
  : list (list (string * string)) :=
  match lines with
  | [] => match cur with [] => [] | _ => [cur] end
  | line :: rest =>
      match kind_of line with
      | Boundary =>
          match cur with
          | [] => segment_from [] rest
          | _ => cur :: segment_from [] rest
          end
      | Token token ner_tag => segment_from (cur ++ [(token, ner_tag)]) rest
      | Skipped => segment_from cur rest
      end
  end.

Definition segment (lines : list string) : list (list (string * string)) :=
  segment_from [] lines.

(** The tags of the tokens of a corpus, in order. *)
Definition tags_of (lines : list string) : list string :=
  omap (fun line => match kind_of line with
                    | Token _ ner_tag => Some ner_tag
                    | _ => None
                    end) lines.

(** The tag recorded for a token tagged [ner_tag] under the registry
    [tag_dict]: the tag itself when it is registered or gets registered,
    the fallback ["O"] otherwise. *)
Definition resolve (ignore_mismatch : bool) (tag_dict : list (string * Z))
    (ner_tag : string) : string :=
  if ignore_mismatch then ner_tag
  else if PyDict.mem tag_dict ner_tag then ner_tag else "O".

(** The distinct elements of a list, each at its first occurrence. *)
Definition first_seen (l : list string) : list string :=
  foldl (fun acc x => if bool_decide (x ∈ acc) then acc else acc ++ [x]) [] l.

(** [counter[k]], which is 0 for a key that is not there. *)
Definition counted (counter : list (string * Z)) (k : string) : Z :=
  default 0 (PyDict.get counter k).

(** The locals at the end of the loop of a conversion that starts from
    the dictionary [m], and the exception that ended it, if any. *)
Definition run (ignore_mismatch : bool) (m : list (Z * string)) (text : string)
  : locals * option exn :=
  process_lines ignore_mismatch (init_locals m) (PyStr.lines text).

(** Every dictionary of the heap has distinct keys. *)
Definition heap_wf (w : world) : Prop :=
  map_Forall (fun _ m => NoDup (PyDict.keys m)) (heap w).

(** The dictionary a conversion starts from: the one behind the
    reference it is given, or else the table of the latest model
    configuration, or else the empty one. *)
Definition initial_mapping (json_load_config : string -> json_config)
    (arg : option nat) (w : world) (m0 : list (Z * string)) : Prop :=
  match arg with
  | Some r => heap w !! r = Some m0
  | None =>
      exists found,
        find_latest_model_config "./models" w = (Ok found, w) /\
        if truthy found.2
        then exists w1,
            load_custom_map_from_json json_load_config (default "" found.2) w
            = (Ok m0, w1)
        else m0 = []
  end.

(** The object a conversion works on. *)
Definition ref_of (arg : option nat) (w : world) : nat :=
  match arg with
  | Some r => r
  | None => fresh (dom (heap w))
  end.

(** A step that touches only the file system and the trace. *)
Definition fs_step (w w' : world) : Prop :=
  heap w' = heap w /\ rand w' = rand w /\ rand_pos w' = rand_pos w /\ today w' = today w.


(** The registry is well kept: the counter is the greatest key, and the
    tag table is the table of ids read backwards. *)
Record registry_ok (st : locals) : Prop := RegistryOk {
  ok_max : max_tag_id st = max_key (custom_mapping st);
  ok_inverse : tag_dict st = inverse (custom_mapping st)
}.

(** The part of the locals that is the registry. *)
Definition registry (st : locals)
  : list (string * Z) * Z * list (Z * string) * gset string :=
  (tag_dict st, max_tag_id st, custom_mapping st, new_entities_ st).

(** The number of occurrences of [t] in [l]. *)
Definition occurrences (t : string) (l : list string) : Z :=
  Z.of_nat (length (filter (fun x => x = t) l)).

(** The record [r] is the sentence [s] under the tag table [td]: the same
    tokens, and for each tag the id of the tag that [rho] records for
    it. *)
Definition encodes (rho : string -> string) (td : list (string * Z))
    (r : sentence) (s : list (string * string)) : Prop :=
  tokens r = s.*1 /\
  Forall2 (fun i t => PyDict.get td (rho t) = Some i) (ner_tags r) (s.*2).

(** The tags [l] numbered from 0 in their order: as a table of ids and
    as a tag table. *)
Definition numbered (l : list string) : list (Z * string) :=
  imap (fun i t => (Z.of_nat i, t)) l.
Definition numbers (l : list string) : list (string * Z) :=
  imap (fun i t => (t, Z.of_nat i)) l.

(** The summary of a conversion that ended with the locals [st]. *)
Definition summary_of (st : locals) : summary :=
  Summary (Z.of_nat (length (last_sentence st)))
          (Z.of_nat (length (custom_mapping st)))
          (tag_counter st) (new_entities_ st).

Definition with_heap (w : world) (h : gmap nat (list (Z * string))) : world :=
  World (fs w) h (rand w) (rand_pos w) (today w) (trace w).

(** The records read through the table of ids [table] give the sentences
    of the corpus [raw]: the same tokens, and for each id the tag that
    [rho] records for the tag of the token. *)
Definition reads_back (table : list (Z * string)) (rho : string -> string)
    (records : list sentence) (raw : string) : Prop :=
  Forall2 (fun rec sent =>
             tokens rec = sent.*1 /\
             PyDict.get table <$> ner_tags rec
             = (fun t => Some (rho t)) <$> sent.*2)
          records (segment (PyStr.lines (PyStr.universal_newlines raw))).



(** ** Inputs for the examples *)
Module Example.

(** A world with the given files: no dictionary on the heap, the
    random source that draws 0, 1, 2, ... *)
Definition world_of (files : list (string * node)) : world :=
  World (list_to_map files) ∅ (fun n => n) 0 "03-Nov-2026" [].

Definition three_blocks : string := "a -X- _ O

b -X- _ O

c -X- _ O
".


Definition w_three : world := world_of [("in.conll", File three_blocks)].

(** The scenario of the specification, with two fields a line, and
    the same sentences with four. *)
Definition two_columns : string := "Alice B-PER
loves O
Bob B-PER

No O
".

Definition four_columns : string := "Alice -X- _ B-PER
loves -X- _ O
Bob -X- _ B-PER

No -X- _ O
".

Definition w_two_columns : world := world_of [("in.conll", File two_columns)].
Definition w_four_columns : world := world_of [("in.conll", File four_columns)].

(** A world whose heap has the dictionary [{0: 'O'}] at the reference 0,
    and a corpus of one token tagged B-PER. *)
Definition one_token : string := "Alice -X- _ B-PER
".
Definition w_only_O : world :=
  World (list_to_map [("in.conll", File one_token)]) {[ 0%nat := [(0, "O")] ]}
        (fun n => n) 0 "03-Nov-2026" [].

(** Two splits that meet the same tags in opposite orders. *)
Definition split_a : string := "Alice -X- _ B-PER
loves -X- _ O
".
Definition split_b : string := "No -X- _ O
Bob -X- _ B-PER
".
Definition w_two_splits : world :=
  World (list_to_map [("a.conll", File split_a); ("b.conll", File split_b)])
        {[ 0%nat := [] ]} (fun n => n) 0 "03-Nov-2026" [].

(** [json.load] for the worlds above: they have no [./models]
    directory, so no configuration is ever read in them. *)
Definition json_load_config : string -> json_config :=
  fun _ => ConfigInvalid "Expecting value: line 1 column 1 (char 0)".

(** [float] on the decimal literals of the examples, digits with an
    optional fraction; it rejects the strings it does not read, among
    them every string without a digit. *)
Definition float_of_str (s : string) : option PyFloat.float :=
  match PyStr.split (PyStr.strip s) "." with
  | [i] => PyFloat.of_int <$> PyStr.int_digits false 0 i
  | [i; f] =>
      match PyStr.int_digits false 0 i, PyStr.int_digits false 0 f with
      | Some a, Some b =>
          let k := String.length f in
          Some (PyFloat.dec (a * 10 ^ Z.of_nat k + b) k)
      | _, _ => None
      end
  | _ => None
  end.

(** [json.loads] for the requests of the examples: they have no
    [custom_map] field, so nothing is ever parsed for them. *)
Definition json_loads : string -> json_map := fun _ => JsonInvalid.

(** [secure_filename] on the names of the examples: letters, digits,
    dots, dashes and underscores are kept. *)
Definition keeps (c : ascii) : bool :=
  let n := nat_of_ascii c in
  ((48 <=? n) && (n <=? 57) || (65 <=? n) && (n <=? 90)
   || (97 <=? n) && (n <=? 122) || (n =? 45) || (n =? 46) || (n =? 95))%nat.

Fixpoint secure_filename (s : string) : string :=
  match s with
  | EmptyString => EmptyString
  | String c s' =>
      if keeps c then String c (secure_filename s') else secure_filename s'
  end.

Definition w_empty : world := world_of [].

Definition req_default : request :=
  Request None None None (Some ("corpus.conll", three_blocks)).

Definition r_050 : PyFloat.float := PyFloat.dec 5 1.
Definition r_020 : PyFloat.float := PyFloat.dec 2 1.

End Example.

(** ** Notions for the remaining functions

    What [create_data_directory], [find_latest_model_config],
    [load_custom_map_from_json] and [write_to_file] are shown to do,
    and what else is shown of the three main functions, is stated
    with the notions below. *)

(** Every character of a string passes the test [P]. *)
Fixpoint all_chars (P : ascii -> bool) (s : string) : bool :=
  match s with
  | EmptyString => true
  | String c s' => P c && all_chars P s'
  end.

(** The entries of the directory [d] in a file system: what [os.listdir]
    lists. *)
Definition entries (d : string) (f : gmap string node) : list string :=
  omap (Os.entry_of d) (map_to_list f).*1.

(** The name [create_data_directory] numbers: the secured custom name, or
    today's date. *)
Definition base_name_of (secure_filename : string -> string)
    (custom_name : option string) (w : world) : string :=
  if truthy custom_name then secure_filename (default "" custom_name)
  else today w.

(** [d.split('-')[-1]] *)
Definition suffix_of (d : string) : string :=
  default "" (last (PyStr.split d "-")).

(** Reading the numbers of the existing directories. *)
Definition read_seq (d : string) : M Z :=
  let piece := default "" (last (PyStr.split d "-")) in
  match PyStr.int_of_str piece with
  | Some n => ret n
  | None =>
      raise ValueError
        ("invalid literal for int() with base 10: " +:+ PyStr.repr piece)
  end.

(** No file stands at the path [p]. *)
Definition not_a_file (f : gmap string node) (p : string) : Prop :=
  forall c, f !! p <> Some (File c).

(** [os.path.isdir] on a file system. *)
Definition is_dir (f : gmap string node) (p : string) : bool :=
  match f !! p with Some Dir => true | _ => false end.

(** The entries of [d] that are directories. *)
Definition model_folders (d : string) (f : gmap string node) : list string :=
  filter (fun name => is_dir f (Os.path_join d name)) (entries d f).

(** The [id2label] object that holds the table [m]: each id written in
    decimal, as [json.dump] writes an [int] key. *)
Definition id2label_of (m : list (Z * string)) : list (string * string) :=
  (fun kv => (PyStr.str_of_int kv.1, kv.2)) <$> m.

(** The items of an [id2label] object whose key reads as the id [n]. *)
Definition items_for (n : Z) (items : list (string * string))
  : list (string * string) :=
  filter (fun kv => PyStr.int_of_str kv.1 = Some n) items.

(** The ids of the first [n] records: ["0"], ["1"], ... *)
Definition record_ids (n : nat) : list string :=
  (fun i => PyStr.str_of_int (Z.of_nat i)) <$> seq 0 n.

(** A record has a token, and a tag id for each token. *)
Definition well_formed (r : sentence) : Prop :=
  tokens r <> [] /\ length (ner_tags r) = length (tokens r).

(** The records are well kept during the loop: the counter is the number
    of finished sentences, the sentence being read carries it as its id,
    and the finished ones are numbered from 0 and well formed. *)
Record records_ok (st : locals) : Prop := RecordsOk {
  ok_sentence_id : sentence_id st = Z.of_nat (length (data st));
  ok_current_id : id_ (current_sentence st) = PyStr.str_of_int (sentence_id st);
  ok_ids : id_ <$> data st = record_ids (length (data st));
  ok_data : Forall well_formed (data st);
  ok_current :
    length (ner_tags (current_sentence st)) = length (tokens (current_sentence st))
}.

(** [open(p, 'w')] succeeds: no directory stands at [p], the path does
    not end in a slash, and the directory above it, if the path names
    one, is there. *)
Definition writable (f : gmap string node) (p : string) : Prop :=
  f !! p <> Some Dir /\
  PyStr.startswith (String.rev p) "/" = false /\
  match Os.parent p with
  | Some d => f !! d = Some Dir
  | None => True
  end.

(** The world after the conversion has read its input and stored the
    table [m] behind the reference [r]. *)
Definition after_loop (w : world) (inp : string) (r : nat) (m : list (Z * string))
  : world :=
  World (fs w) (<[r := m]> (heap w)) (rand w) (rand_pos w) (today w)
        (EvRead inp :: trace w).

(** The tags of a corpus that the tag table [td] does not know. *)
Definition unknown_tags (td : list (string * Z)) (lines : list string)
  : gset string :=
  list_to_set (filter (fun t => PyDict.mem td t = false) (tags_of lines)).

(** The class mapping file that lists the entries [l] in their order. *)
Definition class_mapping_of (l : list (Z * string)) : string :=
  "tag_mapping = {" +:+ String PyStr.nl EmptyString +:+
  String.concat ""
    ((fun it => "    " +:+ PyStr.str_of_int it.1 +:+ ": '" +:+ it.2 +:+ "',"
                +:+ String PyStr.nl EmptyString) <$> l) +:+
  "}" +:+ String PyStr.nl EmptyString.

(** One line of the JSON output. *)
Definition json_line (r : sentence) : string :=
  json_record r +:+ String PyStr.nl EmptyString.

(** A step leaves the heap alone, and on the file system it touches only
    the paths in [P]: every other path keeps what it had, or had nothing
    and is now a directory. *)
Definition touches (P : string -> Prop) (w w' : world) : Prop :=
  heap w' = heap w /\
  forall q, ~ P q ->
    fs w' !! q = fs w !! q \/ (fs w !! q = None /\ fs w' !! q = Some Dir).

(** A computation that touches only the paths in [P], however it
    ends. *)
Definition confined {A} (P : string -> Prop) (m : M A) : Prop :=
  forall w r w', m w = (r, w') -> touches P w w'.

(** The paths of the files [split_conll] writes into [output_dir]. *)
Definition split_output (output_dir : string) (q : string) : Prop :=
  exists g, q = Os.path_join output_dir (file_name g).

(** An event that is not a write. *)
Definition not_a_write (ev : event) : Prop :=
  match ev with EvWrite _ => False | _ => True end.

(** A block as a CoNLL file has them: it is not empty, has no white
    space at its ends, no blank line inside ([split] leaves it whole) and
    no carriage return. *)
Definition block_ok (b : string) : Prop :=
  b <> "" /\ PyStr.strip b = b /\ PyStr.split b blank_line = [b] /\
  PyStr.contains PyStr.cr b = false.

(** The string starts with a character that is not white space. *)
Definition starts_clean (s : string) : bool :=
  match s with
  | String c _ => negb (PyStr.is_space c)
  | EmptyString => false
  end.

(** No blank line starts anywhere in the string. *)
Fixpoint no_blank (s : string) : bool :=
  match s with
  | EmptyString => true
  | String _ s' => negb (String.prefix blank_line s) && no_blank s'
  end.

(** A file stands at the path [q]. *)
Definition is_file (f : gmap string node) (q : string) : Prop :=
  exists c, f !! q = Some (File c).

(** The JSON file of a split group: [split_name.replace('.conll',
    '.json')]. *)
Definition json_name (g : group) : string :=
  PyStr.replace (file_name g) ".conll" ".json".

(** The two responses the route gives before it touches anything. *)
Definition early_response (resp : response) : Prop :=
  resp = Response 400 (ErrorBody "Ratios must be three comma-separated numbers") \/
  resp = Response 400 (ErrorBody "Invalid custom_map JSON format").

(** The step of [process_conll] that puts the table of the request on
    the heap. *)
Definition put_custom_map (items : option (list (Z * string))) : M (option nat) :=
  match items with
  | Some d => r <- alloc d ;; ret (Some r)
  | None => ret None
  end.

(** One turn of the loop over [split_results]. *)
Definition convert_split (jl : string -> json_config)
    (conll_dir output_dir class_mapping_file : string) (custom_map : option nat)
    (acc : M (list (string * summary))) (sr : string * Z)
  : M (list (string * summary)) :=
  json_results <- acc ;;
  let split_name := sr.1 in
  let conll_path := Os.path_join conll_dir split_name in
  let json_path :=
    Os.path_join output_dir (PyStr.replace split_name ".conll" ".json") in
  conversion_result <-
    conll_to_json jl conll_path json_path class_mapping_file custom_map true ;;
  ret (PyDict.set json_results split_name conversion_result).

(** A line that is no boundary and has fewer than four fields. *)
Definition short_line (line : string) : bool :=
  let line := PyStr.strip line in
  negb (PyStr.startswith line DOCSTART || bool_decide (line = ""))
  && (length (PyStr.split_ws line) <? 4)%nat.

(** The tokens of a corpus, in order. *)
Definition tokens_of (lines : list string) : list string :=
  omap (fun line => match kind_of line with
                    | Token token _ => Some token
                    | _ => None
                    end) lines.

(** ** Further inputs for the examples *)

Module Scenario.

(** A data directory with the runs 1 and 7 of the name ["run"], and
    directories of other names. *)
Definition w_numbered : world :=
  Example.world_of [(".", Dir); ("./data", Dir); ("./data/run-0001", Dir);
                    ("./data/run-0007", Dir); ("./data/runner-0003", Dir);
                    ("./data/other-0042", Dir)].

(** A data directory with a directory whose name ends in no number. *)
Definition w_unnumbered : world :=
  Example.world_of [("./data", Dir); ("./data/run-final", Dir)].

(** The text of a configuration file with two labels, and of one with a
    key that is not a number. *)
Definition config_text : string :=
  "{" +:+ json_string "id2label" +:+ ":{"
  +:+ json_string "0" +:+ ":" +:+ json_string "O" +:+ ","
  +:+ json_string "1" +:+ ":" +:+ json_string "B-PER" +:+ "}}".

Definition bad_config_text : string :=
  "{" +:+ json_string "id2label" +:+ ":{"
  +:+ json_string "0" +:+ ":" +:+ json_string "O" +:+ ","
  +:+ json_string "one" +:+ ":" +:+ json_string "B-PER" +:+ "}}".

(** [json.load] on these two texts. *)
Definition json_load_config (text : string) : json_config :=
  if bool_decide (text = config_text)
  then ConfigObject (Some [("0", "O"); ("1", "B-PER")])
  else if bool_decide (text = bad_config_text)
       then ConfigObject (Some [("0", "O"); ("one", "B-PER")])
       else ConfigInvalid "Expecting value: line 1 column 1 (char 0)".

(** A model directory with two models and a file. *)
Definition w_models : world :=
  Example.world_of [("./models", Dir); ("./models/bert-v1", Dir);
                    ("./models/bert-v2", Dir);
                    ("./models/notes.txt", File "notes");
                    ("./models/bert-v1/config.json", File bad_config_text);
                    ("./models/bert-v2/config.json", File config_text)].

(** A corpus of one token tagged [B-PER], and a table that holds
    neither that tag nor [O]. *)
Definition w_no_O : world :=
  World (list_to_map [("in.conll", File Example.one_token)])
        {[ 0%nat := [(0, "B-LOC")] ]} (fun n => n) 0 "03-Nov-2026" [].

(** An output directory. *)
Definition w_out : world := Example.world_of [("out", Dir)].

(** Requests: two ratios instead of three, an upload with no file name,
    and a file name that [secure_filename] empties. *)
Definition req_two_ratios : request :=
  Request None (Some "0.7,0.3") None (Some ("corpus.conll", Example.three_blocks)).
Definition req_no_file : request :=
  Request (Some "run") None None (Some ("", "")).
Definition req_bad_name : request :=
  Request None None None (Some ("???", Example.three_blocks)).

(** A [custom_map] field with the table [{0: 'O'}], and [json.loads] on
    it. *)
Definition custom_map_text : string :=
  "{" +:+ json_string "0" +:+ ":" +:+ json_string "O" +:+ "}".

Definition json_loads (text : string) : json_map :=
  if bool_decide (text = custom_map_text) then JsonObject [("0", "O")]
  else JsonInvalid.

(** A corpus of two sentences that meet the same tags in opposite
    orders, uploaded without and with the [custom_map]. *)
Definition two_orders : string :=
  Example.split_a +:+ String PyStr.nl EmptyString +:+ Example.split_b.

Definition req_two_orders : request :=
  Request None None None (Some ("corpus.conll", two_orders)).
Definition req_with_map : request :=
  Request None None (Some custom_map_text) (Some ("corpus.conll", two_orders)).

End Scenario.

(** * Proofs *)

(** ** The effect monad and the file system *)
Lemma bind_ok {A B} (m : M A) (k : A -> M B) w b w'' :
  bind m k w = (Ok b, w'') ->
  exists a w', m w = (Ok a, w') /\ k a w' = (Ok b, w'').
Proof.
  unfold bind. destruct (m w) as [[a|e] w'] eqn:E; [eauto | discriminate].
Qed.

Lemma mkdir_exist_ok_spec cls named p w r w' :
  Os.mkdir_exist_ok cls named p w = (r, w') ->
  trace w' = trace w /\ fs_step w w' /\ grows (fs w) (fs w') /\
  (r = Ok tt -> fs w' !! p = Some Dir).
Proof.
  unfold Os.mkdir_exist_ok, Os.os_error, bind, get_world, set_fs, ret, raise,
    fs_step, grows.
  destruct (fs w !! p) as [[|c]|] eqn:E; intros [= <- <-]; simpl;
    repeat split; auto; try discriminate.
  - intros q. destruct (decide (p = q)) as [->|Hne].
    + right. by rewrite lookup_insert_eq.
    + left. by rewrite lookup_insert_ne.
  - intros _. by rewrite lookup_insert_eq.
Qed.

Lemma fs_step_refl w : fs_step w w.
Proof. by unfold fs_step. Qed.
Lemma fs_step_trans w1 w2 w3 : fs_step w1 w2 -> fs_step w2 w3 -> fs_step w1 w3.
Proof. unfold fs_step. intros (?&?&?&?) (?&?&?&?). repeat split; congruence. Qed.

Lemma grows_refl f : grows f f.
Proof. intros q. by left. Qed.
Lemma grows_trans f1 f2 f3 : grows f1 f2 -> grows f2 f3 -> grows f1 f3.
Proof.
  intros H1 H2 q. destruct (H1 q) as [E1|[E1 E1']], (H2 q) as [E2|[E2 E2']].
  - left. congruence.
  - right. split; congruence.
  - right. split; congruence.
  - congruence.
Qed.

Lemma mkdirs_fold_spec p ds w r w' :
  foldr (fun d k => Os.mkdir_exist_ok NotADirectoryError (Os.below d p) d ;;; k)
        (Os.mkdir_exist_ok FileExistsError p p) ds w = (r, w') ->
  trace w' = trace w /\ fs_step w w' /\ grows (fs w) (fs w') /\
  (r = Ok tt -> fs w' !! p = Some Dir).
Proof.
  revert w. induction ds as [|d ds IH]; intros w; simpl.
  - apply mkdir_exist_ok_spec.
  - unfold bind at 1. destruct (Os.mkdir_exist_ok _ _ d w) as [[[]|e] w1] eqn:E1.
    + apply mkdir_exist_ok_spec in E1 as (Ht & Hs & Hg & _).
      intros H. apply IH in H as (Ht' & Hs' & Hg' & Hd').
      split; [congruence|]. split; [eauto using fs_step_trans|].
      split; [eapply grows_trans; eauto|done].
    + apply mkdir_exist_ok_spec in E1 as (Ht & Hs & Hg & _).
      intros [= <- <-]. split; [done|]. split; [done|]. split; [done|discriminate].
Qed.

Lemma makedirs_spec p w r w' :
  Os.makedirs p w = (r, w') ->
  trace w' = EvMakedirs p :: trace w /\ fs_step w w' /\ grows (fs w) (fs w') /\
  (r = Ok tt -> fs w' !! p = Some Dir).
Proof.
  unfold Os.makedirs, bind at 1, log. simpl.
  destruct (decide (p = "")) as [->|Hp].
  - intros [= <- <-]. simpl. repeat split; auto using grows_refl; discriminate.
  - intros H. apply mkdirs_fold_spec in H as (Ht & Hs & Hg & Hd). simpl in *.
    repeat split; auto; apply Hs.
Qed.

Lemma read_text_spec p w r w' :
  Os.read_text p w = (r, w') ->
  trace w' = EvRead p :: trace w /\ fs w' = fs w /\ fs_step w w' /\
  (forall text, r = Ok text ->
     exists raw, fs w !! p = Some (File raw) /\ text = PyStr.universal_newlines raw).
Proof.
  unfold Os.read_text, Os.os_error, bind, log, get_world, ret, raise. simpl.
  destruct (fs w !! p) as [[|raw]|]; intros [= <- <-]; simpl;
    repeat split; auto; intros text [= <-]; eauto.
Qed.

Lemma write_file_spec p c w r w' :
  Os.write_file p c w = (r, w') ->
  trace w' = EvWrite p :: trace w /\ fs_step w w' /\
  (r = Ok tt -> fs w' = <[p := File c]> (fs w)) /\
  (forall e, r = Raise e -> fs w' = fs w).
Proof.
  unfold Os.write_file, Os.os_error, bind, log, get_world, ret, raise, set_fs. simpl.
  destruct (fs w !! p) as [[|c0]|]; try (intros [= <- <-]; simpl; repeat split; auto; discriminate);
  destruct (PyStr.startswith _ _); try (intros [= <- <-]; simpl; repeat split; auto; discriminate);
  destruct (Os.parent p) as [d|]; try (intros [= <- <-]; simpl; repeat split; auto; discriminate);
  destruct (fs w !! d) as [[|c1]|]; intros [= <- <-]; simpl; repeat split; auto; discriminate.
Qed.

(** [random.shuffle] returns a permutation and only draws numbers. *)
Lemma shuffle_from_spec {A} i (x : list A) w :
  (i < length x)%nat ->
  exists y w', Random.shuffle_from i x w = (Ok y, w') /\ y ≡ₚ x /\
    fs w' = fs w /\ trace w' = trace w /\ heap w' = heap w.
Proof.
  revert x w. induction i as [|i IH]; intros x w Hi; simpl.
  - exists x, w. by repeat split.
  - unfold bind, Random.randbelow.
    set (j := (rand w (rand_pos w) `mod` S (S i))%nat).
    assert (j < S (S i))%nat as Hj by (apply Nat.mod_upper_bound; lia).
    destruct (lookup_lt_is_Some_2 x (S i) Hi) as [xi Hxi].
    destruct (lookup_lt_is_Some_2 x j ltac:(lia)) as [xj Hxj].
    rewrite Hxi, Hxj.
    edestruct (IH (<[j:=xi]> (<[S i:=xj]> x))) as (y & w' & E & Hp & Hf & Ht & Hh).
    { rewrite !length_insert. lia. }
    exists y, w'. split; [exact E|]. split; [|done].
    rewrite Hp. by apply Permutation_insert_swap.
Qed.

Lemma shuffle_spec {A} (x : list A) w :
  exists y w', Random.shuffle x w = (Ok y, w') /\ y ≡ₚ x /\
    fs w' = fs w /\ trace w' = EvShuffle (length x) :: trace w /\ heap w' = heap w.
Proof.
  unfold Random.shuffle, bind, log. simpl.
  destruct x as [|a x].
  - simpl. eexists _, _. by repeat split.
  - edestruct (shuffle_from_spec (length (a :: x) - 1) (a :: x)) as (y & w' & E & ?).
    { simpl. lia. }
    exists y, w'. split; [exact E|]. done.
Qed.













Lemma emit_ok od name d acc w files w' :
  emit od name d acc w = (Ok files, w') ->
  files = acc ++ emitted name d /\
  fs w' = written od name d (fs w) /\
  trace w' = write_events od name d ++ trace w /\
  heap w' = heap w.
Proof.
  unfold emit, emitted, written, write_events, write_to_file.
  destruct d as [|x d].
  - intros [= <- <-]. by rewrite app_nil_r.
  - intros H. apply bind_ok in H as ([] & w1 & Hw & [= <- <-]).
    apply write_file_spec in Hw as (Ht & Hs & Hf & _).
    repeat split; auto. apply Hs.
Qed.

Lemma split_conll_try_ok cf od r0 r1 r2 w files w' :
  split_conll_try cf od (r0, r1, r2) w = (Ok files, w') ->
  exists raw shuffled a b w1,
    let blocks := blocks_of (PyStr.universal_newlines raw) in
    let doc_start := doc_start_of (default "" (head blocks)) in
    let g := split_data (r0, r1, r2) a (a + b) shuffled in
    let train := add_docstart doc_start g.1.1 in
    let val := add_docstart doc_start g.1.2 in
    let test := add_docstart doc_start g.2 in
    PyFloat.gt (PyFloat.sum [r0; r1; r2]) PyFloat.one = false /\
    fs w !! cf = Some (File raw) /\
    grows (fs w) (fs w1) /\ fs w1 !! od = Some Dir /\
    shuffled ≡ₚ without_docstart doc_start blocks /\
    int_of_scaled (Z.of_nat (length shuffled)) r0 = Ok a /\
    int_of_scaled (Z.of_nat (length shuffled)) r1 = Ok b /\
    files = emitted "train.conll" train ++ emitted "val.conll" val
              ++ emitted "test.conll" test /\
    fs w' = written od "test.conll" test
              (written od "val.conll" val
                 (written od "train.conll" train (fs w1))) /\
    trace w' = write_events od "test.conll" test
                 ++ write_events od "val.conll" val
                 ++ write_events od "train.conll" train
                 ++ EvShuffle (length shuffled) :: EvRead cf
                 :: EvMakedirs od :: trace w /\
    heap w' = heap w.
Proof.
  unfold split_conll_try. intros H.
  apply bind_ok in H as ([] & w1 & Hmk & H).
  apply makedirs_spec in Hmk as (Ht1 & Hs1 & Hg1 & Hd1).
  apply bind_ok in H as ([] & w2 & Hsum & H).
  destruct (PyFloat.gt _ _) eqn:Esum; [discriminate|].
  injection Hsum as <-.
  apply bind_ok in H as (text & w3 & Hrd & H).
  apply read_text_spec in Hrd as (Ht3 & Hf3 & Hs3 & Hraw).
  destruct (Hraw text eq_refl) as (raw & Hcf & ->).
  apply bind_ok in H as (first & w4 & Hfirst & H).
  destruct (blocks_of _) as [|d blocks'] eqn:Eb; [discriminate|].
  injection Hfirst as <- <-.
  apply bind_ok in H as (shuffled & w5 & Hsh & H).
  destruct (shuffle_spec (without_docstart (doc_start_of d) (d :: blocks')) w3)
    as (y & w5' & Hsh' & Hperm & Hf5 & Ht5 & Hh5).
  rewrite Hsh' in Hsh. injection Hsh as <- <-.
  apply bind_ok in H as (a & w6 & Ha & H). injection Ha as Ha <-.
  apply bind_ok in H as (b & w7 & Hb & H). injection Hb as Hb <-.
  destruct (split_data _ _ _ _) as [[tr va] te] eqn:Eg.
  apply bind_ok in H as (f1 & w8 & He1 & H).
  apply emit_ok in He1 as (-> & Hf8 & Ht8 & Hh8).
  apply bind_ok in H as (f2 & w9 & He2 & H).
  apply emit_ok in He2 as (-> & Hf9 & Ht9 & Hh9).
  apply bind_ok in H as (f3 & w10 & He3 & H).
  apply emit_ok in He3 as (-> & Hf10 & Ht10 & Hh10).
  injection H as <- <-.
  exists raw, y, a, b, w1. cbv zeta. rewrite Eb. cbn [head default from_option].
  unfold id. rewrite Eg. cbn [fst snd].
  split; [done|].
  split. { destruct (Hg1 cf) as [E|[_ E]]; congruence. }
  split; [done|]. split; [by apply Hd1|]. split; [done|].
  split; [done|]. split; [done|].
  split. { by rewrite <- app_assoc. }
  split. { rewrite Hf10, Hf9, Hf8, Hf5, Hf3. done. }
  split. { rewrite Ht10, Ht9, Ht8, Ht5, Ht3, Ht1.
           by rewrite (Permutation_length Hperm). }
  destruct Hs1 as (Hh1 & _), Hs3 as (Hh3 & _). congruence.
Qed.

Lemma split_conll_ok cf od ratio w files w' :
  split_conll cf od ratio w = (Ok files, w') ->
  split_conll_try cf od ratio w = (Ok files, w').
Proof.
  unfold split_conll, try_except, raise.
  destruct (split_conll_try cf od ratio w) as [[f|e] w1]; [done|discriminate].
Qed.

Lemma path_join_inj a b c : Os.path_join a b = Os.path_join a c -> b = c.
Proof.
  unfold Os.path_join. destruct (decide (a = "")); [done|].
  destruct (PyStr.startswith _ _).
  - apply (inj (String.app a)).
  - intros H. apply (inj (String.app a)) in H. by apply (inj (String.app "/")) in H.
Qed.

Lemma eqb_zero_not_gt r :
  PyFloat.eqb r PyFloat.zero = true -> PyFloat.gt r PyFloat.zero = false.
Proof.
  unfold PyFloat.eqb, PyFloat.gt, PyFloat.zero, SFeqb, SFltb, SFcompare.
  by destruct r as [[]|[]| |[] m e].
Qed.

Lemma add_docstart_nil ds : add_docstart ds [] = [].
Proof. by destruct ds. Qed.

Lemma emitted_names name d x : x ∈ (emitted name d).*1 -> x = name.
Proof.
  destruct d; simpl; [by intros ?%elem_of_nil|].
  by intros ->%list_elem_of_singleton.
Qed.

Lemma write_events_path od name d x :
  x ∈ write_events od name d -> x = EvWrite (Os.path_join od name).
Proof.
  destruct d; simpl; [by intros ?%elem_of_nil|].
  by intros ->%list_elem_of_singleton.
Qed.

Lemma split_data_zero ratio a b data g :
  PyFloat.gt (ratio_of g ratio) PyFloat.zero = false ->
  match g with
  | Train => (split_data ratio a b data).1.1
  | Val => (split_data ratio a b data).1.2
  | Test => (split_data ratio a b data).2
  end = [].
Proof.
  destruct ratio as [[r0 r1] r2], g; simpl; by intros ->.
Qed.

Lemma file_name_inj g g' : file_name g = file_name g' -> g = g'.
Proof. by destruct g, g'. Qed.

Lemma not_emitted_here g g' d :
  (g = g' -> d = []) -> file_name g ∉ (emitted (file_name g') d).*1.
Proof.
  intros Hd Hx. pose proof Hx as Hx'. apply emitted_names, file_name_inj in Hx'.
  rewrite (Hd Hx') in Hx. simpl in Hx. by apply elem_of_nil in Hx.
Qed.

Lemma not_written_here od g g' d :
  (g = g' -> d = []) ->
  EvWrite (Os.path_join od (file_name g)) ∉ write_events od (file_name g') d.
Proof.
  intros Hd Hx. pose proof Hx as Hx'. apply write_events_path in Hx'.
  injection Hx' as Hx'. apply path_join_inj, file_name_inj in Hx'.
  rewrite (Hd Hx') in Hx. simpl in Hx. by apply elem_of_nil in Hx.
Qed.

(** C6. When a component of the ratio is exactly 0, a run of the splitter
    that returns reports no file for that group and writes none,
    whatever the slice of the group would hold. *)
Theorem zero_ratio_group_not_emitted cf od ratio w files w' g :
  split_conll cf od ratio w = (Ok files, w') ->
  PyFloat.eqb (ratio_of g ratio) PyFloat.zero = true ->
  (file_name g ∉ files.*1) /\
  exists new, trace w' = new ++ trace w /\
              EvWrite (Os.path_join od (file_name g)) ∉ new.
Proof.
  intros H Hz. apply split_conll_ok in H.
  destruct ratio as [[r0 r1] r2].
  apply split_conll_try_ok in H
    as (raw & sh & a & b & w1 & _ & _ & _ & _ & _ & _ & _ & Hfiles & _ & Htr & _).
  apply eqb_zero_not_gt in Hz.
  pose proof (split_data_zero (r0, r1, r2) a (a + b) sh g Hz) as Hg.
  cbv zeta in Hfiles, Htr.
  set (ds := doc_start_of _) in *. set (sd := split_data _ _ _ _) in *.
  assert (forall g', g = g' ->
            add_docstart ds match g' with
                            | Train => sd.1.1 | Val => sd.1.2 | Test => sd.2
                            end = []) as Hnil.
  { intros g' <-. by rewrite Hg, add_docstart_nil. }
  split.
  - rewrite Hfiles, !fmap_app, !not_elem_of_app.
    split; [|split].
    + apply (not_emitted_here g Train), (Hnil Train).
    + apply (not_emitted_here g Val), (Hnil Val).
    + apply (not_emitted_here g Test), (Hnil Test).
  - exists (write_events od "test.conll" (add_docstart ds sd.2)
            ++ write_events od "val.conll" (add_docstart ds sd.1.2)
            ++ write_events od "train.conll" (add_docstart ds sd.1.1)
            ++ [EvShuffle (length sh); EvRead cf; EvMakedirs od]).
    split; [by rewrite Htr, <- !app_assoc|].
    rewrite !not_elem_of_app. split; [|split; [|split]].
    + apply (not_written_here od g Test), (Hnil Test).
    + apply (not_written_here od g Val), (Hnil Val).
    + apply (not_written_here od g Train), (Hnil Train).
    + rewrite !not_elem_of_cons. repeat split; try discriminate. apply not_elem_of_nil.
Qed.









(** C4 (amended). When the ratios sum to more than 1.0 the splitter
    raises, and all it has done is [os.makedirs(output_dir)]: nothing is
    read, shuffled or written, no number is drawn, the heap is as it was,
    and the file system differs by directories only. The exception carries
    the text of the ratio error, or of the failure of [makedirs]. *)
Theorem split_conll_ratio_sum_error cf od r0 r1 r2 w :
  PyFloat.gt (PyFloat.sum [r0; r1; r2]) PyFloat.one = true ->
  exists res w1,
    Os.makedirs od w = (res, w1) /\
    split_conll cf od (r0, r1, r2) w
    = (Raise (Exn Exception_
                ("Error during CoNLL splitting: "
                 +:+ match res with
                     | Ok _ => ratio_error
                     | Raise e => exn_str e
                     end)), w1) /\
    trace w1 = EvMakedirs od :: trace w /\
    rand_pos w1 = rand_pos w /\
    heap w1 = heap w /\
    grows (fs w) (fs w1).
Proof.
  intros Hsum. destruct (Os.makedirs od w) as [res w1] eqn:Hmk.
  exists res, w1. split; [done|].
  pose proof Hmk as Hspec. apply makedirs_spec in Hspec as (Ht & (Hh & _ & Hp & _) & Hg & _).
  split; [|done].
  unfold split_conll, try_except, split_conll_try, bind at 1. rewrite Hmk.
  destruct res as [[]|e]; [|done].
  unfold bind at 1. by rewrite Hsum.
Qed.



(** C6, witness: three blocks split 0.5 / 0.5 / 0.0; the slice of the
    test group is not empty, and no test file is written. *)
Lemma zero_ratio_group_not_emitted_witness :
  let w := Example.w_three in
  let ratio := (Example.r_050, Example.r_050, PyFloat.zero) in
  let out := split_conll "in.conll" "out" ratio w in
  PyList.slice (blocks_of (PyStr.universal_newlines Example.three_blocks))
    (Some 2) None <> [] /\
  (file_name Test ∉ [("train.conll", 1); ("val.conll", 1)].*1) /\
  exists new, trace out.2 = new ++ trace w /\
              EvWrite (Os.path_join "out" (file_name Test)) ∉ new.
Proof.
  split; [vm_compute; discriminate|].
  apply (zero_ratio_group_not_emitted "in.conll" "out"
           (Example.r_050, Example.r_050, PyFloat.zero) Example.w_three);
    vm_compute; reflexivity.
Defined.

(** C4, witness: the ratios 0.5 / 0.5 / 0.2. *)
Lemma split_conll_ratio_sum_error_witness :
  let w := Example.w_three in
  exists res w1,
    Os.makedirs "out" w = (res, w1) /\
    split_conll "in.conll" "out" (Example.r_050, Example.r_050, Example.r_020) w
    = (Raise (Exn Exception_
                ("Error during CoNLL splitting: "
                 +:+ match res with
                     | Ok _ => ratio_error
                     | Raise e => exn_str e
                     end)), w1) /\
    trace w1 = EvMakedirs "out" :: trace w /\
    rand_pos w1 = rand_pos w /\
    heap w1 = heap w /\
    grows (fs w) (fs w1).
Proof.
  apply (split_conll_ratio_sum_error "in.conll" "out"
           Example.r_050 Example.r_050 Example.r_020 Example.w_three).
  vm_compute; reflexivity.
Defined.

(** C4, counterexample: with the ratios 0.5 / 0.5 / 0.2 the splitter
    raises, and the output directory, which was not there, now is. *)
Lemma ratio_sum_error_creates_directory :
  let w := Example.w_three in
  let out := split_conll "in.conll" "out" (Example.r_050, Example.r_050, Example.r_020) w in
  PyFloat.gt (PyFloat.sum [Example.r_050; Example.r_050; Example.r_020]) PyFloat.one = true /\
  out.1 = Raise (Exn Exception_
                   "Error during CoNLL splitting: The sum of the split ratios exceeds 1.0") /\
  fs w !! "out" = None /\
  fs out.2 !! "out" = Some Dir /\
  trace out.2 = [EvMakedirs "out"].
Proof. vm_compute. repeat split; reflexivity. Qed.

(** ** Dictionaries *)
Section DictFacts.
Context {K V : Type} `{EqDecision K}.
Implicit Types (d : list (K * V)) (k : K) (v : V).

Lemma get_set_eq d k v : PyDict.get (PyDict.set d k v) k = Some v.
Proof.
  induction d as [|[k' v'] d IH]; simpl.
  - by rewrite decide_True.
  - destruct (decide (k' = k)) as [->|Hne]; simpl.
    + by rewrite decide_True.
    + by rewrite decide_False.
Qed.

Lemma get_set_ne d k k' v :
  k <> k' -> PyDict.get (PyDict.set d k v) k' = PyDict.get d k'.
Proof.
  intros Hne. induction d as [|[k0 v0] d IH]; simpl.
  - by rewrite decide_False.
  - destruct (decide (k0 = k)) as [->|Hne0]; simpl.
    + by rewrite !decide_False.
    + destruct (decide (k0 = k')); [done|]. apply IH.
Qed.

Lemma get_None d k : PyDict.get d k = None <-> k ∉ PyDict.keys d.
Proof.
  unfold PyDict.keys. induction d as [|[k' v'] d IH]; simpl.
  - split; [intros _; apply not_elem_of_nil|done].
  - rewrite not_elem_of_cons. destruct (decide (k' = k)) as [->|Hne].
    + split; [discriminate|]. by intros [? _].
    + rewrite IH. split; [by intros ?; split; [congruence|]|by intros [_ ?]].
Qed.

Lemma get_Some_elem d k v : PyDict.get d k = Some v -> (k, v) ∈ d.
Proof.
  induction d as [|[k' v'] d IH]; simpl; [discriminate|].
  destruct (decide (k' = k)) as [->|Hne].
  - intros [= ->]. apply list_elem_of_here.
  - intros H. apply list_elem_of_further. by apply IH.
Qed.

Lemma elem_get d k v :
  NoDup (PyDict.keys d) -> (k, v) ∈ d -> PyDict.get d k = Some v.
Proof.
  unfold PyDict.keys. induction d as [|[k' v'] d IH]; simpl.
  - by intros _ ?%elem_of_nil.
  - intros [Hk Hd]%NoDup_cons [[= <- <-]|Hin]%elem_of_cons.
    + by rewrite decide_True.
    + rewrite decide_False; [by apply IH|].
      intros ->. apply Hk. apply list_elem_of_fmap. by exists (k, v).
Qed.

Lemma set_fresh d k v : PyDict.get d k = None -> PyDict.set d k v = d ++ [(k, v)].
Proof.
  induction d as [|[k' v'] d IH]; simpl; [done|].
  destruct (decide (k' = k)); [discriminate|]. intros H. by rewrite IH.
Qed.

Lemma mem_true d k : PyDict.mem d k = true <-> is_Some (PyDict.get d k).
Proof. unfold PyDict.mem. apply bool_decide_eq_true. Qed.

Lemma mem_false d k : PyDict.mem d k = false <-> PyDict.get d k = None.
Proof.
  unfold PyDict.mem. rewrite bool_decide_eq_false, <- eq_None_not_Some. done.
Qed.

Lemma keys_set_fresh d k v :
  PyDict.get d k = None -> PyDict.keys (PyDict.set d k v) = PyDict.keys d ++ [k].
Proof. intros H. rewrite set_fresh by done. unfold PyDict.keys. by rewrite fmap_app. Qed.

Lemma keys_set_known d k v :
  PyDict.get d k <> None -> PyDict.keys (PyDict.set d k v) = PyDict.keys d.
Proof.
  unfold PyDict.keys. induction d as [|[k' v'] d IH]; [done|].
  cbn [PyDict.set PyDict.get].
  destruct (decide (k' = k)) as [->|Hne]; [done|].
  intros H. rewrite !fmap_cons. f_equal. by apply IH.
Qed.

Lemma set_NoDup d k v :
  NoDup (PyDict.keys d) -> NoDup (PyDict.keys (PyDict.set d k v)).
Proof.
  intros Hnd. destruct (PyDict.get d k) as [v0|] eqn:E.
  - rewrite keys_set_known; [done|congruence].
  - rewrite keys_set_fresh by done. apply NoDup_app. split; [done|].
    split; [|apply NoDup_singleton].
    intros x Hx ->%list_elem_of_singleton. by apply get_None in E.
Qed.
End DictFacts.

Lemma inverse_snoc m k t : inverse (m ++ [(k, t)]) = PyDict.set (inverse m) t k.
Proof. unfold inverse, PyDict.of_items. by rewrite fmap_app, foldl_app. Qed.

Lemma get_foldl_set (items : list (string * Z)) d t k :
  PyDict.get (foldl (fun d kv => PyDict.set d kv.1 kv.2) d items) t = Some k ->
  PyDict.get d t = Some k \/ (t, k) ∈ items.
Proof.
  revert d. induction items as [|[t' k'] items IH]; intros d; simpl; [auto|].
  intros H. apply IH in H as [H|H].
  - destruct (decide (t' = t)) as [->|Hne].
    + rewrite get_set_eq in H. injection H as ->. right. apply list_elem_of_here.
    + rewrite get_set_ne in H by done. by left.
  - right. by apply list_elem_of_further.
Qed.

Lemma get_inverse m t k : PyDict.get (inverse m) t = Some k -> (k, t) ∈ m.
Proof.
  unfold inverse, PyDict.of_items. intros H. apply get_foldl_set in H as [H|H]; [done|].
  apply list_elem_of_fmap in H as ([k' t'] & Heq & Hin).
  unfold prod_swap in Heq. simpl in Heq. by simplify_eq.
Qed.

Lemma foldl_max_ge k ks x :
  x <= k \/ (exists y, y ∈ ks /\ x <= y) -> x <= foldl Z.max k ks.
Proof.
  revert k. induction ks as [|k' ks IH]; intros k; simpl.
  - intros [?|(y & ?%elem_of_nil & _)]; [lia|done].
  - intros [?|(y & [->|Hin]%elem_of_cons & Hy)]; apply IH.
    + left. lia.
    + left. lia.
    + right. eauto.
Qed.

Lemma foldl_max_le k ks x : x = k \/ x ∈ ks -> x <= foldl Z.max k ks.
Proof.
  intros [->|Hin]; apply foldl_max_ge; [left; lia|right]. exists x. split; [done|lia].
Qed.

Lemma max_key_le m k : k ∈ PyDict.keys m -> k <= max_key m.
Proof.
  unfold max_key. destruct (PyDict.keys m) as [|k0 ks]; [by intros ?%elem_of_nil|].
  intros H%elem_of_cons. by apply foldl_max_le.
Qed.

Lemma foldl_max_app k ks x : foldl Z.max k (ks ++ [x]) = Z.max (foldl Z.max k ks) x.
Proof. by rewrite foldl_app. Qed.

Lemma max_key_snoc m k t :
  max_key m < k -> max_key (m ++ [(k, t)]) = k.
Proof.
  unfold max_key, PyDict.keys. rewrite fmap_app. simpl.
  destruct (m.*1) as [|k0 ks]; simpl; [done|].
  rewrite foldl_app. simpl. lia.
Qed.

(** ** The registry during the loop *)

Lemma init_ok m : registry_ok (init_locals m).
Proof. by split. Qed.

Lemma process_line_kind ign st line :
  process_line ign st line =
  match kind_of line with
  | Boundary => Ok (close_sentence st)
  | Token token ner_tag => add_token ign st token ner_tag
  | Skipped => Ok st
  end.
Proof.
  unfold process_line, kind_of.
  destruct (_ || _); [done|].
  by destruct (PyStr.split_ws _) as [|? [|? [|? [|? ?]]]].
Qed.

Lemma lookup_tag_fst ign st tag :
  (lookup_tag ign st tag).1 = resolve ign (tag_dict st) tag.
Proof.
  unfold lookup_tag, resolve. by destruct (PyDict.mem _ _), ign.
Qed.

Lemma lookup_tag_frame ign st tag :
  let st' := (lookup_tag ign st tag).2 in
  data st' = data st /\ current_sentence st' = current_sentence st /\
  sentence_id st' = sentence_id st /\ tag_counter st' = tag_counter st.
Proof. unfold lookup_tag. by destruct (PyDict.mem _ _), ign. Qed.

Lemma fresh_key st :
  registry_ok st -> PyDict.get (custom_mapping st) (max_tag_id st + 1) = None.
Proof.
  intros [Hmax _]. apply get_None. intros Hin%max_key_le. lia.
Qed.

(** A registration appends the tag under the next id, and leaves the
    registry well kept. *)
Lemma lookup_tag_new st tag :
  registry_ok st -> PyDict.mem (tag_dict st) tag = false ->
  let st' := (lookup_tag true st tag).2 in
  max_tag_id st' = max_key (custom_mapping st) + 1 /\
  custom_mapping st' = custom_mapping st ++ [(max_key (custom_mapping st) + 1, tag)] /\
  tag_dict st' = tag_dict st ++ [(tag, max_key (custom_mapping st) + 1)] /\
  new_entities_ st' = {[tag]} ∪ new_entities_ st.
Proof.
  intros Hok Hmem. pose proof (fresh_key st Hok) as Hfresh.
  destruct Hok as [Hmax Hinv].
  unfold lookup_tag. rewrite Hmem. simpl. rewrite <- Hmax.
  split; [done|]. split; [by apply set_fresh|]. split; [|done].
  apply set_fresh. by apply mem_false.
Qed.

Lemma lookup_tag_known ign st tag :
  PyDict.mem (tag_dict st) tag = true -> lookup_tag ign st tag = (tag, st).
Proof. unfold lookup_tag. by intros ->. Qed.

Lemma lookup_tag_strict st tag :
  (lookup_tag false st tag).2 = st.
Proof. unfold lookup_tag. by destruct (PyDict.mem _ _). Qed.

Lemma lookup_tag_ok ign st tag :
  registry_ok st -> registry_ok (lookup_tag ign st tag).2.
Proof.
  intros Hok. destruct (PyDict.mem (tag_dict st) tag) eqn:Hmem.
  - by rewrite lookup_tag_known.
  - destruct ign; [|by rewrite lookup_tag_strict].
    destruct (lookup_tag_new st tag Hok Hmem) as (Hm & Hc & Ht & _).
    destruct Hok as [Hmax Hinv]. split.
    + rewrite Hm, Hc. symmetry. apply max_key_snoc. lia.
    + rewrite Ht, Hc, inverse_snoc, <- Hinv. symmetry. apply set_fresh.
      by apply mem_false.
Qed.

(** Bindings are never changed by a lookup. *)
Lemma lookup_tag_mono ign st tag :
  registry_ok st ->
  let st' := (lookup_tag ign st tag).2 in
  (forall t k, PyDict.get (tag_dict st) t = Some k -> PyDict.get (tag_dict st') t = Some k) /\
  (forall k t, PyDict.get (custom_mapping st) k = Some t ->
               PyDict.get (custom_mapping st') k = Some t) /\
  (NoDup (PyDict.keys (custom_mapping st)) -> NoDup (PyDict.keys (custom_mapping st'))).
Proof.
  intros Hok. destruct (PyDict.mem (tag_dict st) tag) eqn:Hmem.
  - by rewrite lookup_tag_known.
  - destruct ign; [|by rewrite lookup_tag_strict].
    destruct (lookup_tag_new st tag Hok Hmem) as (Hm & Hc & Ht & _).
    pose proof (fresh_key st Hok) as Hfresh. destruct Hok as [Hmax Hinv].
    cbv zeta. rewrite Hc, Ht. split; [|split].
    + intros t k Hg. rewrite <- set_fresh by (by apply mem_false).
      rewrite get_set_ne; [done|]. intros <-. apply mem_false in Hmem. congruence.
    + intros k t Hg. rewrite <- Hmax. rewrite <- set_fresh by done.
      rewrite get_set_ne; [done|]. intros <-. congruence.
    + intros Hnd. unfold PyDict.keys. rewrite fmap_app. apply NoDup_app.
      split; [done|]. split; [|apply NoDup_singleton].
      intros k Hk ->%list_elem_of_singleton. simpl in *.
      rewrite <- Hmax in Hk. apply get_None in Hfresh. by apply Hfresh.
Qed.

(** The tag looked up is in the table afterwards, unless it is the
    fallback and the fallback is not registered. *)
Lemma lookup_tag_found st tag :
  let lt := lookup_tag true st tag in
  is_Some (PyDict.get (tag_dict lt.2) lt.1).
Proof.
  unfold lookup_tag. destruct (PyDict.mem _ _) eqn:Hmem; simpl.
  - by apply mem_true.
  - rewrite get_set_eq. by eexists.
Qed.

Lemma add_token_ok ign st token tag st' :
  add_token ign st token tag = Ok st' ->
  let lt := lookup_tag ign st tag in
  exists i,
    PyDict.get (tag_dict lt.2) lt.1 = Some i /\
    st' = Locals (data st)
            (Sentence (id_ (current_sentence st))
               (tokens (current_sentence st) ++ [token])
               (ner_tags (current_sentence st) ++ [i]))
            (sentence_id st) (count (tag_counter st) lt.1)
            (tag_dict lt.2) (max_tag_id lt.2) (custom_mapping lt.2)
            (new_entities_ lt.2).
Proof.
  unfold add_token. cbv zeta.
  destruct (lookup_tag_frame ign st tag) as (Hd & Hc & Hs & Hcnt).
  destruct (lookup_tag ign st tag) as [t st1] eqn:E. simpl in *.
  destruct (PyDict.get (tag_dict st1) t) as [i|]; [|discriminate].
  intros [= <-]. exists i. split; [done|]. by rewrite Hd, Hc, Hs, Hcnt.
Qed.

Lemma add_token_total st token tag :
  exists st', add_token true st token tag = Ok st'.
Proof.
  unfold add_token. pose proof (lookup_tag_found st tag) as [i Hi].
  destruct (lookup_tag true st tag) as [t st1]. simpl in Hi. rewrite Hi. by eexists.
Qed.

Lemma close_sentence_registry st : registry (close_sentence st) = registry st.
Proof. unfold close_sentence. by destruct (tokens _). Qed.

Lemma process_line_registry ign st line st' :
  process_line ign st line = Ok st' ->
  registry st' = match kind_of line with
                 | Token _ tag => registry (lookup_tag ign st tag).2
                 | _ => registry st
                 end.
Proof.
  rewrite process_line_kind. destruct (kind_of line) as [|token tag|].
  - intros [= <-]. apply close_sentence_registry.
  - intros (i & _ & ->)%add_token_ok. done.
  - by intros [= <-].
Qed.

Lemma registry_ok_ext st st' : registry st = registry st' -> registry_ok st -> registry_ok st'.
Proof. intros [= Ht Hm Hc _] [H1 H2]. split; congruence. Qed.

(** A property of the registry that every lookup keeps holds after the
    loop, however it ends. *)
Lemma process_lines_registry_ind (P : locals -> Prop) ign :
  (forall st st', registry st = registry st' -> P st -> P st') ->
  (forall st tag, P st -> P (lookup_tag ign st tag).2) ->
  forall lines st st' err,
    process_lines ign st lines = (st', err) -> P st -> P st'.
Proof.
  intros Hext Hstep lines. induction lines as [|line lines IH]; intros st st' err; simpl.
  - by intros [= <- _].
  - destruct (process_line ign st line) as [st1|e] eqn:E.
    + intros H HP. apply (IH _ _ _ H).
      apply process_line_registry in E.
      destruct (kind_of line) as [|token tag|].
      * by apply (Hext st).
      * apply (Hext (lookup_tag ign st tag).2); [done|]. by apply Hstep.
      * by apply (Hext st).
    + by intros [= <- _].
Qed.

Lemma process_lines_ok ign lines st st' err :
  process_lines ign st lines = (st', err) -> registry_ok st -> registry_ok st'.
Proof.
  apply (process_lines_registry_ind registry_ok).
  - apply registry_ok_ext.
  - intros. by apply lookup_tag_ok.
Qed.

(** The bindings of the registry survive the loop. *)
Lemma process_lines_mono ign lines st st' err :
  process_lines ign st lines = (st', err) -> registry_ok st ->
  (forall t k, PyDict.get (tag_dict st) t = Some k -> PyDict.get (tag_dict st') t = Some k) /\
  (forall k t, PyDict.get (custom_mapping st) k = Some t ->
               PyDict.get (custom_mapping st') k = Some t) /\
  (NoDup (PyDict.keys (custom_mapping st)) -> NoDup (PyDict.keys (custom_mapping st'))).
Proof.
  intros H Hok.
  pose (P := fun s : locals =>
    registry_ok s /\
    (forall t k, PyDict.get (tag_dict st) t = Some k -> PyDict.get (tag_dict s) t = Some k) /\
    (forall k t, PyDict.get (custom_mapping st) k = Some t ->
                 PyDict.get (custom_mapping s) k = Some t) /\
    (NoDup (PyDict.keys (custom_mapping st)) -> NoDup (PyDict.keys (custom_mapping s)))).
  assert (P st') as (_ & ?); [|done].
  apply (process_lines_registry_ind P ign) with (lines := lines) (st := st) (err := err);
    [..|done|by unfold P].
  - intros s s' Hr (Hs & H1 & H2 & H3). pose proof Hr as [= Ht Hm Hc _].
    split; [by apply (registry_ok_ext s)|]. rewrite <- Ht, <- Hc. done.
  - intros s tag (Hs & H1 & H2 & H3).
    destruct (lookup_tag_mono ign s tag Hs) as (M1 & M2 & M3).
    split; [by apply lookup_tag_ok|]. split; [|split]; auto.
Qed.

Lemma resolve_stable ign st tag t :
  resolve ign (tag_dict (lookup_tag ign st tag).2) t = resolve ign (tag_dict st) t.
Proof. destruct ign; [done|]. by rewrite lookup_tag_strict. Qed.

Lemma process_line_resolve ign st line st' t :
  process_line ign st line = Ok st' ->
  resolve ign (tag_dict st') t = resolve ign (tag_dict st) t.
Proof.
  intros H%process_line_registry. destruct (kind_of line) as [|token tag|].
  - by injection H as ->.
  - injection H as -> _ _ _. apply resolve_stable.
  - by injection H as ->.
Qed.

(** With dynamic registration the loop never raises. *)
Lemma process_lines_total lines st :
  exists st', process_lines true st lines = (st', None).
Proof.
  revert st. induction lines as [|line lines IH]; intros st; simpl; [by eexists|].
  rewrite process_line_kind. destruct (kind_of line) as [|token tag|]; try apply IH.
  destruct (add_token_total st token tag) as [st1 ->]. apply IH.
Qed.

(** ** What the loop records *)

Lemma counted_count c x t :
  counted (count c x) t = counted c t + (if decide (x = t) then 1 else 0).
Proof.
  unfold counted, count. destruct (decide (x = t)) as [->|Hne].
  - by rewrite get_set_eq.
  - rewrite get_set_ne by done. lia.
Qed.

Lemma occurrences_cons x l t :
  occurrences t (x :: l) = (if decide (x = t) then 1 else 0) + occurrences t l.
Proof.
  unfold occurrences. rewrite filter_cons. destruct (decide (x = t)); simpl; lia.
Qed.

Lemma close_sentence_counter st : tag_counter (close_sentence st) = tag_counter st.
Proof. unfold close_sentence. by destruct (tokens _). Qed.

Lemma close_sentence_tag_dict st : tag_dict (close_sentence st) = tag_dict st.
Proof. unfold close_sentence. by destruct (tokens _). Qed.

Lemma tags_of_cons line lines :
  tags_of (line :: lines) =
  match kind_of line with
  | Token _ tag => tag :: tags_of lines
  | _ => tags_of lines
  end.
Proof. unfold tags_of. simpl. by destruct (kind_of line). Qed.

(** Every token is counted once, under the tag recorded for it. *)
Lemma process_lines_counts ign lines st st' t :
  process_lines ign st lines = (st', None) ->
  counted (tag_counter st') t
  = counted (tag_counter st) t
    + occurrences t (resolve ign (tag_dict st) <$> tags_of lines).
Proof.
  revert st. induction lines as [|line lines IH]; intros st; cbn [process_lines].
  - intros [= <-]. unfold occurrences. simpl. lia.
  - destruct (process_line ign st line) as [st1|e] eqn:E; [|discriminate].
    intros H. rewrite (IH _ H).
    rewrite (list_fmap_ext (resolve ign (tag_dict st1)) (resolve ign (tag_dict st)) (tags_of lines))
      by (intros; by apply (process_line_resolve ign st line)).
    rewrite tags_of_cons. rewrite process_line_kind in E.
    destruct (kind_of line) as [|token tag|].
    + injection E as <-. by rewrite close_sentence_counter.
    + apply add_token_ok in E as (i & _ & ->). cbn [tag_counter].
      rewrite counted_count, fmap_cons, occurrences_cons, lookup_tag_fst. lia.
    + by injection E as <-.
Qed.

Lemma encodes_mono rho (td td' : list (string * Z)) r s :
  (forall t k, PyDict.get td t = Some k -> PyDict.get td' t = Some k) ->
  encodes rho td r s -> encodes rho td' r s.
Proof.
  intros Hm [Ht Hi]. split; [done|]. eapply Forall2_impl; [exact Hi|]. simpl. auto.
Qed.

Lemma process_line_ok ign st line st' :
  process_line ign st line = Ok st' -> registry_ok st -> registry_ok st'.
Proof.
  intros H. apply (process_lines_ok ign [line] st st' None). simpl. by rewrite H.
Qed.

Lemma process_line_mono ign st line st' t k :
  process_line ign st line = Ok st' -> registry_ok st ->
  PyDict.get (tag_dict st) t = Some k -> PyDict.get (tag_dict st') t = Some k.
Proof.
  intros H Hok. apply (process_lines_mono ign [line] st st' None); [|done].
  simpl. by rewrite H.
Qed.

(** The records are the sentences of the segmenter, encoded with the
    final tag table. *)
Lemma process_lines_records ign rho lines st st' cur :
  registry_ok st ->
  (forall t, rho t = resolve ign (tag_dict st) t) ->
  encodes rho (tag_dict st) (current_sentence st) cur ->
  process_lines ign st lines = (st', None) ->
  exists recs, last_sentence st' = data st ++ recs /\
               Forall2 (encodes rho (tag_dict st')) recs (segment_from cur lines).
Proof.
  revert st cur. induction lines as [|line lines IH]; intros st cur Hok Hrho Henc; simpl.
  - intros [= <-]. unfold last_sentence. destruct Henc as [Ht Hi].
    destruct cur as [|p cur]; simpl in Ht; rewrite Ht.
    + exists []. by rewrite app_nil_r.
    + exists [current_sentence st]. split; [done|].
      constructor; [|constructor]. split; [by rewrite Ht|done].
  - destruct (process_line ign st line) as [st1|e] eqn:E; [|discriminate].
    intros H.
    pose proof (process_line_ok _ _ _ _ E Hok) as Hok1.
    assert (forall t, rho t = resolve ign (tag_dict st1) t) as Hrho1.
    { intros t. rewrite Hrho. symmetry. by apply (process_line_resolve ign st line). }
    destruct (process_lines_mono _ _ _ _ _ H Hok1) as (Hmono & _ & _).
    rewrite process_line_kind in E. destruct (kind_of line) as [|token tag|].
    + injection E as <-. unfold close_sentence in *.
      destruct Henc as [Ht Hi].
      destruct cur as [|p cur]; simpl in Ht; rewrite Ht in *.
      * by apply (IH st []).
      * destruct (IH _ [] Hok1 Hrho1 ltac:(by split; [|constructor]) H)
          as (recs & Hl & Hf). simpl in Hl.
        exists (current_sentence st :: recs). split; [by rewrite Hl, <- app_assoc|].
        constructor; [|done]. apply (encodes_mono _ (tag_dict st)); [done|].
        split; [by rewrite Ht|done].
    + pose proof E as E'. apply add_token_ok in E' as (i & Hi & ->). simpl in *.
      rewrite lookup_tag_fst, <- Hrho in Hi.
      apply (IH _ (cur ++ [(token, tag)]) Hok1 Hrho1); [|done]. simpl.
      destruct Henc as [Ht Hids]. split; simpl.
      * by rewrite Ht, fmap_app.
      * rewrite fmap_app. apply Forall2_app; [|by repeat constructor].
        eapply Forall2_impl; [exact Hids|]. simpl. intros j t Hj.
        destruct (lookup_tag_mono ign st tag Hok) as (M & _ & _). by apply M.
    + injection E as <-. by apply (IH st cur).
Qed.

(** ** Numbering from an empty registry *)

Lemma numbered_snoc l x : numbered (l ++ [x]) = numbered l ++ [(Z.of_nat (length l), x)].
Proof. unfold numbered. rewrite imap_app. simpl. by rewrite Nat.add_0_r. Qed.

Lemma numbers_snoc l x : numbers (l ++ [x]) = numbers l ++ [(x, Z.of_nat (length l))].
Proof. unfold numbers. rewrite imap_app. simpl. by rewrite Nat.add_0_r. Qed.

Lemma max_key_numbered l : max_key (numbered l) = Z.of_nat (length l) - 1.
Proof.
  induction l as [|x l IH] using rev_ind; [done|].
  rewrite numbered_snoc, length_app. simpl.
  rewrite max_key_snoc; lia.
Qed.

Lemma keys_numbers l : PyDict.keys (numbers l) = l.
Proof.
  unfold PyDict.keys. induction l as [|x l IH] using rev_ind; [done|].
  by rewrite numbers_snoc, fmap_app, IH.
Qed.

Lemma mem_numbers l t : PyDict.mem (numbers l) t = bool_decide (t ∈ l).
Proof.
  destruct (PyDict.mem (numbers l) t) eqn:E; symmetry.
  - apply bool_decide_eq_true. apply mem_true in E.
    destruct (decide (t ∈ l)) as [|Hn]; [done|].
    rewrite <- (keys_numbers l) in Hn. apply get_None in Hn. rewrite Hn in E.
    by destruct E.
  - apply bool_decide_eq_false. apply mem_false, get_None in E.
    by rewrite keys_numbers in E.
Qed.

Lemma process_lines_numbered lines st st' seen :
  registry_ok st ->
  custom_mapping st = numbered seen -> tag_dict st = numbers seen ->
  new_entities_ st = list_to_set seen ->
  process_lines true st lines = (st', None) ->
  let seen' :=
    foldl (fun acc x => if bool_decide (x ∈ acc) then acc else acc ++ [x])
          seen (tags_of lines) in
  custom_mapping st' = numbered seen' /\ tag_dict st' = numbers seen' /\
  new_entities_ st' = list_to_set seen'.
Proof.
  revert st seen. induction lines as [|line lines IH]; intros st seen Hok Hc Ht Hn;
    cbn [process_lines].
  - by intros [= <-].
  - destruct (process_line true st line) as [st1|e] eqn:E; [|discriminate].
    intros H. rewrite tags_of_cons.
    pose proof (process_line_ok _ _ _ _ E Hok) as Hok1.
    apply process_line_registry in E.
    destruct (kind_of line) as [|token tag|].
    + injection E as E1 E2 E3 E4. apply (IH st1 seen); congruence.
    + cbn [foldl]. rewrite <- mem_numbers, <- Ht.
      destruct (PyDict.mem (tag_dict st) tag) eqn:Hmem.
      * rewrite lookup_tag_known in E by done.
        injection E as E1 E2 E3 E4. apply (IH st1 seen); congruence.
      * destruct (lookup_tag_new st tag Hok Hmem) as (Hm' & Hc' & Ht' & Hn').
        injection E as E1 E2 E3 E4. apply (IH st1 (seen ++ [tag])); [done|..|done].
        -- rewrite E3, Hc', Hc, numbered_snoc, max_key_numbered. do 3 f_equal. lia.
        -- rewrite E1, Ht', Hc, Ht, numbers_snoc, max_key_numbered. do 3 f_equal. lia.
        -- rewrite E4, Hn', Hn, list_to_set_app_L. simpl.
           rewrite union_empty_r_L. apply (comm_L (∪)).
    + injection E as E1 E2 E3 E4. apply (IH st1 seen); congruence.
Qed.

(** ** [conll_to_json] as a whole *)

(** The part of [conll_to_json] after the dictionary is chosen. *)
Lemma convert_with_ref jl inp out cmf r ign w res w' m :
  conll_to_json jl inp out cmf (Some r) ign w = (res, w') ->
  heap w !! r = Some m ->
  (exists raw st err,
     fs w !! inp = Some (File raw) /\
     run ign m (PyStr.universal_newlines raw) = (st, err) /\
     heap w' = <[r := custom_mapping st]> (heap w) /\
     match err with
     | Some e => res = Raise e /\ fs w' = fs w
     | None =>
         (res = Ok (summary_of st) /\
          fs w' = <[cmf := File (class_mapping_text (custom_mapping st))]>
                    (<[out := File (json_lines (last_sentence st))]> (fs w)))
         \/ (exists e, res = Raise e)
     end)
  \/ (heap w' = heap w /\ fs w' = fs w /\ exists e, res = Raise e).
Proof.
  intros H Hr. unfold conll_to_json in H.
  unfold bind at 1 in H. unfold ret at 1 in H.
  unfold bind at 1 in H. unfold deref, bind at 1, get_world in H. rewrite Hr in H.
  unfold ret at 1 in H.
  unfold bind at 1 in H.
  destruct (Os.read_text inp w) as [[text|e] w1] eqn:Hrd.
  2:{ injection H as <- <-. right.
      apply read_text_spec in Hrd as (_ & Hf & (Hh & _) & _). eauto. }
  apply read_text_spec in Hrd as (Ht1 & Hf1 & (Hh1 & _) & Hraw).
  destruct (Hraw text eq_refl) as (raw & Hin & ->).
  left. exists raw. unfold run.
  destruct (process_lines ign (init_locals m) _) as [st err] eqn:Erun.
  exists st, err. split; [done|]. split; [done|].
  unfold bind at 1 in H. unfold store, bind at 1, get_world, set_heap in H.
  simpl in H. rewrite Hh1 in H.
  destruct err as [e|].
  - injection H as <- <-. simpl. by rewrite Hf1.
  - unfold bind at 1 in H.
    match type of H with context [Os.write_file out ?c ?w2] =>
      destruct (Os.write_file out c w2) as [[[]|e] w3] eqn:Hw1 end.
    2:{ injection H as <- <-. apply write_file_spec in Hw1 as (_ & (Hh3 & _) & _ & _).
        simpl in Hh3. split; [done|]. right. eauto. }
    apply write_file_spec in Hw1 as (_ & (Hh3 & _) & Hf3 & _). simpl in *.
    unfold bind at 1 in H.
    match type of H with context [Os.write_file cmf ?c ?w2] =>
      destruct (Os.write_file cmf c w2) as [[[]|e] w4] eqn:Hw2 end.
    2:{ injection H as <- <-. apply write_file_spec in Hw2 as (_ & (Hh4 & _) & _ & _).
        split; [congruence|]. right. eauto. }
    apply write_file_spec in Hw2 as (_ & (Hh4 & _) & Hf4 & _).
    injection H as <- <-. split; [congruence|]. left. split; [done|].
    rewrite Hf4, Hf3, Hf1 by done. done.
Qed.

Lemma filterM_pure {A} (f : A -> M bool) (l : list A) w res w' :
  (forall x w0 r w1, f x w0 = (r, w1) -> w1 = w0) ->
  filterM f l w = (res, w') -> w' = w.
Proof.
  intros Hf. revert res w'. induction l as [|x l IH]; intros res w'; simpl.
  - by intros [= _ <-].
  - unfold bind at 1. destruct (f x w) as [[b|e] w1] eqn:E1.
    + apply Hf in E1 as ->. unfold bind at 1.
      destruct (filterM f l w) as [[ys|e] w2] eqn:E2.
      * specialize (IH _ _ eq_refl) as ->. by intros [= _ <-].
      * specialize (IH _ _ eq_refl) as ->. by intros [= _ <-].
    + apply Hf in E1 as ->. by intros [= _ <-].
Qed.

Lemma listdir_pure d w res w' : Os.listdir d w = (res, w') -> w' = w.
Proof.
  unfold Os.listdir, bind, get_world, ret, raise.
  destruct (fs w !! d) as [[|c]|]; by intros [= _ <-].
Qed.

(** Looking for the model configuration changes nothing. *)
Lemma find_latest_pure d w res w' :
  find_latest_model_config d w = (res, w') -> w' = w.
Proof.
  unfold find_latest_model_config. unfold bind at 1, Os.exists_ at 1, bind at 1, get_world, ret at 1.
  destruct (negb _); [by intros [= _ <-]|].
  unfold bind at 1. destruct (Os.listdir d w) as [[names|e] w1] eqn:E1;
    apply listdir_pure in E1 as ->; [|by intros [= _ <-]].
  unfold bind at 1.
  destruct (filterM _ names w) as [[folders|e] w2] eqn:E2.
  - apply filterM_pure in E2 as ->.
    2:{ intros x w0 r w1. unfold Os.isdir, bind, get_world, ret. by intros [= _ <-]. }
    destruct (max_str folders); [|by intros [= _ <-]].
    unfold bind, Os.exists_, bind, get_world, ret. by intros [= _ <-].
  - apply filterM_pure in E2 as ->; [by intros [= _ <-]|].
    intros x w0 r w1. unfold Os.isdir, bind, get_world, ret. by intros [= _ <-].
Qed.

Lemma int_keys_NoDup items acc m :
  NoDup (PyDict.keys acc) -> int_keys items acc = Ok m -> NoDup (PyDict.keys m).
Proof.
  revert acc. induction items as [|[k v] items IH]; intros acc Hnd; simpl.
  - by intros [= <-].
  - destruct (PyStr.int_of_str k); [|discriminate]. apply IH. by apply set_NoDup.
Qed.

Lemma load_custom_map_NoDup jl p w m w' :
  load_custom_map_from_json jl p w = (Ok m, w') -> NoDup (PyDict.keys m).
Proof.
  unfold load_custom_map_from_json, bind at 1.
  destruct (Os.read_text p w) as [[text|e] w1]; [|discriminate].
  destruct (jl text) as [| |id2label]; try discriminate.
  unfold lift. intros [= H _]. revert H. apply int_keys_NoDup. constructor.
Qed.

Lemma load_custom_map_spec jl p w res w' :
  load_custom_map_from_json jl p w = (res, w') ->
  heap w' = heap w /\ fs w' = fs w /\ trace w' = EvRead p :: trace w.
Proof.
  unfold load_custom_map_from_json, bind at 1.
  destruct (Os.read_text p w) as [[text|e] w1] eqn:E.
  - apply read_text_spec in E as (Ht & Hf & (Hh & _) & _).
    destruct (jl text) as [| |id2label].
    + by intros [= _ <-].
    + by intros [= _ <-].
    + by intros [= _ <-].
  - apply read_text_spec in E as (Ht & Hf & (Hh & _) & _). by intros [= _ <-].
Qed.

(** Without a dictionary from the caller, the conversion runs on a new
    object of the heap, filled from the model configuration or empty. *)
Lemma convert_without_ref jl inp out cmf ign w res w' :
  conll_to_json jl inp out cmf None ign w = (res, w') ->
  (exists found m0 w1,
     find_latest_model_config "./models" w = (Ok found, w) /\
     (if truthy found.2
      then load_custom_map_from_json jl (default "" found.2) w = (Ok m0, w1)
      else m0 = [] /\ w1 = w) /\
     let r := fresh (dom (heap w)) in
     conll_to_json jl inp out cmf (Some r) ign (with_heap w1 (<[r := m0]> (heap w)))
     = (res, w'))
  \/ (heap w' = heap w /\ fs w' = fs w /\ exists e, res = Raise e).
Proof.
  unfold conll_to_json. unfold bind at 1. unfold bind at 1.
  destruct (find_latest_model_config "./models" w) as [[found|e] w0] eqn:Ef;
    pose proof (find_latest_pure _ _ _ _ Ef) as ->.
  2:{ intros [= <- <-]. right. eauto. }
  destruct (truthy found.2) eqn:Etr.
  - unfold bind at 1.
    destruct (load_custom_map_from_json jl _ w) as [[m0|e] w1] eqn:El.
    + intros H. left. exists found, m0, w1. split; [done|]. rewrite Etr. split; [done|].
      apply load_custom_map_spec in El as (Hh & _ & _).
      cbv zeta. unfold bind at 1, ret at 1.
      unfold alloc, bind at 1, get_world, bind at 1, set_heap, ret at 1 in H.
      rewrite Hh in H. exact H.
    + intros [= <- <-]. right.
      apply load_custom_map_spec in El as (Hh & Hf & _). eauto.
  - intros H. left. exists found, [], w. split; [done|]. rewrite Etr. split; [done|].
    cbv zeta. unfold bind at 1, ret at 1.
    unfold alloc, bind at 1, get_world, bind at 1, set_heap, ret at 1 in H.
    exact H.
Qed.

Lemma convert_deref jl inp out cmf r ign w s w' :
  conll_to_json jl inp out cmf (Some r) ign w = (Ok s, w') ->
  exists m, heap w !! r = Some m.
Proof.
  unfold conll_to_json. unfold bind at 1, ret at 1. unfold bind at 1, deref, bind at 1, get_world.
  destruct (heap w !! r) as [m|]; [eauto|]. unfold raise. discriminate.
Qed.

Lemma conversion_with_ref_ok jl inp out cmf r ign w s w' m :
  heap w !! r = Some m ->
  conll_to_json jl inp out cmf (Some r) ign w = (Ok s, w') ->
  exists raw st,
    fs w !! inp = Some (File raw) /\
    run ign m (PyStr.universal_newlines raw) = (st, None) /\
    s = summary_of st /\
    heap w' = <[r := custom_mapping st]> (heap w) /\
    fs w' = <[cmf := File (class_mapping_text (custom_mapping st))]>
              (<[out := File (json_lines (last_sentence st))]> (fs w)).
Proof.
  intros Hr H. destruct (convert_with_ref _ _ _ _ _ _ _ _ _ _ H Hr)
    as [(raw & st & err & Hin & Hrun & Hheap & Hres)|(_ & _ & e & ?)]; [|discriminate].
  exists raw, st. destruct err as [e|].
  - destruct Hres. discriminate.
  - destruct Hres as [[[= <-] Hfs]|[e ?]]; [|discriminate]. done.
Qed.

(** A conversion that returns: where it started, what it read, and what
    it left. *)
Lemma conversion_ok jl inp out cmf arg ign w s w' :
  conll_to_json jl inp out cmf arg ign w = (Ok s, w') ->
  exists raw m0 st,
    initial_mapping jl arg w m0 /\
    (arg = None -> NoDup (PyDict.keys m0)) /\
    fs w !! inp = Some (File raw) /\
    run ign m0 (PyStr.universal_newlines raw) = (st, None) /\
    s = summary_of st /\
    heap w' = <[ref_of arg w := custom_mapping st]> (heap w) /\
    fs w' = <[cmf := File (class_mapping_text (custom_mapping st))]>
              (<[out := File (json_lines (last_sentence st))]> (fs w)).
Proof.
  intros H. destruct arg as [r|].
  - destruct (convert_deref _ _ _ _ _ _ _ _ _ H) as [m Hr].
    destruct (conversion_with_ref_ok _ _ _ _ _ _ _ _ _ _ Hr H) as (raw & st & ?).
    exists raw, m, st. split; [done|]. split; [done|]. done.
  - apply convert_without_ref in H
      as [(found & m0 & w1 & Hfind & Hload & H)|(_ & _ & e & ?)]; [|discriminate].
    cbv zeta in H.
    assert (fs w1 = fs w /\ NoDup (PyDict.keys m0) /\ initial_mapping jl None w m0)
      as (Hfs1 & Hnd & Hinit).
    { unfold initial_mapping. destruct (truthy found.2) eqn:Etr.
      - pose proof Hload as Hl. apply load_custom_map_spec in Hl as (_ & Hf & _).
        split; [done|]. split.
        + by apply load_custom_map_NoDup in Hload.
        + exists found. rewrite Etr. eauto.
      - destruct Hload as [-> ->]. split; [done|]. split; [constructor|].
        exists found. by rewrite Etr. }
    eapply conversion_with_ref_ok in H as (raw & st & Hin & Hrun & Hs & Hheap & Hfs).
    2:{ simpl. apply lookup_insert_eq. }
    simpl in *. exists raw, m0, st. rewrite Hfs1 in *.
    split; [done|]. split; [done|]. split; [done|]. split; [done|]. split; [done|].
    split; [|done]. by rewrite Hheap, insert_insert_eq.
Qed.

Lemma initial_mapping_NoDup jl arg w m0 :
  heap_wf w -> initial_mapping jl arg w m0 ->
  (arg = None -> NoDup (PyDict.keys m0)) -> NoDup (PyDict.keys m0).
Proof.
  intros Hwf Hinit Hnone. destruct arg as [r|]; [|by apply Hnone].
  by apply (Hwf r).
Qed.

(** With distinct keys, the table of ids reads back what the tag table
    says. *)
Lemma decode_encoded rho st (r : sentence) (s : list (string * string)) :
  registry_ok st -> NoDup (PyDict.keys (custom_mapping st)) ->
  encodes rho (tag_dict st) r s ->
  tokens r = s.*1 /\
  PyDict.get (custom_mapping st) <$> ner_tags r = (fun t => Some (rho t)) <$> s.*2.
Proof.
  intros [_ Hinv] Hnd [Ht Hi]. split; [done|].
  induction Hi as [|i t ids ts Hit _ IH]; [done|].
  rewrite !fmap_cons, IH. f_equal.
  apply elem_get; [done|]. apply get_inverse. by rewrite <- Hinv.
Qed.

(** After a conversion that returns, the ids of every record read
    through the table the conversion leaves (the dictionary on the heap,
    which is also what the class mapping file shows) give the tag of each
    token when that tag was registered before or got registered, and
    ["O"] when it was replaced by the fallback. *)
Lemma conversion_round_trip jl inp out cmf arg ign w s w' :
  heap_wf w -> out <> cmf ->
  conll_to_json jl inp out cmf arg ign w = (Ok s, w') ->
  exists raw m0 records table,
    initial_mapping jl arg w m0 /\
    fs w !! inp = Some (File raw) /\
    fs w' !! out = Some (File (json_lines records)) /\
    heap w' !! ref_of arg w = Some table /\
    fs w' !! cmf = Some (File (class_mapping_text table)) /\
    reads_back table (resolve ign (inverse m0)) records raw.
Proof.
  intros Hwf Hne H.
  apply conversion_ok in H
    as (raw & m0 & st & Hinit & Hnone & Hin & Hrun & -> & Hheap & Hfs).
  pose proof (initial_mapping_NoDup _ _ _ _ Hwf Hinit Hnone) as Hnd0.
  unfold run in Hrun.
  pose proof (process_lines_ok _ _ _ _ _ Hrun (init_ok m0)) as Hok.
  destruct (process_lines_mono _ _ _ _ _ Hrun (init_ok m0)) as (_ & _ & Hnd).
  specialize (Hnd Hnd0).
  destruct (process_lines_records ign (resolve ign (inverse m0)) _ _ _ []
              (init_ok m0) ltac:(done) ltac:(by split; [|constructor]) Hrun)
    as (recs & Hlast & Hrecs).
  simpl in Hlast.
  exists raw, m0, (last_sentence st), (custom_mapping st).
  split; [done|]. split; [done|].
  split. { rewrite Hfs, lookup_insert_ne by done. apply lookup_insert_eq. }
  split. { rewrite Hheap. apply lookup_insert_eq. }
  split. { rewrite Hfs. apply lookup_insert_eq. }
  rewrite Hlast. unfold reads_back, segment.
  eapply Forall2_impl; [exact Hrecs|]. intros rec sent Henc.
  by apply decode_encoded.
Qed.

(** C3 (amended). The counter of the summary counts every token under
    the tag recorded for it: its own tag when that tag is registered or
    gets registered, and ["O"] when the fallback replaces it. *)
Theorem tag_counts_by_recorded_tag jl inp out cmf arg ign w s w' :
  conll_to_json jl inp out cmf arg ign w = (Ok s, w') ->
  exists raw m0,
    initial_mapping jl arg w m0 /\
    fs w !! inp = Some (File raw) /\
    forall t,
      counted (tag_counts s) t
      = occurrences t (resolve ign (inverse m0)
                         <$> tags_of (PyStr.lines (PyStr.universal_newlines raw))).
Proof.
  intros H. apply conversion_ok in H
    as (raw & m0 & st & Hinit & _ & Hin & Hrun & -> & _ & _).
  exists raw, m0. split; [done|]. split; [done|]. intros t.
  unfold run in Hrun. unfold summary_of. cbn [tag_counts].
  by rewrite (process_lines_counts _ _ _ _ t Hrun).
Qed.

(** C3, witness: the strict conversion with the table [{0: 'O'}]. *)
Lemma tag_counts_by_recorded_tag_witness :
  let w := Example.w_only_O in
  exists raw m0,
    initial_mapping Example.json_load_config (Some 0%nat) w m0 /\
    fs w !! "in.conll" = Some (File raw) /\
    forall t,
      counted (tag_counts (Summary 1 1 [("O", 1)] ∅)) t
      = occurrences t (resolve false (inverse m0)
                         <$> tags_of (PyStr.lines (PyStr.universal_newlines raw))).
Proof.
  apply (tag_counts_by_recorded_tag Example.json_load_config "in.conll" "out.json"
           "class_mapping.py" (Some 0%nat) false Example.w_only_O
           (Summary 1 1 [("O", 1)] ∅)
           (conll_to_json Example.json_load_config "in.conll" "out.json"
              "class_mapping.py" (Some 0%nat) false Example.w_only_O).2).
  vm_compute. reflexivity.
Defined.

(** C3, counterexample: with the table [{0: 'O'}] and no dynamic
    registration, the token tagged B-PER is counted under ["O"], and
    nothing is counted under B-PER. *)
Lemma fallback_counted_under_O :
  let w := Example.w_only_O in
  let out := conll_to_json Example.json_load_config "in.conll" "out.json"
               "class_mapping.py" (Some 0%nat) false w in
  heap w !! 0%nat = Some [(0, "O")] /\
  tags_of (PyStr.lines (PyStr.universal_newlines Example.one_token)) = ["B-PER"] /\
  out.1 = Ok (Summary 1 1 [("O", 1)] ∅) /\
  counted [("O", 1)] "B-PER" = 0 /\
  counted [("O", 1)] "O" = 1.
Proof. vm_compute. repeat split; reflexivity. Qed.

(** C2 (amended). The sentences of the scenario written with four fields
    a line, the tag in the fourth, convert to two records with the ids
    [0,1,0] and [1], B-PER is 0 and O is 1, and both tags are new; the
    input of the scenario as it stands, two fields a line, has no
    sentence. *)
Theorem four_column_scenario jl :
  let w := Example.w_four_columns in
  let out := conll_to_json jl "in.conll" "out.json" "class_mapping.py" None true w in
  out.1 = Ok (Summary 2 2 [("B-PER", 2); ("O", 2)] ({["B-PER"]} ∪ {["O"]})) /\
  fs out.2 !! "out.json"
  = Some (File (json_lines [Sentence "0" ["Alice"; "loves"; "Bob"] [0; 1; 0];
                            Sentence "1" ["No"] [1]])) /\
  heap out.2 !! ref_of None w = Some [(0, "B-PER"); (1, "O")] /\
  segment (PyStr.lines (PyStr.universal_newlines Example.four_columns))
  = [[("Alice", "B-PER"); ("loves", "O"); ("Bob", "B-PER")]; [("No", "O")]] /\
  segment (PyStr.lines (PyStr.universal_newlines Example.two_columns)) = [].
Proof. vm_compute. repeat split; reflexivity. Qed.

(** C2, counterexample: the input of the scenario converts to no record
    and registers no tag, since each of its lines has two fields. *)
Lemma two_column_scenario_is_empty :
  let w := Example.w_two_columns in
  let out := conll_to_json Example.json_load_config "in.conll" "out.json"
               "class_mapping.py" None true w in
  out.1 = Ok (Summary 0 0 [] ∅) /\
  fs out.2 !! "out.json" = Some (File (json_lines [])) /\
  heap out.2 !! ref_of None w = Some [] /\
  PyStr.split_ws "Alice B-PER" = ["Alice"; "B-PER"].
Proof. vm_compute. repeat split; reflexivity. Qed.

Lemma max_key_nil_next (m : list (Z * string)) : m = [] -> max_key m + 1 = 0.
Proof. by intros ->. Qed.

(** C7. With dynamic registration, a tag that is not registered gets the
    id after the greatest one of the registry (0 when the registry is
    empty), and from an empty registry the tags are numbered from 0 in
    the order they are first seen. *)
Theorem new_tags_numbered_in_order m lines1 st token tag text :
  process_lines true (init_locals m) lines1 = (st, None) ->
  PyDict.mem (tag_dict st) tag = false ->
  (exists st',
     let next := max_key (custom_mapping st) + 1 in
     add_token true st token tag = Ok st' /\
     ner_tags (current_sentence st') = ner_tags (current_sentence st) ++ [next] /\
     PyDict.get (tag_dict st') tag = Some next /\
     custom_mapping st' = custom_mapping st ++ [(next, tag)] /\
     (custom_mapping st = [] -> next = 0)) /\
  (exists st_e,
     let seen := first_seen (tags_of (PyStr.lines text)) in
     run true [] text = (st_e, None) /\
     custom_mapping st_e = numbered seen /\
     tag_dict st_e = numbers seen /\
     new_entities_ st_e = list_to_set seen).
Proof.
  intros Hrun Hmem. split.
  - pose proof (process_lines_ok _ _ _ _ _ Hrun (init_ok m)) as Hok.
    destruct (add_token_total st token tag) as [st' Hadd].
    exists st'. cbv zeta. split; [done|].
    apply add_token_ok in Hadd as (i & Hi & ->). cbn [current_sentence ner_tags tag_dict custom_mapping].
    destruct (lookup_tag_new st tag Hok Hmem) as (Hm & Hc & Ht & _).
    assert ((lookup_tag true st tag).1 = tag) as Efst.
    { unfold lookup_tag. by rewrite Hmem. }
    rewrite Efst in Hi.
    assert (i = max_key (custom_mapping st) + 1) as ->.
    { rewrite Ht in Hi. rewrite <- set_fresh in Hi by (by apply mem_false).
      rewrite get_set_eq in Hi. by injection Hi. }
    split; [done|]. split; [done|]. split; [done|]. apply max_key_nil_next.
  - destruct (process_lines_total (PyStr.lines text) (init_locals [])) as [st_e He].
    exists st_e. cbv zeta. split; [done|].
    apply (process_lines_numbered _ _ _ [] (init_ok []) eq_refl eq_refl eq_refl He).
Qed.

(** C7, witness: a third tag after two, and the numbering of the
    four-column corpus. *)
Lemma new_tags_numbered_in_order_witness :
  let st := (run true [] Example.split_a).1 in
  (exists st',
     let next := max_key (custom_mapping st) + 1 in
     add_token true st "Paris" "B-LOC" = Ok st' /\
     ner_tags (current_sentence st') = ner_tags (current_sentence st) ++ [next] /\
     PyDict.get (tag_dict st') "B-LOC" = Some next /\
     custom_mapping st' = custom_mapping st ++ [(next, "B-LOC")] /\
     (custom_mapping st = [] -> next = 0)) /\
  (exists st_e,
     let seen := first_seen (tags_of (PyStr.lines Example.four_columns)) in
     run true [] Example.four_columns = (st_e, None) /\
     custom_mapping st_e = numbered seen /\
     tag_dict st_e = numbers seen /\
     new_entities_ st_e = list_to_set seen).
Proof.
  apply (new_tags_numbered_in_order [] (PyStr.lines Example.split_a)
           (run true [] Example.split_a).1 "Paris" "B-LOC" Example.four_columns);
    vm_compute; reflexivity.
Defined.

(** C8. A registered tag keeps its id: meeting it again records that id
    and changes nothing in the registry, and nothing the loop does later
    changes the id either. *)
Theorem registered_tag_keeps_id ign m lines1 st token tag :
  process_lines ign (init_locals m) lines1 = (st, None) ->
  PyDict.mem (tag_dict st) tag = true ->
  exists i st',
    PyDict.get (tag_dict st) tag = Some i /\
    add_token ign st token tag = Ok st' /\
    ner_tags (current_sentence st') = ner_tags (current_sentence st) ++ [i] /\
    tag_dict st' = tag_dict st /\
    custom_mapping st' = custom_mapping st /\
    max_tag_id st' = max_tag_id st /\
    new_entities_ st' = new_entities_ st /\
    forall lines2 st2 err,
      process_lines ign st' lines2 = (st2, err) ->
      PyDict.get (tag_dict st2) tag = Some i /\
      forall t, PyDict.get (custom_mapping st) i = Some t ->
                PyDict.get (custom_mapping st2) i = Some t.
Proof.
  intros Hrun Hmem.
  pose proof (process_lines_ok _ _ _ _ _ Hrun (init_ok m)) as Hok.
  pose proof Hmem as [i Hi]%mem_true.
  exists i. unfold add_token. rewrite lookup_tag_known by done. rewrite Hi.
  eexists. split; [done|]. split; [reflexivity|]. simpl.
  split; [done|]. split; [done|]. split; [done|]. split; [done|]. split; [done|].
  intros lines2 st2 err H2.
  match type of H2 with process_lines _ ?s _ = _ =>
    assert (registry_ok s) as Hok' by (by apply (registry_ok_ext st)) end.
  destruct (process_lines_mono _ _ _ _ _ H2 Hok') as (M1 & M2 & _). simpl in *.
  split; auto.
Qed.

(** C8, witness: the tag O met again after the first split. *)
Lemma registered_tag_keeps_id_witness :
  let st := (run true [] Example.split_a).1 in
  exists i st',
    PyDict.get (tag_dict st) "O" = Some i /\
    add_token true st "Bob" "O" = Ok st' /\
    ner_tags (current_sentence st') = ner_tags (current_sentence st) ++ [i] /\
    tag_dict st' = tag_dict st /\
    custom_mapping st' = custom_mapping st /\
    max_tag_id st' = max_tag_id st /\
    new_entities_ st' = new_entities_ st /\
    forall lines2 st2 err,
      process_lines true st' lines2 = (st2, err) ->
      PyDict.get (tag_dict st2) "O" = Some i /\
      forall t, PyDict.get (custom_mapping st) i = Some t ->
                PyDict.get (custom_mapping st2) i = Some t.
Proof.
  apply (registered_tag_keeps_id true [] (PyStr.lines Example.split_a)
           (run true [] Example.split_a).1 "Bob" "O");
    vm_compute; reflexivity.
Defined.

Lemma resolve_known ign (m : list (Z * string)) t k :
  PyDict.get (inverse m) t = Some k -> resolve ign (inverse m) t = t.
Proof.
  intros H. unfold resolve. destruct ign; [done|].
  assert (PyDict.mem (inverse m) t = true) as ->; [|done].
  apply mem_true. by eexists.
Qed.

(** C10. With a dictionary from the caller, two conversions in a row
    work on that one object of the heap, and every tag that has an id
    when the first ends has the same id in the records and the table of
    the second; without one, each conversion works on a new object,
    started from the latest model configuration or empty, and leaves the
    objects of the heap as they are. *)
Theorem mapping_shared_or_fresh jl inp1 out1 inp2 out2 cmf arg ign w s1 w1 s2 w2 :
  heap_wf w -> out2 <> cmf ->
  conll_to_json jl inp1 out1 cmf arg ign w = (Ok s1, w1) ->
  conll_to_json jl inp2 out2 cmf arg ign w1 = (Ok s2, w2) ->
  exists raw2 m0 st2,
    fs w1 !! inp2 = Some (File raw2) /\
    initial_mapping jl arg w1 m0 /\
    run ign m0 (PyStr.universal_newlines raw2) = (st2, None) /\
    s2 = summary_of st2 /\
    fs w2 !! out2 = Some (File (json_lines (last_sentence st2))) /\
    match arg with
    | Some r =>
        heap w1 !! r = Some m0 /\
        heap w2 !! r = Some (custom_mapping st2) /\
        dom (heap w2) = dom (heap w) /\
        (forall t k, PyDict.get (inverse m0) t = Some k ->
                     PyDict.get (inverse (custom_mapping st2)) t = Some k /\
                     PyDict.get (custom_mapping st2) k = Some t) /\
        Forall2 (fun rec sent =>
                   Forall2 (fun i t => forall k, PyDict.get (inverse m0) t = Some k -> i = k)
                           (ner_tags rec) (sent.*2))
                (last_sentence st2)
                (segment (PyStr.lines (PyStr.universal_newlines raw2)))
    | None =>
        (fresh (dom (heap w1)) ∉ dom (heap w1)) /\
        fresh (dom (heap w)) <> fresh (dom (heap w1)) /\
        dom (heap w2) = {[fresh (dom (heap w1))]} ∪ dom (heap w1) /\
        (forall r m, heap w1 !! r = Some m -> heap w2 !! r = Some m)
    end.
Proof.
  intros Hwf Hne H1 H2.
  apply conversion_ok in H1
    as (raw1 & m & st1 & Hinit1 & Hnone1 & Hin1 & Hrun1 & -> & Hheap1 & Hfs1).
  apply conversion_ok in H2
    as (raw2 & m0 & st2 & Hinit2 & Hnone2 & Hin2 & Hrun2 & -> & Hheap2 & Hfs2).
  exists raw2, m0, st2.
  split; [done|]. split; [done|]. split; [done|]. split; [done|].
  split. { rewrite Hfs2, lookup_insert_ne by done. apply lookup_insert_eq. }
  unfold run in *.
  destruct arg as [r|]; simpl in *.
  - assert (m0 = custom_mapping st1) as Em0.
    { rewrite Hheap1, lookup_insert_eq in Hinit2. by injection Hinit2. }
    pose proof (process_lines_ok _ _ _ _ _ Hrun1 (init_ok m)) as Hok1.
    pose proof (process_lines_ok _ _ _ _ _ Hrun2 (init_ok m0)) as Hok2.
    destruct (process_lines_mono _ _ _ _ _ Hrun1 (init_ok m)) as (_ & _ & Hnd1).
    specialize (Hnd1 (Hwf r m Hinit1)). simpl in Hnd1. rewrite <- Em0 in Hnd1.
    destruct (process_lines_mono _ _ _ _ _ Hrun2 (init_ok m0)) as (M1 & M2 & _).
    simpl in M1, M2.
    split; [done|]. split; [rewrite Hheap2; apply lookup_insert_eq|].
    split.
    { rewrite Hheap2, Hheap1, !dom_insert_L.
      assert ({[r]} ∪ dom (heap w) = dom (heap w)) as Hu.
      { apply subseteq_union_1_L, singleton_subseteq_l, elem_of_dom. eauto. }
      by rewrite !Hu. }
    split.
    { intros t k Hk. destruct Hok2 as [_ <-]. split; [by apply M1|].
      apply M2. apply elem_get; [done|]. by apply get_inverse. }
    destruct (process_lines_records ign (resolve ign (inverse m0)) _ _ _ []
                (init_ok m0) ltac:(done) ltac:(by split; [|constructor]) Hrun2)
      as (recs & Hlast & Hrecs).
    simpl in Hlast. rewrite Hlast. unfold segment.
    eapply Forall2_impl; [exact Hrecs|]. intros rec sent [_ Hids].
    eapply Forall2_impl; [exact Hids|]. simpl. intros i t Hi k Hk.
    rewrite (resolve_known _ _ _ _ Hk) in Hi.
    apply M1 in Hk. congruence.
  - pose proof (is_fresh (dom (heap w1))) as Hfresh.
    split; [done|]. split.
    { intros E. apply Hfresh. rewrite <- E, Hheap1, dom_insert_L.
      apply elem_of_union_l. by apply elem_of_singleton. }
    split; [by rewrite Hheap2, dom_insert_L|].
    intros r m' Hr. rewrite Hheap2, lookup_insert_ne; [done|].
    intros <-. apply Hfresh. apply elem_of_dom. eauto.
Qed.

(** C10, witness: two splits converted with the same dictionary, empty
    at first. *)
Lemma mapping_shared_or_fresh_witness :
  let w := Example.w_two_splits in
  let w1 := (conll_to_json Example.json_load_config "a.conll" "a.json"
               "class_mapping.py" (Some 0%nat) true w).2 in
  let w2 := (conll_to_json Example.json_load_config "b.conll" "b.json"
               "class_mapping.py" (Some 0%nat) true w1).2 in
  exists raw2 m0 st2,
    fs w1 !! "b.conll" = Some (File raw2) /\
    initial_mapping Example.json_load_config (Some 0%nat) w1 m0 /\
    run true m0 (PyStr.universal_newlines raw2) = (st2, None) /\
    Summary 1 2 [("O", 1); ("B-PER", 1)] ∅ = summary_of st2 /\
    fs w2 !! "b.json" = Some (File (json_lines (last_sentence st2))) /\
    heap w1 !! 0%nat = Some m0 /\
    heap w2 !! 0%nat = Some (custom_mapping st2) /\
    dom (heap w2) = dom (heap w) /\
    (forall t k, PyDict.get (inverse m0) t = Some k ->
                 PyDict.get (inverse (custom_mapping st2)) t = Some k /\
                 PyDict.get (custom_mapping st2) k = Some t) /\
    Forall2 (fun rec sent =>
               Forall2 (fun i t => forall k, PyDict.get (inverse m0) t = Some k -> i = k)
                       (ner_tags rec) (sent.*2))
            (last_sentence st2)
            (segment (PyStr.lines (PyStr.universal_newlines raw2))).
Proof.
  apply (mapping_shared_or_fresh Example.json_load_config "a.conll" "a.json"
           "b.conll" "b.json" "class_mapping.py" (Some 0%nat) true
           Example.w_two_splits
           (Summary 1 2 [("B-PER", 1); ("O", 1)] ({["B-PER"]} ∪ {["O"]}))).
  - unfold heap_wf. refine (bool_decide_unpack _ _). vm_compute. exact I.
  - discriminate.
  - vm_compute. reflexivity.
  - vm_compute. reflexivity.
Defined.

(** Without a dictionary from the caller, two splits that meet the same
    tags in opposite orders number them differently. *)
Lemma ids_differ_without_mapping :
  let w := Example.w_two_splits in
  let w1 := (conll_to_json Example.json_load_config "a.conll" "a.json"
               "class_mapping.py" None true w).2 in
  let w2 := (conll_to_json Example.json_load_config "b.conll" "b.json"
               "class_mapping.py" None true w1).2 in
  fs w2 !! "a.json"
  = Some (File (json_lines [Sentence "0" ["Alice"; "loves"] [0; 1]])) /\
  fs w2 !! "b.json"
  = Some (File (json_lines [Sentence "0" ["No"; "Bob"] [0; 1]])) /\
  heap w2 !! 1%nat = Some [(0, "B-PER"); (1, "O")] /\
  heap w2 !! 2%nat = Some [(0, "O"); (1, "B-PER")] /\
  fs w2 !! "class_mapping.py"
  = Some (File (class_mapping_text [(0, "O"); (1, "B-PER")])).
Proof. vm_compute. repeat split; reflexivity. Qed.

(** * The remaining functions, and more on the main ones *)

(** ** Strings *)

Lemma str_app_cons c s t : String c s +:+ t = String c (s +:+ t).
Proof. reflexivity. Qed.

Lemma str_app_nil_l t : "" +:+ t = t.
Proof. reflexivity. Qed.

Lemma str_app_assoc s1 s2 s3 : (s1 +:+ s2) +:+ s3 = s1 +:+ (s2 +:+ s3).
Proof.
  induction s1 as [|c s1 IH]; [done|]. by rewrite !str_app_cons, IH.
Qed.

Lemma str_rev_app_eq s1 s2 : String.rev_app s1 s2 = String.rev s1 +:+ s2.
Proof.
  unfold String.rev. revert s2.
  induction s1 as [|c s1 IH]; intros s2; simpl; [done|].
  rewrite IH, (IH (String c "")). by rewrite str_app_assoc.
Qed.

Lemma str_rev_cons c s : String.rev (String c s) = String.rev s +:+ String c "".
Proof. unfold String.rev at 1. simpl. apply str_rev_app_eq. Qed.

Lemma str_app_nil_r s : s +:+ "" = s.
Proof. induction s as [|c s IH]; [done|]. by rewrite str_app_cons, IH. Qed.

Lemma str_rev_app s1 s2 : String.rev (s1 +:+ s2) = String.rev s2 +:+ String.rev s1.
Proof.
  induction s1 as [|c s1 IH].
  - by rewrite str_app_nil_l, str_app_nil_r.
  - by rewrite str_app_cons, !str_rev_cons, IH, str_app_assoc.
Qed.

Lemma str_rev_involutive s : String.rev (String.rev s) = s.
Proof.
  induction s as [|c s IH]; [done|].
  by rewrite str_rev_cons, str_rev_app, IH.
Qed.

Lemma all_chars_append P s1 s2 :
  all_chars P (s1 +:+ s2) = all_chars P s1 && all_chars P s2.
Proof.
  induction s1 as [|c s1 IH]; [done|].
  rewrite str_app_cons. simpl. by rewrite IH, andb_assoc.
Qed.

Lemma all_chars_rev P s : all_chars P (String.rev s) = all_chars P s.
Proof.
  induction s as [|c s IH]; [done|].
  rewrite str_rev_cons, all_chars_append, IH. simpl.
  by rewrite andb_true_r, andb_comm.
Qed.

Lemma int_lstrip_id s :
  all_chars (fun c => negb (PyStr.is_int_space c)) s = true -> PyStr.int_lstrip s = s.
Proof. destruct s as [|c s]; simpl; [done|]. by intros [->%negb_true_iff _]%andb_true_iff. Qed.

Lemma int_strip_id s :
  all_chars (fun c => negb (PyStr.is_int_space c)) s = true -> PyStr.int_strip s = s.
Proof.
  intros H. unfold PyStr.int_strip.
  rewrite (int_lstrip_id s) by done.
  rewrite int_lstrip_id by (by rewrite all_chars_rev).
  apply str_rev_involutive.
Qed.

Lemma all_chars_impl (P Q : ascii -> bool) s :
  (forall c, P c = true -> Q c = true) ->
  all_chars P s = true -> all_chars Q s = true.
Proof.
  intros HPQ. induction s as [|c s IH]; simpl; [done|].
  intros [? ?]%andb_true_iff. apply andb_true_iff. auto.
Qed.

(** ** [str] and [int] *)

Lemma is_digit_char x : PyStr.is_digit (pretty_N_char x) = true.
Proof. unfold pretty_N_char. by repeat case_match. Qed.

Lemma digit_val_char x :
  (x < 10)%N -> PyStr.digit_val (pretty_N_char x) = Z.of_N x.
Proof.
  intros H.
  assert (x = 0 ∨ x = 1 ∨ x = 2 ∨ x = 3 ∨ x = 4 ∨ x = 5
          ∨ x = 6 ∨ x = 7 ∨ x = 8 ∨ x = 9)%N as Hx by lia.
  by repeat destruct Hx as [->|Hx]; try subst x.
Qed.

Lemma pretty_N_go_digits x s :
  all_chars PyStr.is_digit s = true -> all_chars PyStr.is_digit (pretty_N_go x s) = true.
Proof.
  revert s. induction (N.lt_wf_0 x) as [x _ IH]; intros s Hs.
  assert (x = 0 ∨ 0 < x)%N as [->|?] by lia; [by rewrite pretty_N_go_0|].
  rewrite pretty_N_go_step by done. apply IH; [by apply N.div_lt|].
  simpl. by rewrite is_digit_char.
Qed.

(** Reading the digits [pretty_N_go] writes. *)
Lemma int_digits_pretty_go x :
  exists k, 0 < k /\ forall prev acc s,
    PyStr.int_digits prev acc (pretty_N_go x s)
    = PyStr.int_digits (prev || bool_decide (0 < x)%N) (acc * k + Z.of_N x) s.
Proof.
  induction (N.lt_wf_0 x) as [x _ IH].
  assert (x = 0 ∨ 0 < x)%N as [->|Hx] by lia.
  - exists 1. split; [done|]. intros prev acc s. rewrite pretty_N_go_0.
    rewrite orb_false_r. f_equal. lia.
  - destruct (IH (x `div` 10)%N) as (k & Hk & Hgo); [by apply N.div_lt|].
    exists (10 * k). split; [lia|]. intros prev acc s.
    rewrite pretty_N_go_step by done. rewrite Hgo. simpl.
    rewrite is_digit_char, digit_val_char by (by apply N.mod_lt).
    rewrite (bool_decide_eq_true_2 (0 < x)%N) by done. rewrite orb_true_r.
    f_equal.
    pose proof (N.div_mod x 10 ltac:(done)) as Hdm.
    rewrite Hdm at 3. rewrite N2Z.inj_add, N2Z.inj_mul. simpl Z.of_N. lia.
Qed.

Lemma int_digits_pretty_N prev (x : N) :
  PyStr.int_digits prev 0 (pretty x) = Some (Z.of_N x).
Proof.
  unfold pretty, pretty_N. case_decide as Hx.
  - by subst x.
  - destruct (int_digits_pretty_go x) as (k & _ & Hgo).
    rewrite Hgo. simpl. rewrite (bool_decide_eq_true_2 (0 < x)%N) by lia.
    by rewrite orb_true_r.
Qed.

Lemma pretty_N_digits (x : N) : all_chars PyStr.is_digit (pretty x) = true.
Proof.
  unfold pretty, pretty_N. case_decide; [done|]. by apply pretty_N_go_digits.
Qed.

Lemma digit_not_space c :
  PyStr.is_digit c = true -> negb (PyStr.is_int_space c) = true.
Proof.
  unfold PyStr.is_digit, PyStr.is_int_space. cbv zeta.
  generalize (nat_of_ascii c). intros n H.
  apply andb_true_iff in H as [H1%Nat.leb_le H2%Nat.leb_le].
  apply negb_true_iff.
  repeat (apply orb_false_iff; split);
    try (apply andb_false_iff);
    try (apply Nat.eqb_neq; lia).
  right. apply Nat.leb_gt. lia.
Qed.

(** [int(str(n)) == n] *)
Lemma int_of_str_of_int (n : Z) : PyStr.int_of_str (PyStr.str_of_int n) = Some n.
Proof.
  unfold PyStr.int_of_str, PyStr.str_of_int, pretty, pretty_Z.
  destruct n as [|p|p].
  - done.
  - unfold pretty, pretty_positive.
    rewrite int_strip_id
      by (eapply all_chars_impl; [apply digit_not_space | apply pretty_N_digits]).
    pose proof (pretty_N_digits (N.pos p)) as Hd.
    pose proof (int_digits_pretty_N false (N.pos p)) as Hi.
    destruct (pretty (N.pos p)) as [|c s] eqn:E; [done|].
    simpl in Hd. apply andb_true_iff in Hd as [Hc _].
    assert (c <> "-"%char /\ c <> "+"%char) as [H1 H2].
    { split; intros ->; done. }
    destruct c as [[] [] [] [] [] [] [] []]; try done.
  - unfold pretty, pretty_positive.
    change ("-" +:+ pretty (N.pos p)) with (String "-" (pretty (N.pos p))).
    rewrite int_strip_id.
    2:{ cbn [all_chars]. apply andb_true_iff. split; [done|].
        eapply all_chars_impl; [apply digit_not_space | apply pretty_N_digits]. }
    cbv beta iota. by rewrite int_digits_pretty_N.
Qed.

Lemma zeros_succ k :
  String.concat "" (replicate (S k) "0") = String "0" (String.concat "" (replicate k "0")).
Proof. by destruct k. Qed.

Lemma int_digits_zeros k prev acc s :
  PyStr.int_digits prev acc (String.concat "" (replicate k "0") +:+ s)
  = PyStr.int_digits (prev || bool_decide (0 < k)%nat) (acc * 10 ^ Z.of_nat k) s.
Proof.
  revert prev acc. induction k as [|k IH]; intros prev acc.
  - simpl. rewrite orb_false_r. f_equal. lia.
  - rewrite zeros_succ, str_app_cons. cbn [PyStr.int_digits].
    change (PyStr.is_digit "0") with true. cbv iota.
    rewrite IH. rewrite orb_true_r. simpl orb.
    f_equal. change (PyStr.digit_val "0") with 0.
    rewrite Nat2Z.inj_succ, Z.pow_succ_r by lia. lia.
Qed.

(** [int(str(n).zfill(w)) == n] for [n >= 0] *)
Lemma int_of_zfill w (n : Z) :
  0 <= n -> PyStr.int_of_str (PyStr.zfill w (PyStr.str_of_int n)) = Some n.
Proof.
  intros Hn. unfold PyStr.zfill, PyStr.str_of_int.
  set (k := (w - String.length (pretty n))%nat).
  assert (exists x : N, pretty n = pretty x /\ Z.of_N x = n) as (x & -> & Hx).
  { destruct n as [|p|p]; [by exists 0%N | by exists (N.pos p) | lia]. }
  assert (all_chars PyStr.is_digit (String.concat "" (replicate k "0") +:+ pretty x) = true) as Hd.
  { rewrite all_chars_append, pretty_N_digits, andb_true_r.
    clear. induction k as [|k IH]; [done|].
    rewrite zeros_succ. simpl. by rewrite IH. }
  unfold PyStr.int_of_str.
  rewrite int_strip_id by (eapply all_chars_impl; [apply digit_not_space | done]).
  assert (PyStr.int_digits false 0 (String.concat "" (replicate k "0") +:+ pretty x) = Some n) as Hi.
  { rewrite int_digits_zeros. rewrite Z.mul_0_l. rewrite int_digits_pretty_N. by rewrite Hx. }
  destruct (String.concat "" (replicate k "0") +:+ pretty x) as [|c s] eqn:E.
  - done.
  - simpl in Hd. apply andb_true_iff in Hd as [Hc _].
    destruct c as [[] [] [] [] [] [] [] []]; try done.
Qed.

Lemma contains_append c s1 s2 :
  PyStr.contains c (s1 +:+ s2) = PyStr.contains c s1 || PyStr.contains c s2.
Proof.
  induction s1 as [|a s1 IH]; [done|].
  rewrite str_app_cons. simpl. by rewrite IH, orb_assoc.
Qed.

Lemma contains_rev c s : PyStr.contains c (String.rev s) = PyStr.contains c s.
Proof.
  induction s as [|a s IH]; [done|].
  rewrite str_rev_cons, contains_append, IH. simpl.
  by rewrite orb_false_r, orb_comm.
Qed.

Lemma contains_lstrip c s :
  PyStr.contains c s = false -> PyStr.contains c (PyStr.int_lstrip s) = false.
Proof.
  induction s as [|a s IH]; [done|]. simpl.
  destruct (PyStr.is_int_space a); [|done].
  intros [_ H]%orb_false_iff. auto.
Qed.

Lemma contains_strip c s :
  PyStr.contains c s = false -> PyStr.contains c (PyStr.int_strip s) = false.
Proof.
  intros H. unfold PyStr.int_strip.
  rewrite contains_rev. apply contains_lstrip. rewrite contains_rev.
  by apply contains_lstrip.
Qed.

Lemma contains_digits c s :
  PyStr.is_digit c = false -> all_chars PyStr.is_digit s = true ->
  PyStr.contains c s = false.
Proof.
  intros Hc. induction s as [|a s IH]; [done|]. cbn [PyStr.contains all_chars].
  intros [Ha Hs]%andb_true_iff. rewrite IH by done. rewrite orb_false_r.
  apply Ascii.eqb_neq. intros ->. congruence.
Qed.

Lemma zfill_digits w n :
  0 <= n -> all_chars PyStr.is_digit (PyStr.zfill w (PyStr.str_of_int n)) = true.
Proof.
  intros Hn. unfold PyStr.zfill, PyStr.str_of_int.
  assert (exists x : N, pretty n = pretty x) as (x & ->).
  { destruct n as [|p|p]; [by exists 0%N | by exists (N.pos p) | lia]. }
  rewrite all_chars_append, pretty_N_digits, andb_true_r.
  generalize (w - String.length (pretty x))%nat. intros k.
  induction k as [|k IH]; [done|]. rewrite zeros_succ. simpl. by rewrite IH.
Qed.

(** Splitting at dashes. *)
Lemma str_prefix_cons a s1 b s2 :
  String.prefix (String a s1) (String b s2) = bool_decide (a = b) && String.prefix s1 s2.
Proof.
  cbn [String.prefix]. destruct (ascii_dec a b) as [->|Hne].
  - by rewrite bool_decide_eq_true_2.
  - by rewrite bool_decide_eq_false_2.
Qed.

Lemma str_prefix_nil s : String.prefix "" s = true.
Proof. by destruct s. Qed.

Lemma str_prefix_dash c s : String.prefix "-" (String c s) = bool_decide (c = "-"%char).
Proof.
  rewrite str_prefix_cons, str_prefix_nil, andb_true_r.
  apply bool_decide_ext. split; congruence.
Qed.

Lemma split_go_no_dash acc y :
  PyStr.contains "-" y = false ->
  PyStr.split_go "-" 0 acc y = [String.rev acc +:+ y].
Proof.
  revert acc. induction y as [|c y IH]; intros acc Hy.
  - simpl. by rewrite str_app_nil_r.
  - cbn [PyStr.contains] in Hy. apply orb_false_iff in Hy as [Hc Hy].
    cbn [PyStr.split_go]. rewrite str_prefix_dash.
    rewrite bool_decide_eq_false_2
      by (intros ->; by rewrite Ascii.eqb_refl in Hc).
    rewrite IH by done. by rewrite str_rev_cons, str_app_assoc.
Qed.

Lemma last_split_go x acc y :
  PyStr.contains "-" y = false ->
  last (PyStr.split_go "-" 0 acc (x +:+ "-" +:+ y)) = Some y.
Proof.
  intros Hy. revert acc. induction x as [|c x IH]; intros acc.
  - rewrite str_app_nil_l. change ("-" +:+ y) with (String "-" y).
    cbn [PyStr.split_go]. rewrite str_prefix_dash, bool_decide_eq_true_2 by done.
    simpl Nat.pred. rewrite split_go_no_dash by done. done.
  - rewrite str_app_cons. cbn [PyStr.split_go]. rewrite str_prefix_dash.
    case_bool_decide.
    + simpl Nat.pred. specialize (IH "").
      destruct (PyStr.split_go "-" 0 "" (x +:+ "-" +:+ y)); [done|]. done.
    + apply IH.
Qed.

Lemma suffix_of_join x y :
  PyStr.contains "-" y = false -> suffix_of (x +:+ "-" +:+ y) = y.
Proof. intros Hy. unfold suffix_of, PyStr.split. by rewrite last_split_go. Qed.

Lemma split_go_pieces acc s :
  PyStr.contains "-" acc = false ->
  Forall (fun p => PyStr.contains "-" p = false) (PyStr.split_go "-" 0 acc s).
Proof.
  revert acc. induction s as [|c s IH]; intros acc Hacc.
  - simpl. constructor; [|done]. by rewrite contains_rev.
  - cbn [PyStr.split_go]. rewrite str_prefix_dash. case_bool_decide as Hc.
    + simpl Nat.pred. constructor; [by rewrite contains_rev|]. by apply IH.
    + apply IH. cbn [PyStr.contains]. rewrite Hacc, orb_false_r.
      apply Ascii.eqb_neq. congruence.
Qed.

Lemma suffix_of_no_dash d : PyStr.contains "-" (suffix_of d) = false.
Proof.
  unfold suffix_of, PyStr.split.
  pose proof (split_go_pieces "" d eq_refl) as H.
  destruct (last (PyStr.split_go "-" 0 "" d)) as [p|] eqn:E; [|done].
  simpl. apply last_Some_elem_of in E.
  by eapply (proj1 (Forall_forall _ _)) in H.
Qed.

Lemma digit_val_nonneg c : PyStr.is_digit c = true -> 0 <= PyStr.digit_val c.
Proof.
  unfold PyStr.is_digit, PyStr.digit_val. cbv zeta.
  intros [H1%Nat.leb_le _]%andb_true_iff. lia.
Qed.

Lemma int_digits_nonneg prev acc s n :
  0 <= acc -> PyStr.int_digits prev acc s = Some n -> 0 <= n.
Proof.
  revert prev acc. induction s as [|c s IH]; intros prev acc Hacc; simpl.
  - destruct prev; [|done]. by intros [= <-].
  - destruct (PyStr.is_digit c) eqn:Hc.
    + apply IH. pose proof (digit_val_nonneg c Hc). lia.
    + destruct (Ascii.eqb c "_"); [|done]. destruct prev; [|done]. by apply IH.
Qed.

Lemma int_of_str_nonneg s n :
  PyStr.contains "-" s = false -> PyStr.int_of_str s = Some n -> 0 <= n.
Proof.
  intros Hs%contains_strip. unfold PyStr.int_of_str.
  destruct (PyStr.int_strip s) as [|a d]; [done|].
  cbn [PyStr.contains] in Hs. apply orb_false_iff in Hs as [Ha _].
  apply Ascii.eqb_neq in Ha.
  destruct a as [[] [] [] [] [] [] [] []]; try done;
    apply int_digits_nonneg; done.
Qed.

(** ** Directory listings *)

Lemma str_prefix_app pre s : String.prefix pre (pre +:+ s) = true.
Proof.
  induction pre as [|a pre IH]; [apply str_prefix_nil|].
  rewrite str_app_cons, str_prefix_cons, IH. by rewrite bool_decide_eq_true_2.
Qed.

Lemma str_prefix_drop pre p :
  String.prefix pre p = true -> p = pre +:+ PyStr.drop (String.length pre) p.
Proof.
  revert p. induction pre as [|a pre IH]; intros p; [done|].
  destruct p as [|b p]; [done|]. rewrite str_prefix_cons.
  intros [->%bool_decide_eq_true Hp]%andb_true_iff.
  rewrite str_app_cons. simpl. f_equal. by apply IH.
Qed.

Lemma str_drop_app pre s : PyStr.drop (String.length pre) (pre +:+ s) = s.
Proof. induction pre as [|a pre IH]; [by destruct s|]. by rewrite str_app_cons. Qed.

Lemma entry_of_Some d p name :
  Os.entry_of d p = Some name ->
  p = d +:+ "/" +:+ name /\ name <> "" /\ PyStr.contains "/" name = false.
Proof.
  unfold Os.entry_of, PyStr.startswith. cbv zeta.
  destruct (String.prefix (d +:+ "/") p) eqn:Hp; [|done].
  destruct (bool_decide _ || _) eqn:Hn; [done|]. intros [= <-].
  apply orb_false_iff in Hn as [Hn1%bool_decide_eq_false Hn2].
  split; [|done]. apply str_prefix_drop in Hp. by rewrite str_app_assoc in Hp.
Qed.

Lemma entry_of_join d name :
  name <> "" -> PyStr.contains "/" name = false ->
  Os.entry_of d (d +:+ "/" +:+ name) = Some name.
Proof.
  intros Hn Hc. unfold Os.entry_of, PyStr.startswith. cbv zeta.
  rewrite <- str_app_assoc, str_prefix_app, str_drop_app.
  by rewrite bool_decide_eq_false_2, Hc.
Qed.

Lemma elem_of_entries d f name :
  name ∈ entries d f <->
  name <> "" /\ PyStr.contains "/" name = false /\ is_Some (f !! (d +:+ "/" +:+ name)).
Proof.
  unfold entries. rewrite list_elem_of_omap. split.
  - intros (p & Hp & He). apply entry_of_Some in He as (-> & ? & ?).
    split; [done|]. split; [done|].
    apply list_elem_of_fmap in Hp as ([p x] & -> & Hpx).
    apply elem_of_map_to_list in Hpx. eauto.
  - intros (Hn & Hc & [x Hx]). exists (d +:+ "/" +:+ name). split.
    + apply list_elem_of_fmap. exists (d +:+ "/" +:+ name, x). split; [done|].
      by apply elem_of_map_to_list.
    + by apply entry_of_join.
Qed.

Lemma listdir_ok d w names w' :
  Os.listdir d w = (Ok names, w') ->
  w' = w /\ fs w !! d = Some Dir /\ names = entries d (fs w).
Proof.
  unfold Os.listdir, bind, get_world, ret, raise.
  destruct (fs w !! d) as [[|c]|]; [|done..]. by intros [= <- <-].
Qed.

(** The directories [makedirs] adds are the path and those above it. *)
Lemma mkdir_exist_ok_new cls named p w r w' q :
  Os.mkdir_exist_ok cls named p w = (r, w') ->
  fs w' !! q = fs w !! q \/ q = p.
Proof.
  unfold Os.mkdir_exist_ok, Os.os_error, bind, get_world, set_fs, ret, raise.
  destruct (fs w !! p) as [[|c]|] eqn:E; intros [= <- <-]; simpl; auto.
  destruct (decide (p = q)) as [->|Hne]; [by right|].
  left. by rewrite lookup_insert_ne.
Qed.

Lemma makedirs_new p w r w' q :
  Os.makedirs p w = (r, w') ->
  fs w' !! q = fs w !! q \/ q = p \/ q ∈ Os.ancestors p.
Proof.
  unfold Os.makedirs, bind at 1, log. simpl.
  destruct (decide (p = "")) as [->|Hp]; [intros [= <- <-]; by left|].
  set (w0 := World _ _ _ _ _ _).
  change (fs w) with (fs w0). clearbody w0.
  revert w0. induction (Os.ancestors p) as [|d ds IH]; intros w0; simpl.
  - intros H. eapply mkdir_exist_ok_new in H as [?|?]; eauto.
  - unfold bind at 1.
    destruct (Os.mkdir_exist_ok _ _ d w0) as [[[]|e] w1] eqn:E1.
    + intros H. apply IH in H as [H|[H|H]].
      * eapply (mkdir_exist_ok_new _ _ _ _ _ _ q) in E1 as [E1| ->].
        -- left. congruence.
        -- right. right. apply list_elem_of_here.
      * by right; left.
      * right. right. by apply list_elem_of_further.
    + intros [= <- <-].
      eapply (mkdir_exist_ok_new _ _ _ _ _ _ q) in E1 as [E1| ->]; [by left|].
      right. right. apply list_elem_of_here.
Qed.

(** The entries of [./data] are those it had before [makedirs
    "./data"]. *)
Lemma data_entries_kept w r w' name :
  Os.makedirs "./data" w = (r, w') ->
  name ∈ entries "./data" (fs w') <-> name ∈ entries "./data" (fs w).
Proof.
  intros H. rewrite !elem_of_entries.
  destruct (makedirs_new _ _ _ _ ("./data" +:+ "/" +:+ name) H) as [E|[E|E]].
  - by rewrite E.
  - exfalso. by destruct name.
  - exfalso. apply list_elem_of_singleton in E. by destruct name.
Qed.

(** ** The sequence number *)

Lemma mapM_read_seq_ok dirs w seqs w' :
  mapM read_seq dirs w = (Ok seqs, w') ->
  w' = w /\ Forall2 (fun d n => PyStr.int_of_str (suffix_of d) = Some n) dirs seqs.
Proof.
  revert seqs. induction dirs as [|d dirs IH]; intros seqs; simpl.
  - intros [= <- <-]. by split.
  - unfold bind at 1. unfold read_seq at 1.
    fold (suffix_of d).
    destruct (PyStr.int_of_str (suffix_of d)) as [n|] eqn:E; [|done].
    unfold ret at 1. unfold bind at 1.
    destruct (mapM read_seq dirs w) as [[ns|e] w1] eqn:E1; [|done].
    intros [= <- <-]. destruct (IH ns eq_refl) as [-> HF].
    split; [done|]. by constructor.
Qed.

Lemma mapM_read_seq_raise dirs w d :
  d ∈ dirs -> PyStr.int_of_str (suffix_of d) = None ->
  exists msg, mapM read_seq dirs w = (Raise (Exn ValueError msg), w).
Proof.
  intros Hd Hnone. induction dirs as [|d0 dirs IH]; [by apply elem_of_nil in Hd|].
  simpl. unfold bind at 1. unfold read_seq at 1. fold (suffix_of d0).
  destruct (PyStr.int_of_str (suffix_of d0)) as [n|] eqn:E.
  - unfold ret at 1. apply elem_of_cons in Hd as [->|Hd]; [congruence|].
    destruct (IH Hd) as [msg Hm]. exists msg. unfold bind. by rewrite Hm.
  - eexists. reflexivity.
Qed.

Lemma foldl_max_head (seqs : list Z) n :
  n ∈ seqs -> n <= foldl Z.max (default 0 (head seqs)) seqs.
Proof. intros H. apply foldl_max_le. by right. Qed.

Section CreateDataDirectory.
Variable secure_filename : string -> string.

(** What a successful call did. *)
Lemma create_data_directory_ok custom_name w path w' :
  create_data_directory secure_filename custom_name w = (Ok path, w') ->
  exists w1 seq_num,
    let base := base_name_of secure_filename custom_name w in
    let existing := filter (fun d => PyStr.startswith d base)
                           (entries "./data" (fs w1)) in
    Os.makedirs "./data" w = (Ok tt, w1) /\
    path = "./data/" +:+ base +:+ "-" +:+ seq_num /\
    Os.makedirs path w1 = (Ok tt, w') /\
    match existing with
    | [] => seq_num = "0001"
    | _ =>
        exists seqs,
          Forall2 (fun d n => PyStr.int_of_str (suffix_of d) = Some n) existing seqs /\
          seq_num = PyStr.zfill 4 (PyStr.str_of_int
                      (foldl Z.max (default 0 (head seqs)) seqs + 1))
    end.
Proof.
  unfold create_data_directory.
  intros H. apply bind_ok in H as ([] & w1 & Hmk & H).
  unfold bind at 1, get_world at 1 in H.
  apply bind_ok in H as (names & w2 & Hls & H).
  apply listdir_ok in Hls as (-> & Hdir & ->).
  apply bind_ok in H as (seq_num & w3 & Hseq & H).
  apply bind_ok in H as ([] & w4 & Hmk2 & H).
  injection H as <- <-.
  pose proof (makedirs_spec _ _ _ _ Hmk) as (_ & (_ & _ & _ & Htoday) & _).
  exists w1, seq_num. cbv zeta.
  unfold base_name_of. rewrite <- Htoday.
  set (base := if truthy custom_name then _ else _) in *.
  split; [done|].
  assert (Os.path_join "./data" (base +:+ "-" +:+ seq_num)
          = "./data/" +:+ base +:+ "-" +:+ seq_num) as Hpath by done.
  rewrite Hpath in *. split; [done|].
  destruct (filter _ _) as [|d0 ds] eqn:Hex.
  - injection Hseq as <- <-. split; [done|]. done.
  - apply bind_ok in Hseq as (seqs & w5 & Hm & Hseq).
    injection Hseq as <- <-.
    apply mapM_read_seq_ok in Hm as (-> & HF).
    split; [done|]. by exists seqs.
Qed.

End CreateDataDirectory.

Lemma grows_not_a_file f f' p : grows f f' -> not_a_file f p -> not_a_file f' p.
Proof.
  intros Hg Hp c. destruct (Hg p) as [E|[_ E]]; rewrite E; [apply Hp|done].
Qed.

Lemma mkdir_exist_ok_succeeds cls named p w :
  not_a_file (fs w) p -> exists w', Os.mkdir_exist_ok cls named p w = (Ok tt, w').
Proof.
  intros Hp. unfold Os.mkdir_exist_ok, bind, get_world, set_fs, ret, raise.
  destruct (fs w !! p) as [[|c]|] eqn:E; eauto. by destruct (Hp c).
Qed.

Lemma makedirs_succeeds p w :
  p <> "" -> not_a_file (fs w) p ->
  Forall (not_a_file (fs w)) (Os.ancestors p) ->
  exists w', Os.makedirs p w = (Ok tt, w').
Proof.
  intros Hne Hp Ha. unfold Os.makedirs, bind at 1, log. simpl.
  rewrite decide_False by done.
  set (w0 := World _ _ _ _ _ _).
  change (fs w) with (fs w0) in Hp, Ha. clearbody w0.
  revert w0 Hp Ha. induction (Os.ancestors p) as [|d ds IH]; intros w0 Hp Ha; simpl.
  - by apply mkdir_exist_ok_succeeds.
  - apply Forall_cons in Ha as [Hd Hds].
    destruct (mkdir_exist_ok_succeeds NotADirectoryError (Os.below d p) d w0 Hd)
      as [w1 E1].
    unfold bind at 1. rewrite E1.
    pose proof (mkdir_exist_ok_spec _ _ _ _ _ _ E1) as (_ & _ & Hg & _).
    apply IH; [by eapply grows_not_a_file|].
    eapply Forall_impl; [exact Hds|]. intros q. by apply grows_not_a_file.
Qed.

Lemma ancestors_go_flat acc s :
  PyStr.contains "/" s = false -> Os.ancestors_go acc s = [].
Proof.
  revert acc. induction s as [|c s IH]; intros acc; [done|].
  cbn [PyStr.contains Os.ancestors_go].
  intros [Hc Hs]%orb_false_iff.
  rewrite Ascii.eqb_sym, Hc. by apply IH.
Qed.

Lemma ancestors_data name :
  PyStr.contains "/" name = false ->
  Os.ancestors ("./data/" +:+ name) = ["."; "./data"].
Proof.
  intros Hn. unfold Os.ancestors.
  change ("./data/" +:+ name)
    with (String "." (String "/" (String "d" (String "a" (String "t"
           (String "a" (String "/" name))))))).
  cbn. by rewrite ancestors_go_flat.
Qed.

Lemma filter_nothing {A} (P : A -> Prop) `{forall x, Decision (P x)} (l : list A) :
  Forall (fun x => ~ P x) l -> filter P l = [].
Proof.
  induction 1 as [|x l Hx Hl IH]; [done|]. by rewrite filter_cons_False.
Qed.

Section CreateDataDirectory.
Variable secure_filename : string -> string.

(** X1. When the base name has no slash, a successful call returns the
    path [./data/<base>-<seq>], which is a directory afterwards, as
    [./data] is. No file or directory that was there is changed, nothing
    is read or written, and the heap and the random source are left
    alone. *)
Theorem create_data_directory_creates custom_name w path w' :
  PyStr.contains "/" (base_name_of secure_filename custom_name w) = false ->
  create_data_directory secure_filename custom_name w = (Ok path, w') ->
  (exists seq_num,
     path = "./data/" +:+ base_name_of secure_filename custom_name w
            +:+ "-" +:+ seq_num) /\
  fs w' !! "./data" = Some Dir /\
  fs w' !! path = Some Dir /\
  grows (fs w) (fs w') /\
  fs_step w w' /\
  trace w' = EvMakedirs path :: EvMakedirs "./data" :: trace w.
Proof.
  intros _ H. apply create_data_directory_ok in H as (w1 & seq_num & H).
  cbv zeta in H. destruct H as (Hmk & -> & Hmk2 & _).
  apply makedirs_spec in Hmk as (Ht & Hs & Hg & Hd).
  apply makedirs_spec in Hmk2 as (Ht2 & Hs2 & Hg2 & Hd2).
  split; [by exists seq_num|].
  split.
  { specialize (Hd eq_refl). destruct (Hg2 "./data") as [E|[E _]]; congruence. }
  split; [by apply Hd2|].
  split; [by eapply grows_trans|].
  split; [by eapply fs_step_trans|].
  by rewrite Ht2, Ht.
Qed.

Lemma seq_num_spec (existing : list string) seq_num :
  match existing with
  | [] => seq_num = "0001"
  | _ =>
      exists seqs,
        Forall2 (fun d n => PyStr.int_of_str (suffix_of d) = Some n) existing seqs /\
        seq_num = PyStr.zfill 4 (PyStr.str_of_int
                    (foldl Z.max (default 0 (head seqs)) seqs + 1))
  end ->
  exists m,
    all_chars PyStr.is_digit seq_num = true /\
    PyStr.int_of_str seq_num = Some (m + 1) /\
    forall d, d ∈ existing ->
      exists n, PyStr.int_of_str (suffix_of d) = Some n /\ n <= m.
Proof.
  destruct existing as [|d0 ds].
  - intros ->. exists 0. split; [done|]. split; [done|].
    intros d Hd. by apply elem_of_nil in Hd.
  - intros (seqs & HF & ->).
    set (m := foldl Z.max (default 0 (head seqs)) seqs).
    assert (forall d, d ∈ d0 :: ds ->
              exists n, PyStr.int_of_str (suffix_of d) = Some n /\ 0 <= n <= m) as Hall.
    { intros d Hd. apply list_elem_of_lookup in Hd as [i Hi].
      destruct (Forall2_lookup_l _ _ _ _ _ HF Hi) as (n & Hn & Hdn).
      exists n. split; [done|]. split.
      - eapply int_of_str_nonneg; [|exact Hdn]. apply suffix_of_no_dash.
      - apply foldl_max_head. by eapply list_elem_of_lookup_2. }
    destruct (Hall d0 (list_elem_of_here _ _)) as (n0 & _ & Hn0).
    exists m. split; [apply zfill_digits; lia|].
    split; [apply int_of_zfill; lia|].
    intros d Hd. destruct (Hall d Hd) as (n & ? & ?). exists n. split; [done|lia].
Qed.

(** The number that is chosen makes a name that no entry of [./data]
    has: an entry of that name would have been counted. *)
Lemma numbered_path_is_new base w r w1 seq_num :
  PyStr.contains "/" base = false ->
  Os.makedirs "./data" w = (r, w1) ->
  match filter (fun d => PyStr.startswith d base) (entries "./data" (fs w1)) with
  | [] => seq_num = "0001"
  | _ =>
      exists seqs,
        Forall2 (fun d n => PyStr.int_of_str (suffix_of d) = Some n)
                (filter (fun d => PyStr.startswith d base) (entries "./data" (fs w1)))
                seqs /\
        seq_num = PyStr.zfill 4 (PyStr.str_of_int
                    (foldl Z.max (default 0 (head seqs)) seqs + 1))
  end ->
  fs w !! ("./data/" +:+ base +:+ "-" +:+ seq_num) = None.
Proof.
  intros Hbase Hmk Hseq.
  apply seq_num_spec in Hseq as (m & Hdig & Hint & Hall).
  set (name := base +:+ "-" +:+ seq_num).
  destruct (fs w !! ("./data/" +:+ base +:+ "-" +:+ seq_num)) as [x|] eqn:E; [|done].
  exfalso.
  assert (name ∈ entries "./data" (fs w)) as Hin.
  { apply elem_of_entries. split; [by destruct base|]. split.
    - unfold name. rewrite !contains_append, Hbase.
      by rewrite (contains_digits "/" seq_num).
    - change ("./data" +:+ "/" +:+ name) with ("./data/" +:+ base +:+ "-" +:+ seq_num).
      by rewrite E. }
  apply (data_entries_kept _ _ _ _ Hmk) in Hin.
  destruct (Hall name) as (n & Hn & Hle).
  { apply list_elem_of_filter. split; [|done].
    unfold PyStr.startswith, name. by rewrite str_prefix_app. }
  unfold name in Hn. rewrite suffix_of_join in Hn by (by apply contains_digits).
  rewrite Hint in Hn. injection Hn as <-. lia.
Qed.

(** X2. The directory a successful call returns was not there before the
    call, when the base name has no slash: the name is a new one. *)
Theorem create_data_directory_fresh custom_name w path w' :
  PyStr.contains "/" (base_name_of secure_filename custom_name w) = false ->
  create_data_directory secure_filename custom_name w = (Ok path, w') ->
  fs w !! path = None.
Proof.
  intros Hbase H. apply create_data_directory_ok in H as (w1 & seq_num & H).
  cbv zeta in H. destruct H as (Hmk & -> & _ & Hseq).
  eapply numbered_path_is_new; [done|exact Hmk|].
  by destruct (filter _ _).
Qed.

(** X3. When no entry of [./data] starts with the base name, and nothing
    stands in the way of the directories, the call succeeds and the
    number is 0001. *)
Theorem create_data_directory_first custom_name w :
  let base := base_name_of secure_filename custom_name w in
  let path := "./data/" +:+ base +:+ "-0001" in
  not_a_file (fs w) "." -> not_a_file (fs w) "./data" ->
  PyStr.contains "/" base = false ->
  Forall (fun name => PyStr.startswith name base = false) (entries "./data" (fs w)) ->
  exists w',
    create_data_directory secure_filename custom_name w = (Ok path, w') /\
    fs w !! path = None /\ fs w' !! path = Some Dir.
Proof.
  intros base path Hdot Hdata Hbase Hnone.
  destruct (makedirs_succeeds "./data" w) as [w1 Hmk]; [done|done|by repeat constructor|].
  pose proof (makedirs_spec _ _ _ _ Hmk) as (_ & (_ & _ & _ & Htoday) & Hg & Hd).
  assert (fs w !! path = None) as Hfresh.
  { destruct (fs w !! path) as [x|] eqn:E; [|done]. exfalso.
    assert (base +:+ "-0001" ∈ entries "./data" (fs w)) as Hin.
    { apply elem_of_entries. split; [by destruct base|]. split.
      - by rewrite contains_append, Hbase.
      - change ("./data" +:+ "/" +:+ base +:+ "-0001") with path. by rewrite E. }
    eapply (proj1 (Forall_forall _ _)) in Hnone; [|exact Hin].
    unfold PyStr.startswith in Hnone. by rewrite str_prefix_app in Hnone. }
  assert (filter (fun d => PyStr.startswith d base) (entries "./data" (fs w1)) = []) as Hex.
  { apply filter_nothing. apply Forall_forall. intros name Hin.
    apply (data_entries_kept _ _ _ _ Hmk) in Hin.
    eapply (proj1 (Forall_forall _ _)) in Hnone; [|exact Hin].
    rewrite Hnone. exact id. }
  destruct (makedirs_succeeds path w1) as [w' Hmk2].
  { by destruct base. }
  { eapply grows_not_a_file; [exact Hg|]. intros c. by rewrite Hfresh. }
  { unfold path. rewrite ancestors_data by (by rewrite contains_append, Hbase).
    repeat constructor; by eapply grows_not_a_file. }
  exists w'. split; [|split; [done|]].
  - unfold create_data_directory, bind at 1. rewrite Hmk.
    unfold bind at 1, get_world at 1.
    unfold bind at 1, Os.listdir, bind at 1, get_world at 1.
    rewrite (Hd eq_refl). unfold ret at 1.
    fold (entries "./data" (fs w1)).
    replace (if truthy custom_name then secure_filename (default "" custom_name)
             else today w1) with base
      by (unfold base, base_name_of; by rewrite Htoday).
    rewrite Hex. unfold bind at 1, ret at 1.
    change (Os.path_join "./data" (base +:+ "-" +:+ "0001")) with path.
    unfold bind. by rewrite Hmk2.
  - by apply (makedirs_spec _ _ _ _ Hmk2).
Qed.

(** X4. An entry of [./data] that starts with the base name and whose
    last dash-separated piece is not a number makes the call raise
    [ValueError]; only [./data] has been made by then. *)
Theorem create_data_directory_bad_suffix custom_name w name :
  let base := base_name_of secure_filename custom_name w in
  not_a_file (fs w) "." -> not_a_file (fs w) "./data" ->
  name ∈ entries "./data" (fs w) ->
  PyStr.startswith name base = true ->
  PyStr.int_of_str (suffix_of name) = None ->
  exists msg w',
    create_data_directory secure_filename custom_name w
    = (Raise (Exn ValueError msg), w') /\
    trace w' = EvMakedirs "./data" :: trace w /\
    grows (fs w) (fs w').
Proof.
  intros base Hdot Hdata Hin Hpre Hbad.
  destruct (makedirs_succeeds "./data" w) as [w1 Hmk]; [done|done|by repeat constructor|].
  pose proof (makedirs_spec _ _ _ _ Hmk) as (Ht & (_ & _ & _ & Htoday) & Hg & Hd).
  apply (data_entries_kept _ _ _ _ Hmk) in Hin.
  assert (name ∈ filter (fun d => PyStr.startswith d base) (entries "./data" (fs w1)))
    as Hex by (apply list_elem_of_filter; by rewrite Hpre).
  destruct (mapM_read_seq_raise _ w1 name Hex Hbad) as [msg Hm].
  exists msg, w1. split; [|done].
  unfold create_data_directory, bind at 1. rewrite Hmk.
  unfold bind at 1, get_world at 1.
  unfold bind at 1, Os.listdir, bind at 1, get_world at 1.
  rewrite (Hd eq_refl). unfold ret at 1.
  fold (entries "./data" (fs w1)).
  replace (if truthy custom_name then secure_filename (default "" custom_name)
           else today w1) with base
    by (unfold base, base_name_of; by rewrite Htoday).
  destruct (filter _ _) as [|d0 ds] eqn:Hf; [by apply elem_of_nil in Hex|].
  unfold bind at 1. unfold bind at 1.
  fold read_seq. by rewrite Hm.
Qed.

End CreateDataDirectory.

(** X1, witness: the name "run" where runs 1 and 7 exist gives run 8. *)
Lemma create_data_directory_creates_witness :
  let w := Scenario.w_numbered in
  let w' := (create_data_directory Example.secure_filename (Some "run") w).2 in
  (exists seq_num,
     "./data/run-0008"
     = "./data/" +:+ base_name_of Example.secure_filename (Some "run") w
       +:+ "-" +:+ seq_num) /\
  fs w' !! "./data" = Some Dir /\
  fs w' !! "./data/run-0008" = Some Dir /\
  grows (fs w) (fs w') /\
  fs_step w w' /\
  trace w' = EvMakedirs "./data/run-0008" :: EvMakedirs "./data" :: trace w.
Proof.
  apply (create_data_directory_creates Example.secure_filename (Some "run")
           Scenario.w_numbered "./data/run-0008").
  - vm_compute; reflexivity.
  - vm_compute; reflexivity.
Defined.


(** X2, witness: the directory of run 8 was not there before. *)
Lemma create_data_directory_fresh_witness :
  let w := Scenario.w_numbered in
  (create_data_directory Example.secure_filename (Some "run") w).1
  = Ok "./data/run-0008" /\
  fs w !! "./data/run-0008" = None.
Proof.
  split; [vm_compute; reflexivity|].
  apply (create_data_directory_fresh Example.secure_filename (Some "run")
           Scenario.w_numbered "./data/run-0008"
           (create_data_directory Example.secure_filename (Some "run")
              Scenario.w_numbered).2);
    vm_compute; reflexivity.
Defined.


(** X3, witness: on an empty file system the first run of the day is number 1. *)
Lemma create_data_directory_first_witness :
  let w := Example.w_empty in
  exists w',
    create_data_directory Example.secure_filename None w
    = (Ok "./data/03-Nov-2026-0001", w') /\
    fs w !! "./data/03-Nov-2026-0001" = None /\
    fs w' !! "./data/03-Nov-2026-0001" = Some Dir.
Proof.
  apply (create_data_directory_first Example.secure_filename None Example.w_empty).
  - intros c. vm_compute. discriminate.
  - intros c. vm_compute. discriminate.
  - vm_compute; reflexivity.
  - vm_compute. constructor.
Defined.


(** X4, witness: a directory "run-final" stops every later run named "run". *)
Lemma create_data_directory_bad_suffix_witness :
  let w := Scenario.w_unnumbered in
  exists msg w',
    create_data_directory Example.secure_filename (Some "run") w
    = (Raise (Exn ValueError msg), w') /\
    trace w' = EvMakedirs "./data" :: trace w /\
    grows (fs w) (fs w').
Proof.
  apply (create_data_directory_bad_suffix Example.secure_filename (Some "run")
           Scenario.w_unnumbered "run-final").
  - intros c. vm_compute. discriminate.
  - intros c. vm_compute. discriminate.
  - vm_compute. apply list_elem_of_here.
  - vm_compute; reflexivity.
  - vm_compute; reflexivity.
Defined.


Lemma filterM_isdir d names w :
  filterM (fun f => Os.isdir (Os.path_join d f)) names w
  = (Ok (filter (fun name => is_dir (fs w) (Os.path_join d name)) names), w).
Proof.
  induction names as [|x names IH]; [done|].
  cbn [filterM]. unfold bind at 1, Os.isdir at 1, bind at 1, get_world, ret at 1.
  unfold bind at 1. rewrite IH. unfold ret.
  fold (is_dir (fs w) (Os.path_join d x)).
  destruct (is_dir (fs w) (Os.path_join d x)) eqn:E.
  - by rewrite filter_cons_True by (by rewrite E).
  - by rewrite filter_cons_False by (rewrite E; exact id).
Qed.

Lemma max_str_None l : max_str l = None <-> l = [].
Proof. by destruct l. Qed.

Lemma str_leb_refl s : String.leb s s = true.
Proof. apply Is_true_true. apply (reflexivity (R := String.le)). Qed.

Lemma str_leb_trans s1 s2 s3 :
  String.leb s1 s2 = true -> String.leb s2 s3 = true -> String.leb s1 s3 = true.
Proof.
  intros H1%Is_true_true H2%Is_true_true. apply Is_true_true.
  by apply (transitivity (R := String.le) H1).
Qed.

Lemma foldl_max_str x l :
  let m := foldl (fun a b => if String.leb a b then b else a) x l in
  (m = x \/ m ∈ l) /\ String.leb x m = true /\ forall y, y ∈ l -> String.leb y m = true.
Proof.
  revert x. induction l as [|b l IH]; intros x; cbn [foldl].
  - split; [by left|]. split; [apply str_leb_refl|].
    intros y Hy. by apply elem_of_nil in Hy.
  - destruct (IH (if String.leb x b then b else x)) as (Hin & Hx & Hall).
    cbv zeta in *. set (m := foldl _ _ l) in *.
    destruct (String.leb x b) eqn:E.
    + split; [|split].
      * destruct Hin as [->|Hin]; right; [apply list_elem_of_here|by apply list_elem_of_further].
      * by eapply str_leb_trans.
      * intros y [->|Hy]%elem_of_cons; [done|by apply Hall].
    + split; [|split].
      * destruct Hin as [->|Hin]; [by left|right; by apply list_elem_of_further].
      * done.
      * intros y [->|Hy]%elem_of_cons; [|by apply Hall].
        destruct (String.leb_total x b) as [H|H]; [congruence|].
        by eapply str_leb_trans.
Qed.

Lemma max_str_Some l m :
  max_str l = Some m -> m ∈ l /\ forall y, y ∈ l -> String.leb y m = true.
Proof.
  destruct l as [|x l]; [done|]. intros [= <-].
  destruct (foldl_max_str x l) as (Hin & Hx & Hall). cbv zeta in *. split.
  - destruct Hin as [->|Hin]; [apply list_elem_of_here|by apply list_elem_of_further].
  - intros y [->|Hy]%elem_of_cons; auto.
Qed.

(** What [find_latest_model_config] computes. *)
Lemma find_latest_eq d w :
  find_latest_model_config d w =
  match fs w !! d with
  | None => (Ok (None, None), w)
  | Some (File _) => Os.os_error NotADirectoryError d w
  | Some Dir =>
      match max_str (model_folders d (fs w)) with
      | None => (Ok (None, None), w)
      | Some latest =>
          let p := Os.path_join (Os.path_join d latest) "config.json" in
          (Ok (Some latest, if bool_decide (is_Some (fs w !! p)) then Some p else None), w)
      end
  end.
Proof.
  unfold find_latest_model_config.
  unfold bind at 1, Os.exists_ at 1, bind at 1, get_world, ret at 1.
  destruct (fs w !! d) as [[|c]|] eqn:E.
  - rewrite bool_decide_eq_true_2 by eauto. cbn [negb].
    unfold bind at 1, Os.listdir, bind at 1, get_world. rewrite E. unfold ret at 1.
    unfold bind at 1. rewrite filterM_isdir.
    fold (entries d (fs w)). fold (model_folders d (fs w)).
    destruct (max_str _); [|done].
    unfold bind, Os.exists_, bind, get_world, ret. done.
  - rewrite bool_decide_eq_true_2 by eauto. cbn [negb].
    unfold bind at 1, Os.listdir, bind at 1, get_world. by rewrite E.
  - rewrite bool_decide_eq_false_2 by (by intros [? ?]). done.
Qed.

(** X5. The model [find_latest_model_config] returns is a directory of
    the model directory and the greatest of them in the order of
    strings; its configuration path is returned when something stands at
    that path.  The call changes nothing. *)
Theorem find_latest_is_greatest d w latest config_path w' :
  find_latest_model_config d w = (Ok (Some latest, config_path), w') ->
  w' = w /\
  latest ∈ model_folders d (fs w) /\
  (forall name, name ∈ model_folders d (fs w) -> String.leb name latest = true) /\
  let p := Os.path_join (Os.path_join d latest) "config.json" in
  config_path = if bool_decide (is_Some (fs w !! p)) then Some p else None.
Proof.
  rewrite find_latest_eq.
  destruct (fs w !! d) as [[|c]|]; [|done..].
  destruct (max_str _) as [m|] eqn:E; [|done].
  intros [= <- <- <-]. apply max_str_Some in E as [Hin Hmax]. done.
Qed.

(** X5, witness: of "bert-v1" and "bert-v2" the second is returned, with its config file. *)
Lemma find_latest_is_greatest_witness :
  let w := Scenario.w_models in
  w = w /\
  "bert-v2" ∈ model_folders "./models" (fs w) /\
  (forall name, name ∈ model_folders "./models" (fs w) ->
                String.leb name "bert-v2" = true) /\
  let p := Os.path_join (Os.path_join "./models" "bert-v2") "config.json" in
  Some "./models/bert-v2/config.json"
  = if bool_decide (is_Some (fs w !! p)) then Some p else None.
Proof.
  apply (find_latest_is_greatest "./models" Scenario.w_models "bert-v2"
           (Some "./models/bert-v2/config.json")).
  vm_compute; reflexivity.
Defined.


(** X6. Without a model directory the answer is [(None, None)]; with a
    file in its place the call raises [NotADirectoryError]; with a
    directory the answer is [(None, None)] exactly when it has no
    subdirectory. *)
Theorem find_latest_without_model d w :
  match fs w !! d with
  | None => find_latest_model_config d w = (Ok (None, None), w)
  | Some (File _) =>
      exists msg,
        find_latest_model_config d w = (Raise (Exn NotADirectoryError msg), w)
  | Some Dir =>
      model_folders d (fs w) = []
      <-> find_latest_model_config d w = (Ok (None, None), w)
  end.
Proof.
  rewrite find_latest_eq.
  destruct (fs w !! d) as [[|c]|]; [|eauto|done].
  destruct (max_str _) as [m|] eqn:E.
  - split; [|done]. intros H. by rewrite H in E.
  - by apply max_str_None in E.
Qed.

Lemma int_keys_id2label m acc :
  NoDup (PyDict.keys (acc ++ m)) -> int_keys (id2label_of m) acc = Ok (acc ++ m).
Proof.
  revert acc. induction m as [|[n v] m IH]; intros acc Hnd.
  - simpl. by rewrite app_nil_r.
  - cbn [id2label_of fmap list_fmap int_keys fst snd].
    rewrite int_of_str_of_int.
    assert (PyDict.get acc n = None) as Hn.
    { apply get_None. unfold PyDict.keys in *.
      rewrite fmap_app in Hnd. apply NoDup_app in Hnd as (_ & Hd & _).
      intros Hin. apply (Hd n Hin). apply list_elem_of_here. }
    rewrite set_fresh by done.
    fold (id2label_of m). rewrite IH; rewrite <- (assoc_L (++)); done.
Qed.

Lemma int_keys_get items acc m n :
  int_keys items acc = Ok m ->
  PyDict.get m n = match last (items_for n items) with
                   | Some kv => Some kv.2
                   | None => PyDict.get acc n
                   end.
Proof.
  revert acc. induction items as [|[k v] items IH]; intros acc; cbn [int_keys].
  - by intros [= <-].
  - destruct (PyStr.int_of_str k) as [n0|] eqn:E; [|done].
    intros H. rewrite (IH _ H). unfold items_for.
    destruct (decide (n0 = n)) as [->|Hne].
    + rewrite filter_cons_True by done. fold (items_for n items).
      destruct (items_for n items) as [|kv l] eqn:El.
      * simpl. by rewrite get_set_eq.
      * change (last ((k, v) :: kv :: l)) with (last (kv :: l)).
        destruct (last (kv :: l)) eqn:E2; [done|]. by apply last_None in E2.
    + rewrite filter_cons_False by (simpl; congruence).
      fold (items_for n items). by rewrite get_set_ne.
Qed.

Lemma int_keys_raise items acc k v :
  (k, v) ∈ items -> PyStr.int_of_str k = None ->
  exists msg, int_keys items acc = Raise (Exn ValueError msg).
Proof.
  intros Hin Hk. revert acc. induction items as [|[k0 v0] items IH]; intros acc.
  - by apply elem_of_nil in Hin.
  - cbn [int_keys]. destruct (PyStr.int_of_str k0) as [n0|] eqn:E; [|eauto].
    apply elem_of_cons in Hin as [[= <- <-]|Hin]; [congruence|]. by apply IH.
Qed.

(** What a successful load read. *)
Lemma load_custom_map_ok jl p w m w' :
  load_custom_map_from_json jl p w = (Ok m, w') ->
  exists raw id2label,
    fs w !! p = Some (File raw) /\
    jl (PyStr.universal_newlines raw) = ConfigObject id2label /\
    int_keys (default [] id2label) [] = Ok m.
Proof.
  unfold load_custom_map_from_json. intros H.
  apply bind_ok in H as (text & w1 & Hr & H).
  apply read_text_spec in Hr as (_ & _ & _ & Hr).
  destruct (Hr text eq_refl) as (raw & Hraw & ->).
  exists raw. destruct (jl _) as [| |id2label] eqn:E; [done..|].
  exists id2label. unfold lift in H. by injection H as -> _.
Qed.

(** X7. A configuration whose [id2label] holds a table with distinct
    ids, each written in decimal, is read back as that table, in its
    order. *)
Theorem load_custom_map_round_trip jl p w raw m :
  fs w !! p = Some (File raw) ->
  jl (PyStr.universal_newlines raw) = ConfigObject (Some (id2label_of m)) ->
  NoDup (PyDict.keys m) ->
  exists w',
    load_custom_map_from_json jl p w = (Ok m, w') /\
    fs w' = fs w /\ heap w' = heap w.
Proof.
  intros Hraw Hjl Hnd.
  destruct (load_custom_map_from_json jl p w) as [res w'] eqn:E.
  exists w'. pose proof (load_custom_map_spec _ _ _ _ _ E) as (Hh & Hf & _).
  split; [|done]. revert E.
  unfold load_custom_map_from_json, bind, Os.read_text, bind, log, get_world, ret.
  simpl. rewrite Hraw, Hjl. unfold lift. cbn [default from_option id].
  rewrite (int_keys_id2label m []) by done. by intros [= <- <-].
Qed.

(** X7, witness: a config file with the labels of ids 0 and 1. *)
Lemma load_custom_map_round_trip_witness :
  let w := Scenario.w_models in
  exists w',
    load_custom_map_from_json Scenario.json_load_config
      "./models/bert-v2/config.json" w
    = (Ok [(0, "O"); (1, "B-PER")], w') /\
    fs w' = fs w /\ heap w' = heap w.
Proof.
  apply (load_custom_map_round_trip Scenario.json_load_config
           "./models/bert-v2/config.json" Scenario.w_models Scenario.config_text
           [(0, "O"); (1, "B-PER")]).
  - vm_compute; reflexivity.
  - vm_compute; reflexivity.
  - refine (bool_decide_unpack _ _). vm_compute. exact I.
Defined.


(** X8. The table a successful load returns has distinct ids, and the
    tag of an id is the value of the last item of [id2label] whose key
    reads as that id; an id no key reads as has no tag.  Without an
    [id2label] member the table is empty. *)
Theorem load_custom_map_last_wins jl p w m w' :
  load_custom_map_from_json jl p w = (Ok m, w') ->
  exists raw id2label,
    fs w !! p = Some (File raw) /\
    jl (PyStr.universal_newlines raw) = ConfigObject id2label /\
    (id2label = None -> m = []) /\
    NoDup (PyDict.keys m) /\
    forall n, PyDict.get m n
              = snd <$> last (items_for n (default [] id2label)).
Proof.
  intros H. pose proof (load_custom_map_NoDup _ _ _ _ _ H) as Hnd.
  apply load_custom_map_ok in H as (raw & id2label & Hraw & Hjl & Hk).
  exists raw, id2label. split; [done|]. split; [done|].
  split; [intros ->; simpl in Hk; congruence|]. split; [done|].
  intros n. rewrite (int_keys_get _ _ _ n Hk).
  by destruct (last _).
Qed.

(** X8, witness: the same config file, read entry by entry. *)
Lemma load_custom_map_last_wins_witness :
  let w := Scenario.w_models in
  let m := [(0, "O"); (1, "B-PER")] in
  exists raw id2label,
    fs w !! "./models/bert-v2/config.json" = Some (File raw) /\
    Scenario.json_load_config (PyStr.universal_newlines raw) = ConfigObject id2label /\
    (id2label = None -> m = []) /\
    NoDup (PyDict.keys m) /\
    forall n, PyDict.get m n = snd <$> last (items_for n (default [] id2label)).
Proof.
  apply (load_custom_map_last_wins Scenario.json_load_config
           "./models/bert-v2/config.json" Scenario.w_models [(0, "O"); (1, "B-PER")]
           (load_custom_map_from_json Scenario.json_load_config
              "./models/bert-v2/config.json" Scenario.w_models).2).
  vm_compute; reflexivity.
Defined.


(** X9. A key of [id2label] that is not an integer literal makes the
    load raise [ValueError]; the file system and the heap are as
    before. *)
Theorem load_custom_map_bad_key jl p w raw items k v :
  fs w !! p = Some (File raw) ->
  jl (PyStr.universal_newlines raw) = ConfigObject (Some items) ->
  (k, v) ∈ items -> PyStr.int_of_str k = None ->
  exists msg w',
    load_custom_map_from_json jl p w = (Raise (Exn ValueError msg), w') /\
    fs w' = fs w /\ heap w' = heap w.
Proof.
  intros Hraw Hjl Hin Hk.
  destruct (int_keys_raise items [] k v Hin Hk) as [msg Hmsg].
  destruct (load_custom_map_from_json jl p w) as [res w'] eqn:E.
  exists msg, w'. pose proof (load_custom_map_spec _ _ _ _ _ E) as (Hh & Hf & _).
  split; [|done]. revert E.
  unfold load_custom_map_from_json, bind, Os.read_text, bind, log, get_world, ret.
  simpl. rewrite Hraw, Hjl. unfold lift. cbn [default from_option id].
  rewrite Hmsg. by intros [= <- <-].
Qed.

(** X9, witness: a config file with the key "one". *)
Lemma load_custom_map_bad_key_witness :
  let w := Scenario.w_models in
  exists msg w',
    load_custom_map_from_json Scenario.json_load_config
      "./models/bert-v1/config.json" w
    = (Raise (Exn ValueError msg), w') /\
    fs w' = fs w /\ heap w' = heap w.
Proof.
  apply (load_custom_map_bad_key Scenario.json_load_config
           "./models/bert-v1/config.json" Scenario.w_models Scenario.bad_config_text
           [("0", "O"); ("one", "B-PER")] "one" "B-PER").
  - vm_compute; reflexivity.
  - vm_compute; reflexivity.
  - apply list_elem_of_further, list_elem_of_here.
  - vm_compute; reflexivity.
Defined.


Lemma record_ids_S n :
  record_ids (S n) = record_ids n ++ [PyStr.str_of_int (Z.of_nat n)].
Proof. unfold record_ids. by rewrite seq_S, fmap_app. Qed.

Lemma init_records_ok m : records_ok (init_locals m).
Proof. by split. Qed.

Lemma close_sentence_records st : records_ok st -> records_ok (close_sentence st).
Proof.
  intros [H1 H2 H3 H4 H5]. unfold close_sentence.
  destruct (tokens (current_sentence st)) as [|t ts] eqn:E; [by split; rewrite ?E|].
  split; simpl.
  - rewrite length_app, H1. simpl. lia.
  - done.
  - rewrite fmap_app, length_app, H3. simpl.
    rewrite Nat.add_1_r, record_ids_S. by rewrite H2, H1.
  - apply Forall_app. split; [done|]. constructor; [|done].
    split; by rewrite E.
  - done.
Qed.

Lemma add_token_records ign st token tag st' :
  add_token ign st token tag = Ok st' -> records_ok st -> records_ok st'.
Proof.
  intros (i & _ & ->)%add_token_ok [H1 H2 H3 H4 H5]. split; simpl; try done.
  rewrite !length_app, H5. done.
Qed.

Lemma process_lines_records_ok ign lines st st' err :
  process_lines ign st lines = (st', err) -> records_ok st -> records_ok st'.
Proof.
  revert st. induction lines as [|line lines IH]; intros st; simpl.
  - by intros [= <- _].
  - destruct (process_line ign st line) as [st1|e] eqn:E; [|by intros [= <- _]].
    intros H Hok. apply (IH _ H). rewrite process_line_kind in E.
    destruct (kind_of line) as [|token tag|].
    + injection E as <-. by apply close_sentence_records.
    + by eapply add_token_records.
    + by injection E as <-.
Qed.

Lemma last_sentence_records st :
  records_ok st ->
  id_ <$> last_sentence st = record_ids (length (last_sentence st)) /\
  Forall well_formed (last_sentence st).
Proof.
  intros [H1 H2 H3 H4 H5]. unfold last_sentence.
  destruct (tokens (current_sentence st)) as [|t ts] eqn:E; [done|].
  split.
  - rewrite fmap_app, length_app, H3. simpl.
    rewrite Nat.add_1_r, record_ids_S. by rewrite H2, H1.
  - apply Forall_app. split; [done|]. constructor; [|done].
    split; by rewrite E.
Qed.

(** X10. The records a conversion writes are numbered ["0"], ["1"], ...
    in their order; each has at least one token and as many tag ids as
    tokens; and the summary counts them. *)
Theorem records_numbered jl inp out cmf arg ign w s w' :
  out <> cmf ->
  conll_to_json jl inp out cmf arg ign w = (Ok s, w') ->
  exists records,
    fs w' !! out = Some (File (json_lines records)) /\
    sentences_processed s = Z.of_nat (length records) /\
    id_ <$> records = record_ids (length records) /\
    Forall well_formed records.
Proof.
  intros Hne H.
  apply conversion_ok in H as (raw & m0 & st & _ & _ & _ & Hrun & -> & _ & Hfs).
  exists (last_sentence st). split.
  { rewrite Hfs, lookup_insert_ne by done. apply lookup_insert_eq. }
  split; [done|]. apply last_sentence_records.
  eapply process_lines_records_ok; [exact Hrun|apply init_records_ok].
Qed.

(** X10, witness: a corpus of two sentences. *)
Lemma records_numbered_witness :
  let w := Example.w_four_columns in
  let out := conll_to_json Example.json_load_config "in.conll" "out.json"
               "class_mapping.py" None true w in
  exists records,
    fs out.2 !! "out.json" = Some (File (json_lines records)) /\
    sentences_processed (Summary 2 2 [("B-PER", 2); ("O", 2)] ({["B-PER"]} ∪ {["O"]}))
    = Z.of_nat (length records) /\
    id_ <$> records = record_ids (length records) /\
    Forall well_formed records.
Proof.
  apply (records_numbered Example.json_load_config "in.conll" "out.json"
           "class_mapping.py" None true Example.w_four_columns).
  - discriminate.
  - vm_compute; reflexivity.
Defined.


(** ** Strict conversions *)

Lemma process_lines_strict lines st st' err :
  process_lines false st lines = (st', err) -> registry st' = registry st.
Proof.
  intros H.
  apply (process_lines_registry_ind (fun s => registry s = registry st) false)
    with (lines := lines) (st := st) (err := err); [| |done|done].
  - intros s s' Hr Hs. congruence.
  - intros s tag Hs. by rewrite lookup_tag_strict.
Qed.

Lemma run_strict m text st err :
  run false m text = (st, err) ->
  custom_mapping st = m /\ new_entities_ st = ∅ /\ tag_dict st = inverse m.
Proof.
  intros H%process_lines_strict. by injection H as -> _ -> ->.
Qed.

(** X11. A strict conversion (no dynamic registration) never changes the
    table it is given, however it ends; when it returns, it reports no
    new tag, and as many tags as the table had. *)
Theorem strict_conversion_keeps_table jl inp out cmf r w res w' m :
  heap w !! r = Some m ->
  conll_to_json jl inp out cmf (Some r) false w = (res, w') ->
  heap w' = heap w /\
  forall s, res = Ok s ->
    new_entities s = ∅ /\ unique_tags s = Z.of_nat (length m).
Proof.
  intros Hr H.
  destruct (convert_with_ref _ _ _ _ _ _ _ _ _ _ H Hr)
    as [(raw & st & err & Hin & Hrun & Hheap & Hres)|(Hh & _ & e & ->)]; [|done].
  apply run_strict in Hrun as (Hm & Hnew & _).
  split; [rewrite Hheap, Hm; by apply insert_id|].
  intros s ->. destruct err as [e|]; [by destruct Hres|].
  destruct Hres as [[[= ->] _]|[e ?]]; [|done].
  simpl. by rewrite Hnew, Hm.
Qed.

(** X11, witness: a strict conversion over the table that holds "O". *)
Lemma strict_conversion_keeps_table_witness :
  let w := Example.w_only_O in
  let out := conll_to_json Example.json_load_config "in.conll" "out.json"
               "class_mapping.py" (Some 0%nat) false w in
  heap out.2 = heap w /\
  forall s, out.1 = Ok s ->
    new_entities s = ∅ /\ unique_tags s = Z.of_nat (length [(0, "O")]).
Proof.
  apply (strict_conversion_keeps_table Example.json_load_config "in.conll" "out.json"
           "class_mapping.py" 0%nat Example.w_only_O).
  - vm_compute; reflexivity.
  - apply surjective_pairing.
Defined.


(** The conversion on a table of the heap, once its input is read. *)
Lemma convert_with_ref_run jl inp out cmf r ign w m raw st err :
  heap w !! r = Some m ->
  fs w !! inp = Some (File raw) ->
  run ign m (PyStr.universal_newlines raw) = (st, err) ->
  conll_to_json jl inp out cmf (Some r) ign w =
  match err with
  | Some e => (Raise e, after_loop w inp r (custom_mapping st))
  | None =>
      (Os.write_file out (json_lines (last_sentence st)) ;;;
       Os.write_file cmf (class_mapping_text (custom_mapping st)) ;;;
       ret (summary_of st)) (after_loop w inp r (custom_mapping st))
  end.
Proof.
  intros Hr Hin Hrun. unfold conll_to_json.
  unfold bind at 1, ret at 1.
  unfold bind at 1, deref, bind at 1, get_world. rewrite Hr. unfold ret at 1.
  unfold bind at 1, Os.read_text, bind at 1, log, bind at 1, get_world.
  simpl. rewrite Hin. unfold ret at 1.
  unfold run in Hrun. rewrite Hrun.
  unfold bind at 1, store, bind at 1, get_world, set_heap. simpl.
  by destruct err.
Qed.

Lemma process_lines_key_error lines st tag :
  PyDict.mem (tag_dict st) "O" = false ->
  tag ∈ tags_of lines -> PyDict.mem (tag_dict st) tag = false ->
  exists st', process_lines false st lines = (st', Some (Exn KeyError "'O'")).
Proof.
  intros HO Hin Htag. revert st HO Htag Hin.
  induction lines as [|line lines IH]; intros st HO Htag Hin.
  - by apply elem_of_nil in Hin.
  - rewrite tags_of_cons in Hin. cbn [process_lines].
    rewrite process_line_kind.
    destruct (kind_of line) as [|token t|].
    + apply IH; try done; by rewrite close_sentence_tag_dict.
    + unfold add_token, lookup_tag.
      destruct (PyDict.mem (tag_dict st) t) eqn:Ht.
      * apply mem_true in Ht as [i Hi]. rewrite Hi.
        apply IH; try done.
        apply elem_of_cons in Hin as [->|Hin]; [|done].
        apply mem_false in Htag. congruence.
      * apply mem_false in HO. rewrite HO. eauto.
    + by apply IH.
Qed.

(** X12. A strict conversion of a corpus that has a tag the table does
    not know, with a table that does not know ["O"] either, raises
    [KeyError] for ['O']; no file is written and the table is as
    before. *)
Theorem strict_conversion_key_error jl inp out cmf r w m raw tag :
  heap w !! r = Some m ->
  fs w !! inp = Some (File raw) ->
  PyDict.mem (inverse m) "O" = false ->
  tag ∈ tags_of (PyStr.lines (PyStr.universal_newlines raw)) ->
  PyDict.mem (inverse m) tag = false ->
  exists w',
    conll_to_json jl inp out cmf (Some r) false w
    = (Raise (Exn KeyError "'O'"), w') /\
    fs w' = fs w /\ heap w' = heap w /\ trace w' = EvRead inp :: trace w.
Proof.
  intros Hr Hin HO Htag Hmem.
  destruct (process_lines_key_error _ (init_locals m) tag HO Htag Hmem) as [st Hst].
  fold (run false m (PyStr.universal_newlines raw)) in Hst.
  rewrite (convert_with_ref_run _ _ _ _ _ _ _ _ _ _ _ Hr Hin Hst).
  eexists. split; [done|]. apply run_strict in Hst as (-> & _ & _).
  simpl. split; [done|]. split; [by apply insert_id|done].
Qed.

(** X12, witness: a table without "O" and a corpus with the tag "B-PER". *)
Lemma strict_conversion_key_error_witness :
  let w := Scenario.w_no_O in
  exists w',
    conll_to_json Example.json_load_config "in.conll" "out.json" "class_mapping.py"
      (Some 0%nat) false w
    = (Raise (Exn KeyError "'O'"), w') /\
    fs w' = fs w /\ heap w' = heap w /\ trace w' = EvRead "in.conll" :: trace w.
Proof.
  apply (strict_conversion_key_error Example.json_load_config "in.conll" "out.json"
           "class_mapping.py" 0%nat Scenario.w_no_O [(0, "B-LOC")]
           Example.one_token "B-PER").
  - vm_compute; reflexivity.
  - vm_compute; reflexivity.
  - vm_compute; reflexivity.
  - vm_compute. apply list_elem_of_here.
  - vm_compute; reflexivity.
Defined.


(** ** Conversions that succeed *)

Lemma process_lines_strict_total lines st :
  PyDict.mem (tag_dict st) "O" = true ->
  exists st', process_lines false st lines = (st', None).
Proof.
  revert st. induction lines as [|line lines IH]; intros st HO; simpl; [by eexists|].
  rewrite process_line_kind. destruct (kind_of line) as [|token t|].
  - apply IH. by rewrite close_sentence_tag_dict.
  - unfold add_token, lookup_tag.
    destruct (PyDict.mem (tag_dict st) t) eqn:Ht.
    + apply mem_true in Ht as [i Hi]. rewrite Hi. by apply IH.
    + apply mem_true in HO as [i Hi]. rewrite Hi. apply IH. simpl.
      apply mem_true. by eexists.
  - by apply IH.
Qed.

Lemma write_file_writable p c w :
  writable (fs w) p ->
  exists w', Os.write_file p c w = (Ok tt, w') /\
             fs w' = <[p := File c]> (fs w) /\ heap w' = heap w.
Proof.
  intros (Hp & Hslash & Hpar).
  unfold Os.write_file, Os.os_error, bind, log, get_world, ret, raise, set_fs. simpl.
  rewrite Hslash.
  destruct (fs w !! p) as [[|c0]|] eqn:E; [done|..];
    (destruct (Os.parent p) as [d|]; [rewrite Hpar|]; eauto).
Qed.

Lemma writable_insert f p q c :
  writable f p -> writable f q -> writable (<[q := File c]> f) p.
Proof.
  intros (Hp & Hslash & Hpar) (Hq & _ & _). split; [|split; [done|]].
  - destruct (decide (q = p)) as [->|Hne].
    + by rewrite lookup_insert_eq.
    + by rewrite lookup_insert_ne.
  - destruct (Os.parent p) as [d|]; [|done].
    rewrite lookup_insert_ne; [done|]. intros ->. congruence.
Qed.

Lemma read_text_raises p w e w' :
  Os.read_text p w = (Raise e, w') ->
  exn_class_of e = IsADirectoryError \/ exn_class_of e = FileNotFoundError.
Proof.
  unfold Os.read_text, Os.os_error, bind, log, get_world, ret, raise. simpl.
  destruct (fs w !! p) as [[|raw]|]; intros [= <- _]; auto.
Qed.

Lemma write_file_raises p c w e w' :
  Os.write_file p c w = (Raise e, w') ->
  exn_class_of e = IsADirectoryError \/ exn_class_of e = NotADirectoryError
  \/ exn_class_of e = FileNotFoundError.
Proof.
  unfold Os.write_file, Os.os_error, bind, log, get_world, ret, raise, set_fs. simpl.
  destruct (fs w !! p) as [[|c0]|]; try (intros [= <- _]; by auto);
  destruct (PyStr.startswith _ _); try (intros [= <- _]; by auto);
  destruct (Os.parent p) as [d|]; try (intros [= <- _]; by auto);
  destruct (fs w !! d) as [[|c1]|]; intros [= <- _]; auto.
Qed.

(** The loop raises nothing with dynamic registration, or with a table
    that knows ["O"]. *)
Lemma run_total ign m text :
  ign = true \/ PyDict.mem (inverse m) "O" = true ->
  exists st, run ign m text = (st, None).
Proof.
  intros Hmode. unfold run. destruct Hmode as [->|HO].
  - apply process_lines_total.
  - destruct ign; [apply process_lines_total|].
    by apply process_lines_strict_total.
Qed.

(** X13. With dynamic registration, or with a table that knows ["O"], the
    loop of a conversion on a table of the heap raises nothing: the
    conversion never raises [KeyError], and it returns whenever the read
    of its input succeeds and both outputs can be written. *)
Theorem conversion_succeeds jl inp out cmf r ign w m :
  heap w !! r = Some m ->
  ign = true \/ PyDict.mem (inverse m) "O" = true ->
  (forall res w' e,
     conll_to_json jl inp out cmf (Some r) ign w = (res, w') ->
     res = Raise e -> exn_class_of e <> KeyError) /\
  (forall text w1,
     Os.read_text inp w = (Ok text, w1) ->
     writable (fs w) out -> writable (fs w) cmf ->
     exists s w', conll_to_json jl inp out cmf (Some r) ign w = (Ok s, w')).
Proof.
  intros Hr Hmode. split.
  - intros res w' e H ->.
    unfold conll_to_json in H. unfold bind at 1, ret at 1 in H.
    unfold bind at 1, deref, bind at 1, get_world in H. rewrite Hr in H.
    unfold ret at 1 in H. unfold bind at 1 in H.
    destruct (Os.read_text inp w) as [[text|e0] w1] eqn:Hrd.
    2:{ injection H as <- _. apply read_text_raises in Hrd as [->| ->]; discriminate. }
    destruct (run_total ign m text Hmode) as [st Hst]. unfold run in Hst.
    rewrite Hst in H.
    unfold bind at 1, store, bind at 1, get_world, set_heap, bind at 1 in H.
    simpl in H.
    match type of H with context [Os.write_file out ?c ?w2] =>
      destruct (Os.write_file out c w2) as [[[]|e1] w3] eqn:Hw1 end.
    2:{ injection H as <- _.
        apply write_file_raises in Hw1 as [->|[->| ->]]; discriminate. }
    unfold bind at 1 in H.
    match type of H with context [Os.write_file cmf ?c ?w2] =>
      destruct (Os.write_file cmf c w2) as [[[]|e2] w4] eqn:Hw2 end; [done|].
    injection H as <- _.
    apply write_file_raises in Hw2 as [->|[->| ->]]; discriminate.
  - intros text w1 Hrd Hout Hcmf.
    apply read_text_spec in Hrd as (_ & _ & _ & Hraw).
    destruct (Hraw text eq_refl) as (raw & Hin & ->).
    destruct (run_total ign m (PyStr.universal_newlines raw) Hmode) as [st Hst].
    rewrite (convert_with_ref_run _ _ _ _ _ _ _ _ _ _ _ Hr Hin Hst).
    set (w2 := after_loop _ _ _ _).
    destruct (write_file_writable out (json_lines (last_sentence st)) w2 Hout)
      as (w3 & Hw3 & Hf3 & _).
    destruct (write_file_writable cmf (class_mapping_text (custom_mapping st)) w3)
      as (w4 & Hw4 & _).
    { rewrite Hf3. by apply writable_insert. }
    exists (summary_of st), w4.
    unfold bind at 1. rewrite Hw3. unfold bind at 1. by rewrite Hw4.
Qed.

(** X13, witness: a strict conversion over a table that holds "O", of a
    corpus whose one tag the table does not know. *)
Lemma conversion_succeeds_witness :
  let w := Example.w_only_O in
  (forall res w' e,
     conll_to_json Example.json_load_config "in.conll" "out.json"
       "class_mapping.py" (Some 0%nat) false w = (res, w') ->
     res = Raise e -> exn_class_of e <> KeyError) /\
  exists s w',
    conll_to_json Example.json_load_config "in.conll" "out.json" "class_mapping.py"
      (Some 0%nat) false w
    = (Ok s, w').
Proof.
  destruct (conversion_succeeds Example.json_load_config "in.conll" "out.json"
              "class_mapping.py" 0%nat false Example.w_only_O [(0, "O")])
    as [Hno Hret].
  - vm_compute; reflexivity.
  - right. vm_compute; reflexivity.
  - split; [exact Hno|].
    apply (Hret (PyStr.universal_newlines Example.one_token)
                (Os.read_text "in.conll" Example.w_only_O).2).
    + vm_compute; reflexivity.
    + split; [vm_compute; discriminate|]. split; vm_compute; [reflexivity|exact I].
    + split; [vm_compute; discriminate|]. split; vm_compute; [reflexivity|exact I].
Defined.


(** ** New tags *)

Lemma elem_of_unknown_tags td lines t :
  t ∈ unknown_tags td lines <-> t ∈ tags_of lines /\ PyDict.mem td t = false.
Proof.
  unfold unknown_tags. rewrite elem_of_list_to_set, list_elem_of_filter. tauto.
Qed.

Lemma mem_set (td : list (string * Z)) t k x :
  PyDict.mem (PyDict.set td t k) x = bool_decide (x = t) || PyDict.mem td x.
Proof.
  unfold PyDict.mem. destruct (decide (t = x)) as [->|Hne].
  - rewrite get_set_eq, (bool_decide_eq_true_2 (x = x)) by done.
    by rewrite bool_decide_eq_true_2 by eauto.
  - rewrite get_set_ne by done. by rewrite (bool_decide_eq_false_2 (x = t)) by congruence.
Qed.

Lemma unknown_tags_cons td line lines :
  unknown_tags td (line :: lines) =
  match kind_of line with
  | Token _ t =>
      if PyDict.mem td t then unknown_tags td lines
      else {[t]} ∪ unknown_tags td lines
  | _ => unknown_tags td lines
  end.
Proof.
  unfold unknown_tags. rewrite tags_of_cons.
  destruct (kind_of line) as [|token t|]; [done| |done].
  destruct (PyDict.mem td t) eqn:E.
  - by rewrite filter_cons_False by (rewrite E; discriminate).
  - by rewrite filter_cons_True by done.
Qed.

Lemma unknown_tags_set td t k lines :
  unknown_tags (PyDict.set td t k) lines = unknown_tags td lines ∖ {[t]}.
Proof.
  apply set_eq. intros x.
  rewrite elem_of_difference, !elem_of_unknown_tags, mem_set, elem_of_singleton.
  rewrite orb_false_iff, bool_decide_eq_false. tauto.
Qed.

Lemma process_lines_new_entities lines st st' :
  process_lines true st lines = (st', None) -> registry_ok st ->
  new_entities_ st' = new_entities_ st ∪ unknown_tags (tag_dict st) lines /\
  length (custom_mapping st')
  = (length (custom_mapping st) + size (unknown_tags (tag_dict st) lines))%nat.
Proof.
  revert st. induction lines as [|line lines IH]; intros st.
  - intros [= <-] _.
    assert (unknown_tags (tag_dict st) [] = ∅) as -> by done.
    rewrite (right_id_L ∅ (∪)), size_empty. split; [done|lia].
  - cbn [process_lines].
    destruct (process_line true st line) as [st1|e] eqn:E; [|done].
    intros H Hok. pose proof (process_line_ok _ _ _ _ E Hok) as Hok1.
    destruct (IH _ H Hok1) as [IH1 IH2]. rewrite IH1, IH2. clear IH IH1 IH2 H.
    rewrite unknown_tags_cons. rewrite process_line_kind in E.
    destruct (kind_of line) as [|token t|].
    + injection E as <-.
      pose proof (close_sentence_registry st) as [= -> _ -> ->]. done.
    + apply add_token_ok in E as (i & _ & ->). simpl.
      destruct (PyDict.mem (tag_dict st) t) eqn:Hmem.
      * by rewrite lookup_tag_known.
      * destruct (lookup_tag_new st t Hok Hmem) as (_ & Hc & Ht & Hn).
        cbv zeta in Hc, Ht, Hn. rewrite Hc, Ht, Hn.
        rewrite <- (set_fresh (tag_dict st)) by (by apply mem_false).
        rewrite unknown_tags_set, length_app. simpl.
        set (U := unknown_tags (tag_dict st) lines). split.
        -- apply set_eq. intros x.
           rewrite !elem_of_union, elem_of_difference, !elem_of_singleton.
           destruct (decide (x = t)); tauto.
        -- pose proof (size_union_alt ({[t]} : gset string) U) as Hs.
           rewrite size_singleton in Hs. lia.
    + by injection E as <-.
Qed.

(** X14. With dynamic registration, the new tags a conversion reports
    are the tags of the corpus that the initial table did not know, and
    the number of tags it reports is the size of the initial table plus
    the number of new tags. *)
Theorem new_entities_are_unknown_tags jl inp out cmf arg w s w' :
  conll_to_json jl inp out cmf arg true w = (Ok s, w') ->
  exists raw m0,
    initial_mapping jl arg w m0 /\
    fs w !! inp = Some (File raw) /\
    new_entities s
    = unknown_tags (inverse m0) (PyStr.lines (PyStr.universal_newlines raw)) /\
    unique_tags s = Z.of_nat (length m0) + Z.of_nat (size (new_entities s)).
Proof.
  intros H.
  apply conversion_ok in H as (raw & m0 & st & Hinit & _ & Hin & Hrun & -> & _).
  exists raw, m0. split; [done|]. split; [done|].
  destruct (process_lines_new_entities _ _ _ Hrun (init_ok m0)) as [Hn Hl].
  simpl in Hn, Hl. rewrite (left_id_L ∅ (∪)) in Hn. simpl.
  rewrite Hn, Hl. split; [done|]. lia.
Qed.

(** X14, witness: a conversion that starts from the empty table. *)
Lemma new_entities_are_unknown_tags_witness :
  let w := Example.w_four_columns in
  let s := Summary 2 2 [("B-PER", 2); ("O", 2)] ({["B-PER"]} ∪ {["O"]}) in
  exists raw m0,
    initial_mapping Example.json_load_config None w m0 /\
    fs w !! "in.conll" = Some (File raw) /\
    new_entities s
    = unknown_tags (inverse m0) (PyStr.lines (PyStr.universal_newlines raw)) /\
    unique_tags s = Z.of_nat (length m0) + Z.of_nat (size (new_entities s)).
Proof.
  apply (new_entities_are_unknown_tags Example.json_load_config "in.conll" "out.json"
           "class_mapping.py" None Example.w_four_columns
           (Summary 2 2 [("B-PER", 2); ("O", 2)] ({["B-PER"]} ∪ {["O"]}))
           (conll_to_json Example.json_load_config "in.conll" "out.json"
              "class_mapping.py" None true Example.w_four_columns).2).
  vm_compute; reflexivity.
Defined.


(** ** The class mapping file *)

Lemma item_le_trans : Transitive item_le.
Proof.
  intros [a1 a2] [b1 b2] [c1 c2]. unfold item_le. simpl.
  intros [H1|[-> H1]] [H2|[-> H2]]; try (left; lia).
  right. split; [done|]. by etrans.
Qed.

Lemma item_le_total : Total item_le.
Proof.
  intros [a1 a2] [b1 b2]. unfold item_le. simpl.
  destruct (Z.lt_trichotomy a1 b1) as [H|[->|H]]; [by left; left| |by right; left].
  destruct (total String.le a2 b2); [left|right]; by right.
Qed.

Lemma item_le_antisym : AntiSymm (=) item_le.
Proof.
  intros [a1 a2] [b1 b2]. unfold item_le. simpl.
  intros [H1|[-> H1]] [H2|[E H2]]; try lia.
  f_equal. by apply (anti_symm String.le).
Qed.

Lemma class_mapping_text_of m :
  class_mapping_text m = class_mapping_of (merge_sort item_le m).
Proof. done. Qed.

(** X15. The class mapping file lists the entries of the table, each
    once, by increasing id; so tables with the same entries give the same
    file, in whatever order the tags were registered. *)
Theorem class_mapping_sorted m :
  (exists l,
     l ≡ₚ m /\ StronglySorted (fun a b => a.1 <= b.1) l /\
     class_mapping_text m = class_mapping_of l) /\
  forall m', m' ≡ₚ m -> class_mapping_text m' = class_mapping_text m.
Proof.
  split.
  - exists (merge_sort item_le m). split; [apply merge_sort_Permutation|].
    split; [|done].
    pose proof (@StronglySorted_merge_sort _ item_le _ item_le_trans item_le_total m) as H.
    induction H as [|a l Hl IH Ha]; constructor; [done|].
    eapply Forall_impl; [exact Ha|]. intros b [Hb|[Hb _]]; lia.
  - intros m' Hp. rewrite !class_mapping_text_of. f_equal.
    apply (@StronglySorted_unique _ item_le item_le_antisym).
    + apply (@StronglySorted_merge_sort _ item_le _ item_le_trans item_le_total).
    + apply (@StronglySorted_merge_sort _ item_le _ item_le_trans item_le_total).
    + by rewrite !merge_sort_Permutation.
Qed.

(** ** The JSON output *)

Lemma json_escape_no_nl c : PyStr.contains PyStr.nl (json_escape c) = false.
Proof. destruct c as [[] [] [] [] [] [] [] []]; vm_compute; reflexivity. Qed.

Lemma json_escaped_no_nl s : PyStr.contains PyStr.nl (json_escaped s) = false.
Proof.
  induction s as [|c s IH]; [done|].
  cbn [json_escaped]. by rewrite contains_append, json_escape_no_nl, IH.
Qed.

Lemma json_string_no_nl s : PyStr.contains PyStr.nl (json_string s) = false.
Proof.
  unfold json_string. by rewrite !contains_append, json_escaped_no_nl.
Qed.

Lemma str_concat_cons sep x y l :
  String.concat sep (x :: y :: l) = x +:+ sep +:+ String.concat sep (y :: l).
Proof. done. Qed.

Lemma str_concat_no_nl sep items :
  PyStr.contains PyStr.nl sep = false ->
  Forall (fun s => PyStr.contains PyStr.nl s = false) items ->
  PyStr.contains PyStr.nl (String.concat sep items) = false.
Proof.
  intros Hsep. induction 1 as [|x l Hx Hl IH]; [done|].
  destruct l as [|y l]; [done|].
  by rewrite str_concat_cons, !contains_append, Hx, Hsep, IH.
Qed.

Lemma json_list_no_nl items :
  Forall (fun s => PyStr.contains PyStr.nl s = false) items ->
  PyStr.contains PyStr.nl (json_list items) = false.
Proof.
  intros H. unfold json_list. by rewrite !contains_append, str_concat_no_nl.
Qed.

Lemma str_of_int_no_nl n : PyStr.contains PyStr.nl (PyStr.str_of_int n) = false.
Proof.
  unfold PyStr.str_of_int, pretty, pretty_Z. destruct n as [|p|p]; [done|..].
  - apply contains_digits; [done|apply pretty_N_digits].
  - rewrite contains_append. rewrite (contains_digits _ (pretty p)); [done..|].
    apply pretty_N_digits.
Qed.

Lemma json_record_no_nl r : PyStr.contains PyStr.nl (json_record r) = false.
Proof.
  unfold json_record.
  rewrite !contains_append, !json_string_no_nl, !json_list_no_nl; [done|..].
  - apply Forall_fmap, Forall_true. intros n. apply str_of_int_no_nl.
  - apply Forall_fmap, Forall_true. intros s. apply json_string_no_nl.
Qed.

Lemma lines_go_line acc s rest :
  PyStr.contains PyStr.nl s = false ->
  PyStr.lines_go acc (s +:+ String PyStr.nl rest)
  = (String.rev acc +:+ s +:+ String PyStr.nl "") :: PyStr.lines_go "" rest.
Proof.
  revert acc. induction s as [|c s IH]; intros acc Hs.
  - rewrite str_app_nil_l. cbn [PyStr.lines_go]. rewrite Ascii.eqb_refl.
    by rewrite str_rev_cons.
  - cbn [PyStr.contains] in Hs. apply orb_false_iff in Hs as [Hc Hs].
    rewrite str_app_cons. cbn [PyStr.lines_go].
    rewrite Ascii.eqb_sym, Hc, IH by done.
    by rewrite str_rev_cons, str_app_assoc.
Qed.

Lemma json_lines_cons r rs : json_lines (r :: rs) = json_line r +:+ json_lines rs.
Proof.
  unfold json_lines. rewrite fmap_cons. fold (json_line r).
  destruct rs as [|r' rs]; [by rewrite str_app_nil_r|].
  by rewrite fmap_cons, str_concat_cons.
Qed.

Lemma lines_json_lines records :
  PyStr.lines (json_lines records) = json_line <$> records.
Proof.
  unfold PyStr.lines. induction records as [|r rs IH]; [done|].
  rewrite json_lines_cons. unfold json_line at 1.
  rewrite str_app_assoc. change (String PyStr.nl "" +:+ json_lines rs)
    with (String PyStr.nl (json_lines rs)).
  rewrite lines_go_line by apply json_record_no_nl.
  rewrite IH. by rewrite fmap_cons.
Qed.

(** X16. The JSON file a conversion writes has one line for each record:
    read line by line, it gives the records in their order, as many as
    the summary counts. *)
Theorem json_output_one_record_per_line jl inp out cmf arg ign w s w' :
  out <> cmf ->
  conll_to_json jl inp out cmf arg ign w = (Ok s, w') ->
  exists text records,
    fs w' !! out = Some (File text) /\
    PyStr.lines text = json_line <$> records /\
    sentences_processed s = Z.of_nat (length (PyStr.lines text)).
Proof.
  intros Hne H.
  apply conversion_ok in H as (raw & m0 & st & _ & _ & _ & Hrun & -> & _ & Hfs).
  exists (json_lines (last_sentence st)), (last_sentence st). split.
  { rewrite Hfs, lookup_insert_ne by done. apply lookup_insert_eq. }
  rewrite lines_json_lines. split; [done|]. simpl. by rewrite length_fmap.
Qed.

(** X16, witness: a corpus of two sentences gives a file of two lines. *)
Lemma json_output_one_record_per_line_witness :
  let w := Example.w_four_columns in
  let out := conll_to_json Example.json_load_config "in.conll" "out.json"
               "class_mapping.py" None true w in
  exists text records,
    fs out.2 !! "out.json" = Some (File text) /\
    PyStr.lines text = json_line <$> records /\
    sentences_processed (Summary 2 2 [("B-PER", 2); ("O", 2)] ({["B-PER"]} ∪ {["O"]}))
    = Z.of_nat (length (PyStr.lines text)).
Proof.
  apply (json_output_one_record_per_line Example.json_load_config "in.conll"
           "out.json" "class_mapping.py" None true Example.w_four_columns).
  - discriminate.
  - vm_compute; reflexivity.
Defined.


Lemma touches_refl P w : touches P w w.
Proof. split; [done|]. intros q _. by left. Qed.

Lemma touches_trans P w1 w2 w3 :
  touches P w1 w2 -> touches P w2 w3 -> touches P w1 w3.
Proof.
  intros [Hh1 Hf1] [Hh2 Hf2]. split; [congruence|].
  intros q Hq. destruct (Hf1 q Hq) as [E1|[E1 E1']], (Hf2 q Hq) as [E2|[E2 E2']].
  - left. congruence.
  - right. split; congruence.
  - right. split; congruence.
  - congruence.
Qed.

Lemma confined_ret {A} P (a : A) : confined P (ret a).
Proof. intros w r w' [= _ <-]. apply touches_refl. Qed.

Lemma confined_raise {A} P c msg : confined P (@raise A c msg).
Proof. intros w r w' [= _ <-]. apply touches_refl. Qed.

Lemma confined_lift {A} P (x : result A) : confined P (lift x).
Proof. intros w r w' [= _ <-]. apply touches_refl. Qed.

Lemma confined_bind {A B} P (m : M A) (k : A -> M B) :
  confined P m -> (forall a, confined P (k a)) -> confined P (bind m k).
Proof.
  intros Hm Hk w r w'. unfold bind.
  destruct (m w) as [[a|e] w1] eqn:E.
  - intros H. eapply touches_trans; [by eapply Hm|by eapply Hk].
  - intros [= _ <-]. by eapply Hm.
Qed.

Lemma confined_try_except {A} P (m : M A) (h : exn -> M A) :
  confined P m -> (forall e, confined P (h e)) -> confined P (try_except m h).
Proof.
  intros Hm Hh w r w'. unfold try_except.
  destruct (m w) as [[a|e] w1] eqn:E.
  - intros [= _ <-]. by eapply Hm.
  - intros H. eapply touches_trans; [by eapply Hm|by eapply Hh].
Qed.

Lemma confined_makedirs P p : confined P (Os.makedirs p).
Proof.
  intros w r w' H. apply makedirs_spec in H as (_ & (Hh & _) & Hg & _).
  split; [done|]. intros q _. apply Hg.
Qed.

Lemma confined_read_text P p : confined P (Os.read_text p).
Proof.
  intros w r w' H. apply read_text_spec in H as (_ & Hf & (Hh & _) & _).
  split; [done|]. intros q _. left. by rewrite Hf.
Qed.

Lemma confined_write_file (P : string -> Prop) p c :
  P p -> confined P (Os.write_file p c).
Proof.
  intros Hp w r w' H. apply write_file_spec in H as (_ & (Hh & _) & Hok & Herr).
  split; [done|]. intros q Hq. left. destruct r as [[]|e].
  - rewrite Hok by done. apply lookup_insert_ne. by intros ->.
  - by rewrite (Herr e).
Qed.

Lemma confined_shuffle {A} P (x : list A) : confined P (Random.shuffle x).
Proof.
  intros w r w' H.
  destruct (shuffle_spec x w) as (y & w1 & E & _ & Hf & _ & Hh).
  rewrite E in H. injection H as _ <-.
  split; [done|]. intros q _. left. by rewrite Hf.
Qed.

Lemma confined_emit od g d acc :
  confined (split_output od) (emit od (file_name g) d acc).
Proof.
  unfold emit. destruct d as [|x d]; [apply confined_ret|].
  apply confined_bind; [|intros; apply confined_ret].
  apply confined_write_file. by exists g.
Qed.

Lemma confined_split_conll cf od ratio :
  confined (split_output od) (split_conll cf od ratio).
Proof.
  unfold split_conll. apply confined_try_except; [|intros; apply confined_raise].
  unfold split_conll_try. destruct ratio as [[r0 r1] r2].
  apply confined_bind; [apply confined_makedirs|intros _].
  apply confined_bind.
  { destruct (PyFloat.gt _ _); [apply confined_raise|apply confined_ret]. }
  intros _. apply confined_bind; [apply confined_read_text|intros text].
  apply confined_bind.
  { destruct (blocks_of text); [apply confined_raise|apply confined_ret]. }
  intros first. apply confined_bind; [apply confined_shuffle|intros shuffled].
  apply confined_bind; [apply confined_lift|intros a].
  apply confined_bind; [apply confined_lift|intros b].
  destruct (split_data _ _ _ _) as [[tr va] te].
  apply confined_bind; [apply (confined_emit od Train)|intros f1].
  apply confined_bind; [apply (confined_emit od Val)|intros f2].
  apply confined_bind; [apply (confined_emit od Test)|intros f3].
  apply confined_ret.
Qed.

(** X17. However [split_conll] ends, it leaves the heap alone, and on
    the file system it touches nothing but its three output files: every
    other path keeps what it had, or had nothing and is now a
    directory. *)
Theorem split_conll_touches_only_outputs cf od ratio w res w' :
  split_conll cf od ratio w = (res, w') ->
  heap w' = heap w /\
  forall q,
    (forall g, q <> Os.path_join od (file_name g)) ->
    fs w' !! q = fs w !! q \/ (fs w !! q = None /\ fs w' !! q = Some Dir).
Proof.
  intros H. destruct (confined_split_conll cf od ratio w res w' H) as [Hh Hf].
  split; [done|]. intros q Hq. apply Hf. intros [g ->]. by apply (Hq g).
Qed.

(** X17, witness: a split of three blocks into halves. *)
Lemma split_conll_touches_only_outputs_witness :
  let w := Example.w_three in
  let out := split_conll "in.conll" "out"
               (Example.r_050, Example.r_050, PyFloat.zero) w in
  heap out.2 = heap w /\
  forall q,
    (forall g, q <> Os.path_join "out" (file_name g)) ->
    fs out.2 !! q = fs w !! q \/ (fs w !! q = None /\ fs out.2 !! q = Some Dir).
Proof.
  apply (split_conll_touches_only_outputs "in.conll" "out"
           (Example.r_050, Example.r_050, PyFloat.zero) Example.w_three
           (split_conll "in.conll" "out"
              (Example.r_050, Example.r_050, PyFloat.zero) Example.w_three).1).
  apply surjective_pairing.
Defined.


(** X18. When no file stands at the input path, [split_conll] raises an
    [Exception] whose text starts with the splitter's prefix, and writes
    nothing: it has only made directories, and at most tried to read. *)
Theorem split_conll_missing_input cf od ratio w :
  not_a_file (fs w) cf ->
  exists msg w',
    split_conll cf od ratio w
    = (Raise (Exn Exception_ ("Error during CoNLL splitting: " +:+ msg)), w') /\
    grows (fs w) (fs w') /\
    exists new, trace w' = new ++ trace w /\ Forall not_a_write new.
Proof.
  intros Hcf. destruct ratio as [[r0 r1] r2].
  unfold split_conll, try_except, split_conll_try, bind at 1.
  destruct (Os.makedirs od w) as [[[]|e] w1] eqn:Emk;
    pose proof (makedirs_spec _ _ _ _ Emk) as (Ht1 & _ & Hg1 & _).
  2:{ exists (exn_str e), w1. split; [done|]. split; [done|].
      exists [EvMakedirs od]. split; [done|]. by repeat constructor. }
  unfold bind at 1. destruct (PyFloat.gt _ _).
  { exists ratio_error, w1. split; [done|]. split; [done|].
    exists [EvMakedirs od]. split; [done|]. by repeat constructor. }
  unfold ret at 1. unfold bind at 1.
  destruct (Os.read_text cf w1) as [[text|e] w2] eqn:Erd;
    pose proof (read_text_spec _ _ _ _ Erd) as (Ht2 & Hf2 & _ & Hraw).
  { destruct (Hraw text eq_refl) as (raw & Hfile & _).
    by destruct (grows_not_a_file _ _ _ Hg1 Hcf raw). }
  exists (exn_str e), w2. split; [done|]. split; [by rewrite Hf2|].
  exists [EvRead cf; EvMakedirs od]. split; [by rewrite Ht2, Ht1|].
  by repeat constructor.
Qed.

(** X18, witness: a split on an empty file system. *)
Lemma split_conll_missing_input_witness :
  let w := Example.w_empty in
  exists msg w',
    split_conll "in.conll" "out" (Example.r_050, Example.r_050, PyFloat.zero) w
    = (Raise (Exn Exception_ ("Error during CoNLL splitting: " +:+ msg)), w') /\
    grows (fs w) (fs w') /\
    exists new, trace w' = new ++ trace w /\ Forall not_a_write new.
Proof.
  apply (split_conll_missing_input "in.conll" "out"
           (Example.r_050, Example.r_050, PyFloat.zero) Example.w_empty).
  intros c. vm_compute. discriminate.
Defined.


(** ** Stripping *)

Lemma str_length_app s1 s2 :
  String.length (s1 +:+ s2) = (String.length s1 + String.length s2)%nat.
Proof. induction s1 as [|c s1 IH]; [done|]. rewrite str_app_cons. simpl. by rewrite IH. Qed.

Lemma str_length_rev s : String.length (String.rev s) = String.length s.
Proof.
  induction s as [|c s IH]; [done|]. rewrite str_rev_cons, str_length_app, IH. simpl. lia.
Qed.

Lemma str_length_lstrip s : (String.length (PyStr.lstrip s) <= String.length s)%nat.
Proof.
  induction s as [|c s IH]; [done|]. simpl. destruct (PyStr.is_space c); simpl; lia.
Qed.

Lemma lstrip_fixed s : s <> "" -> PyStr.lstrip s = s -> starts_clean s = true.
Proof.
  destruct s as [|c s]; [done|]. intros _. simpl.
  destruct (PyStr.is_space c); [|done].
  intros H. pose proof (str_length_lstrip s) as Hl. rewrite H in Hl. simpl in Hl. lia.
Qed.

Lemma lstrip_clean s : starts_clean s = true -> PyStr.lstrip s = s.
Proof. destruct s as [|c s]; [done|]. simpl. by intros ->%negb_true_iff. Qed.

Lemma str_rev_nonempty s : s <> "" -> String.rev s <> "".
Proof.
  intros Hs H. apply Hs. apply (f_equal String.length) in H.
  rewrite str_length_rev in H. by destruct s.
Qed.

Lemma strip_fixed b :
  b <> "" -> PyStr.strip b = b ->
  starts_clean b = true /\ starts_clean (String.rev b) = true.
Proof.
  intros Hb Hs. unfold PyStr.strip, PyStr.rstrip in Hs.
  assert (starts_clean b = true) as H1.
  { destruct b as [|c b]; [done|]. simpl. destruct (PyStr.is_space c) eqn:Ec; [|done].
    exfalso. apply (f_equal String.length) in Hs. rewrite str_length_rev in Hs.
    pose proof (str_length_lstrip (String.rev (PyStr.lstrip (String c b)))) as Hl1.
    rewrite str_length_rev in Hl1. simpl in Hl1, Hs. rewrite Ec in Hl1, Hs.
    pose proof (str_length_lstrip b). lia. }
  split; [done|]. rewrite (lstrip_clean b H1) in Hs.
  apply lstrip_fixed; [by apply str_rev_nonempty|].
  apply (f_equal String.rev) in Hs. by rewrite str_rev_involutive in Hs.
Qed.

Lemma starts_clean_append a b : starts_clean a = true -> starts_clean (a +:+ b) = true.
Proof. destruct a as [|c a]; [done|]. by rewrite str_app_cons. Qed.

Lemma strip_rendered j :
  starts_clean j = true -> starts_clean (String.rev j) = true ->
  PyStr.strip (j +:+ String PyStr.nl "") = j.
Proof.
  intros H1 H2. unfold PyStr.strip, PyStr.rstrip.
  rewrite (lstrip_clean (j +:+ String PyStr.nl "")) by (by apply starts_clean_append).
  rewrite str_rev_app.
  change (String.rev (String PyStr.nl "")) with (String PyStr.nl "").
  rewrite str_app_cons, str_app_nil_l.
  change (PyStr.lstrip (String PyStr.nl (String.rev j))) with (PyStr.lstrip (String.rev j)).
  rewrite lstrip_clean by done. apply str_rev_involutive.
Qed.

(** ** Joining and splitting at blank lines *)

Lemma str_concat_starts sep b l :
  starts_clean b = true -> starts_clean (String.concat sep (b :: l)) = true.
Proof.
  intros Hb. destruct l as [|b2 l]; [done|].
  rewrite str_concat_cons. by apply starts_clean_append.
Qed.

Lemma str_concat_ends sep l :
  l <> [] -> Forall (fun b => starts_clean (String.rev b) = true) l ->
  starts_clean (String.rev (String.concat sep l)) = true.
Proof.
  intros Hl H. induction H as [|b l Hb _ IH]; [done|].
  destruct l as [|b2 l]; [done|].
  rewrite str_concat_cons, !str_rev_app, str_app_assoc.
  apply starts_clean_append. by apply IH.
Qed.

Lemma str_concat_no_char ch sep items :
  PyStr.contains ch sep = false ->
  Forall (fun s => PyStr.contains ch s = false) items ->
  PyStr.contains ch (String.concat sep items) = false.
Proof.
  intros Hsep. induction 1 as [|x l Hx Hl IH]; [done|].
  destruct l as [|y l]; [done|].
  by rewrite str_concat_cons, !contains_append, Hx, Hsep, IH.
Qed.

Lemma universal_newlines_id s :
  PyStr.contains PyStr.cr s = false -> PyStr.universal_newlines s = s.
Proof.
  induction s as [|c s IH]; [done|]. cbn [PyStr.contains PyStr.universal_newlines].
  intros [Hc Hs]%orb_false_iff. rewrite Ascii.eqb_sym, Hc. by rewrite IH.
Qed.

Lemma str_prefix_app_l p x y :
  String.prefix p x = true -> String.prefix p (x +:+ y) = true.
Proof.
  revert x. induction p as [|a p IH]; intros x; [by rewrite !str_prefix_nil|].
  destruct x as [|b x]; [done|]. rewrite str_app_cons, !str_prefix_cons.
  intros [-> Hp]%andb_true_iff. by rewrite IH.
Qed.

Lemma str_prefix_app_long p x y :
  (String.length p <= String.length x)%nat ->
  String.prefix p (x +:+ y) = String.prefix p x.
Proof.
  revert x. induction p as [|a p IH]; intros x Hl; [by rewrite !str_prefix_nil|].
  destruct x as [|b x]; [simpl in Hl; lia|]. rewrite str_app_cons, !str_prefix_cons.
  rewrite IH; [done|]. simpl in Hl. lia.
Qed.

Lemma split_go_nonempty sep skip acc s : PyStr.split_go sep skip acc s <> [].
Proof.
  revert skip acc. induction s as [|c s IH]; intros skip acc; [done|].
  cbn [PyStr.split_go]. destruct skip; [|apply IH].
  destruct (String.prefix sep _); [done|apply IH].
Qed.

Lemma split_go_single acc s x :
  PyStr.split_go blank_line 0 acc s = [x] -> no_blank s = true.
Proof.
  revert acc. induction s as [|c s IH]; intros acc; [done|].
  cbn [PyStr.split_go no_blank].
  destruct (String.prefix blank_line (String c s)).
  - intros [= _ H]. by apply split_go_nonempty in H.
  - intros H. by rewrite (IH _ H).
Qed.

Lemma no_blank_append_l x y : no_blank (x +:+ y) = true -> no_blank x = true.
Proof.
  induction x as [|c x IH]; [done|]. rewrite str_app_cons. cbn [no_blank].
  intros [Hp Hx]%andb_true_iff. rewrite IH by done. rewrite andb_true_r.
  apply negb_true_iff. apply negb_true_iff in Hp.
  destruct (String.prefix blank_line (String c x)) eqn:E; [|done].
  rewrite <- str_app_cons in Hp. by rewrite str_prefix_app_l in Hp.
Qed.

Lemma starts_clean_rev_cons c s :
  s <> "" -> starts_clean (String.rev (String c s)) = starts_clean (String.rev s).
Proof.
  intros Hs%str_rev_nonempty. rewrite str_rev_cons.
  destruct (String.rev s) as [|a r]; [done|]. by rewrite str_app_cons.
Qed.

Lemma no_blank_line b :
  b <> "" -> no_blank b = true -> starts_clean (String.rev b) = true ->
  no_blank (b +:+ String PyStr.nl "") = true.
Proof.
  induction b as [|c b IH]; [done|]. intros _ Hnb Hend.
  cbn [no_blank] in Hnb. apply andb_true_iff in Hnb as [Hp Hnb].
  rewrite str_app_cons. cbn [no_blank]. apply andb_true_iff. split.
  - destruct b as [|c' b].
    + rewrite str_app_nil_l. unfold blank_line. rewrite str_prefix_cons.
      simpl in Hend. apply negb_true_iff in Hend.
      rewrite bool_decide_eq_false_2; [done|]. intros <-. done.
    + rewrite <- str_app_cons, str_prefix_app_long; [done|]. simpl. lia.
  - destruct b as [|c' b]; [done|]. apply IH; [done|done|].
    by rewrite starts_clean_rev_cons in Hend.
Qed.

Lemma split_go_whole acc b :
  no_blank b = true ->
  PyStr.split_go blank_line 0 acc b = [String.rev acc +:+ b].
Proof.
  revert acc. induction b as [|c b IH]; intros acc.
  - intros _. simpl. by rewrite str_app_nil_r.
  - cbn [no_blank PyStr.split_go]. intros [Hp Hb]%andb_true_iff.
    apply negb_true_iff in Hp. rewrite Hp, IH by done.
    by rewrite str_rev_cons, str_app_assoc.
Qed.

Lemma split_go_block acc b rest :
  no_blank (b +:+ String PyStr.nl "") = true ->
  PyStr.split_go blank_line 0 acc (b +:+ blank_line +:+ rest)
  = (String.rev acc +:+ b) :: PyStr.split_go blank_line 0 "" rest.
Proof.
  revert acc. induction b as [|c b IH]; intros acc.
  - intros _. rewrite str_app_nil_l, str_app_nil_r.
    change (blank_line +:+ rest) with (String PyStr.nl (String PyStr.nl rest)).
    cbn [PyStr.split_go].
    replace (String.prefix blank_line (String PyStr.nl (String PyStr.nl rest)))
      with true by (unfold blank_line; by rewrite !str_prefix_cons, str_prefix_nil).
    done.
  - rewrite !str_app_cons. cbn [no_blank PyStr.split_go].
    intros [Hp Hb]%andb_true_iff. apply negb_true_iff in Hp.
    assert (String.prefix blank_line (String c (b +:+ blank_line +:+ rest)) = false) as ->.
    { rewrite <- Hp. rewrite <- !str_app_cons.
      change (blank_line +:+ rest) with (String PyStr.nl "" +:+ String PyStr.nl rest).
      rewrite <- str_app_assoc. apply str_prefix_app_long.
      rewrite str_length_app. simpl. lia. }
    rewrite IH by done. by rewrite str_rev_cons, str_app_assoc.
Qed.

Lemma split_join d :
  d <> [] -> Forall (fun b => no_blank (b +:+ String PyStr.nl "") = true) d ->
  PyStr.split (String.concat blank_line d) blank_line = d.
Proof.
  unfold PyStr.split. intros Hd H. induction H as [|b l Hb Hl IH]; [done|].
  destruct l as [|b2 l].
  - simpl. rewrite split_go_whole by (by eapply no_blank_append_l). done.
  - rewrite str_concat_cons, split_go_block by done. by rewrite IH.
Qed.

Lemma block_ok_spec b :
  block_ok b ->
  starts_clean b = true /\ starts_clean (String.rev b) = true /\
  no_blank (b +:+ String PyStr.nl "") = true /\ PyStr.contains PyStr.cr b = false.
Proof.
  intros (Hne & Hstrip & Hsplit & Hcr).
  destruct (strip_fixed b Hne Hstrip) as [H1 H2].
  split; [done|]. split; [done|]. split; [|done].
  apply no_blank_line; [done| |done]. by eapply split_go_single.
Qed.

(** X19. A file [write_to_file] has written reads back as the blocks
    that were written, when they are blocks as a CoNLL file has them:
    reading, stripping and splitting at blank lines, as [split_conll]
    does, undoes the writing. *)
Theorem written_blocks_read_back p d w w' :
  d <> [] -> Forall block_ok d ->
  write_to_file p d w = (Ok tt, w') ->
  exists text w'',
    Os.read_text p w' = (Ok text, w'') /\ blocks_of text = d.
Proof.
  intros Hd Hok H. unfold write_to_file in H.
  apply write_file_spec in H as (_ & _ & Hf & _). specialize (Hf eq_refl).
  assert (Forall (fun b => starts_clean b = true /\ starts_clean (String.rev b) = true /\
            no_blank (b +:+ String PyStr.nl "") = true /\
            PyStr.contains PyStr.cr b = false) d) as Hall.
  { eapply Forall_impl; [exact Hok|]. apply block_ok_spec. }
  exists (rendered d). eexists. split.
  - unfold Os.read_text, bind, log, get_world, ret. simpl.
    rewrite Hf, lookup_insert_eq. rewrite universal_newlines_id; [done|].
    unfold rendered, PyStr.join. rewrite contains_append.
    rewrite str_concat_no_char; [done|done|].
    eapply Forall_impl; [exact Hall|]. by intros b (_ & _ & _ & ?).
  - unfold blocks_of, rendered, PyStr.join. rewrite strip_rendered.
    + apply split_join; [done|].
      eapply Forall_impl; [exact Hall|]. by intros b (_ & _ & ? & _).
    + destruct Hall as [|b l (Hb & _) _]; [done|]. by apply str_concat_starts.
    + apply str_concat_ends; [done|].
      eapply Forall_impl; [exact Hall|]. by intros b (_ & ? & _).
Qed.

(** X19, witness: two blocks of one line each. *)
Lemma written_blocks_read_back_witness :
  let w := Scenario.w_out in
  let w' := (write_to_file "out/train.conll" ["a -X- _ O"; "b -X- _ O"] w).2 in
  exists text w'',
    Os.read_text "out/train.conll" w' = (Ok text, w'') /\
    blocks_of text = ["a -X- _ O"; "b -X- _ O"].
Proof.
  apply (written_blocks_read_back "out/train.conll" ["a -X- _ O"; "b -X- _ O"]
           Scenario.w_out).
  - discriminate.
  - repeat constructor; try discriminate; vm_compute; reflexivity.
  - vm_compute; reflexivity.
Defined.


Lemma put_custom_map_spec items w res w' :
  put_custom_map items w = (res, w') ->
  fs w' = fs w /\ trace w' = trace w /\ today w' = today w /\
  exists cm, res = Ok cm.
Proof.
  unfold put_custom_map. destruct items as [d|].
  - unfold bind, alloc, bind, get_world, set_heap, ret. intros [= <- <-]. simpl. eauto.
  - intros [= <- <-]. eauto.
Qed.

Lemma path_join_length a b :
  (String.length a + String.length b <= String.length (Os.path_join a b))%nat.
Proof.
  unfold Os.path_join. destruct (decide (a = "")) as [->|Hne]; [done|].
  destruct (PyStr.startswith _ _); rewrite !str_length_app; simpl; lia.
Qed.

Lemma path_join_ne a b : b <> "" -> Os.path_join a b <> a.
Proof.
  intros Hb E. pose proof (path_join_length a b) as Hl. rewrite E in Hl.
  destruct b; [done|]. simpl in Hl. lia.
Qed.

Lemma path_join_ne2 a b c : b <> "" -> Os.path_join (Os.path_join a b) c <> a.
Proof.
  intros Hb E. pose proof (path_join_length (Os.path_join a b) c) as Hl.
  pose proof (path_join_length a b) as Hl2. rewrite E in Hl.
  destruct b; [done|]. simpl in Hl2. lia.
Qed.

(** ** Converting the splits *)

Lemma conll_to_json_files jl inp out cmf arg ign w s w' :
  conll_to_json jl inp out cmf arg ign w = (Ok s, w') ->
  is_file (fs w') out /\ is_file (fs w') cmf /\
  (forall q, is_file (fs w) q -> is_file (fs w') q) /\
  (forall q, q <> out -> q <> cmf -> fs w' !! q = fs w !! q).
Proof.
  intros H. apply conversion_ok in H as (raw & m0 & st & _ & _ & _ & _ & _ & _ & Hfs).
  rewrite Hfs. unfold is_file. split; [|split; [|split]].
  - destruct (decide (out = cmf)) as [->|Hne].
    + eexists. apply lookup_insert_eq.
    + eexists. rewrite lookup_insert_ne by done. apply lookup_insert_eq.
  - eexists. apply lookup_insert_eq.
  - intros q [c Hq]. destruct (decide (cmf = q)) as [->|H1].
    { eexists. apply lookup_insert_eq. }
    rewrite lookup_insert_ne by done. destruct (decide (out = q)) as [->|H2].
    { eexists. apply lookup_insert_eq. }
    rewrite lookup_insert_ne by done. eauto.
  - intros q H1 H2. by rewrite !lookup_insert_ne.
Qed.

Lemma convert_splits_loop jl cd od cmf cm l acc w res w' :
  foldl (convert_split jl cd od cmf cm) acc l w = (Ok res, w') ->
  exists res0 w0,
    acc w = (Ok res0, w0) /\
    PyDict.keys res = foldl (fun ks name => if bool_decide (name ∈ ks) then ks else ks ++ [name])
                            (PyDict.keys res0) l.*1 /\
    (forall q, is_file (fs w0) q -> is_file (fs w') q) /\
    (forall q, q <> cmf ->
       (forall name, name ∈ l.*1 ->
          q <> Os.path_join od (PyStr.replace name ".conll" ".json")) ->
       fs w' !! q = fs w0 !! q) /\
    (forall name, name ∈ l.*1 ->
       is_file (fs w') (Os.path_join od (PyStr.replace name ".conll" ".json")) /\
       is_file (fs w') cmf).
Proof.
  revert acc res w'. induction l as [|sr l IH] using rev_ind; intros acc res w'.
  - simpl. intros H. exists res, w'. split; [done|]. split; [done|].
    split; [done|]. split; [done|]. intros name Hn. by apply elem_of_nil in Hn.
  - rewrite foldl_app. cbn [foldl]. unfold convert_split at 1.
    intros H. apply bind_ok in H as (res1 & w1 & Hacc & H).
    apply bind_ok in H as (s & w2 & Hconv & [= <- <-]).
    destruct (IH _ _ _ Hacc) as (res0 & w0 & Hacc0 & Hkeys & Hfiles & Hframe & Hout).
    apply conll_to_json_files in Hconv as (Hj & Hc & Hkeep & Hsame).
    exists res0, w0. split; [done|]. split; [|split; [|split]].
    + rewrite fmap_app, foldl_app. cbn [foldl fmap list_fmap]. rewrite <- Hkeys.
      case_bool_decide as Hin.
      * apply keys_set_known. rewrite get_None. intros Hn. by apply Hn.
      * apply keys_set_fresh. by apply get_None.
    + intros q Hq. by apply Hkeep, Hfiles.
    + intros q Hcmf Hq. rewrite Hsame; [apply Hframe; [done|]|..|done].
      * intros name Hn. apply Hq. rewrite fmap_app. apply elem_of_app. by left.
      * apply Hq. rewrite fmap_app. apply elem_of_app. right. apply list_elem_of_here.
    + intros name Hn. rewrite fmap_app in Hn. apply elem_of_app in Hn as [Hn|Hn].
      * destruct (Hout name Hn) as [H1 H2]. split; by apply Hkeep.
      * apply list_elem_of_singleton in Hn as ->. done.
Qed.

Lemma foldl_keys_NoDup (ks l : list string) :
  NoDup (ks ++ l) ->
  foldl (fun ks name => if bool_decide (name ∈ ks) then ks else ks ++ [name]) ks l
  = ks ++ l.
Proof.
  revert ks. induction l as [|x l IH]; intros ks Hnd; [by rewrite app_nil_r|].
  cbn [foldl]. rewrite bool_decide_eq_false_2.
  - rewrite IH; rewrite <- (assoc_L (++)); done.
  - apply NoDup_app in Hnd as (_ & Hd & _). intros Hin. apply (Hd x Hin).
    apply list_elem_of_here.
Qed.

Lemma convert_splits_ok jl cd od cmf cm l w res w' :
  convert_splits jl cd od cmf cm l w = (Ok res, w') ->
  NoDup l.*1 ->
  res.*1 = l.*1 /\
  (forall q, q <> cmf ->
     (forall name, name ∈ l.*1 ->
        q <> Os.path_join od (PyStr.replace name ".conll" ".json")) ->
     fs w' !! q = fs w !! q) /\
  (forall name, name ∈ l.*1 ->
     is_file (fs w') (Os.path_join od (PyStr.replace name ".conll" ".json")) /\
     is_file (fs w') cmf).
Proof.
  intros H Hnd.
  apply (convert_splits_loop jl cd od cmf cm l (ret [])) in H
    as (res0 & w0 & [= <- <-] & Hkeys & _ & Hframe & Hout).
  split; [|done]. unfold PyDict.keys in Hkeys. rewrite Hkeys.
  by rewrite foldl_keys_NoDup.
Qed.

(** The names [split_conll] reports are names of groups, each once. *)
Lemma emitted_group g d : (emitted (file_name g) d).*1 = if d is [] then [] else [file_name g].
Proof. by destruct d. Qed.

Lemma split_conll_names cf od ratio w files w' :
  split_conll cf od ratio w = (Ok files, w') ->
  NoDup files.*1 /\ forall name, name ∈ files.*1 -> exists g, name = file_name g.
Proof.
  intros H%split_conll_ok. destruct ratio as [[r0 r1] r2].
  apply split_conll_try_ok in H
    as (raw & sh & a & b & w1 & _ & _ & _ & _ & _ & _ & _ & -> & _).
  rewrite !fmap_app.
  rewrite (emitted_group Train), (emitted_group Val), (emitted_group Test).
  destruct (add_docstart _ (split_data _ _ _ _).1.1) as [|x1 l1];
    destruct (add_docstart _ (split_data _ _ _ _).1.2) as [|x2 l2];
    destruct (add_docstart _ (split_data _ _ _ _).2) as [|x3 l3];
    cbn [app file_name]; (split;
    [ rewrite ?NoDup_cons, ?elem_of_cons, ?elem_of_nil;
      repeat split; try apply NoDup_nil_2; intuition discriminate
    | intros name; rewrite ?elem_of_cons, ?elem_of_nil;
      intros Hn; intuition (subst;
        first [by exists Train | by exists Val | by exists Test]) ]).
Qed.

Section RouteExtras.
Variable float_of_str : string -> option PyFloat.float.
Variable json_loads : string -> json_map.
Variable json_load_config : string -> json_config.
Variable secure_filename : string -> string.

Lemma requested_ratios_early_body field r :
  requested_ratios float_of_str field = Ok (inl r) -> early_response r.
Proof.
  unfold requested_ratios. destruct (truthy field); [|discriminate].
  destruct (parse_ratios _ _) as [[|r0 [|r1 [|r2 [|r3 rs]]]]|e];
    try discriminate; intros [= <-]; by left.
Qed.

Lemma requested_map_early_body field r :
  requested_map json_loads field = Ok (inl r) -> early_response r.
Proof.
  unfold requested_map. destruct (truthy field); [|discriminate].
  destruct (json_loads _) as [| |items]; try discriminate.
  - intros [= <-]. by right.
  - destruct (int_keys items []); discriminate.
Qed.

(** What a run of the body of the [try] that returns a response did. *)
Lemma process_conll_try_ok req w resp w' :
  process_conll_try float_of_str json_loads json_load_config secure_filename req w
  = (Ok resp, w') ->
  (w' = w /\ early_response resp) \/
  exists ratio items custom_map w1 output_dir w2 w3,
    let conll_dir := Os.path_join output_dir "conll_files" in
    requested_ratios float_of_str (ratios_field req) = Ok (inr ratio) /\
    requested_map json_loads (custom_map_field req) = Ok (inr items) /\
    put_custom_map items w = (Ok custom_map, w1) /\
    create_data_directory secure_filename (folder_name req) w1 = (Ok output_dir, w2) /\
    Os.makedirs conll_dir w2 = (Ok tt, w3) /\
    ((exists text, file req = Some ("", text) /\ w' = w3 /\
                   resp = Response 400 (ErrorBody "No file uploaded")) \/
     exists filename text w4 split_results w5 json_results,
       let input_path := Os.path_join conll_dir (secure_filename filename) in
       file req = Some (filename, text) /\ filename <> "" /\
       Os.write_file input_path text w3 = (Ok tt, w4) /\
       split_conll input_path conll_dir ratio w4 = (Ok split_results, w5) /\
       convert_splits json_load_config conll_dir output_dir
         (Os.path_join output_dir "class_mapping.py") custom_map split_results w5
       = (Ok json_results, w') /\
       resp = Response 200
                (SuccessBody output_dir
                   (ProcessingInfo split_results ratio json_results))).
Proof.
  unfold process_conll_try. cbv zeta. unfold bind at 1, lift at 1.
  destruct (requested_ratios float_of_str (ratios_field req)) as [[r|ratio]|e] eqn:Er.
  - intros [= <- <-]. left. split; [done|]. by eapply requested_ratios_early_body.
  - unfold bind at 1, lift at 1.
    destruct (requested_map json_loads (custom_map_field req)) as [[r|items]|e] eqn:Em.
    + intros [= <- <-]. left. split; [done|]. by eapply requested_map_early_body.
    + fold (put_custom_map items). unfold bind at 1.
      destruct (put_custom_map items w) as [[custom_map|e] w1] eqn:Ecm; [|done].
      unfold bind at 1.
      destruct (create_data_directory secure_filename (folder_name req) w1)
        as [[output_dir|e] w2] eqn:Ecd; [|done].
      unfold bind at 1.
      destruct (Os.makedirs _ w2) as [[[]|e] w3] eqn:Emk; [|done].
      intros H. right. exists ratio, items, custom_map, w1, output_dir, w2, w3.
      cbv zeta. do 5 (split; [done|]).
      destruct (file req) as [[filename text]|]; [|done].
      destruct (bool_decide (filename = "")) eqn:Ename.
      { apply bool_decide_eq_true in Ename as ->. injection H as <- <-.
        left. by exists text. }
      apply bool_decide_eq_false in Ename.
      unfold bind at 1 in H.
      destruct (Os.write_file _ text w3) as [[[]|e] w4] eqn:Ewr; [|done].
      unfold bind at 1 in H.
      destruct (split_conll _ _ ratio w4) as [[split_results|e] w5] eqn:Esplit; [|done].
      unfold bind at 1 in H.
      destruct (convert_splits _ _ _ _ _ _ w5) as [[json_results|e] w6] eqn:Econv; [|done].
      injection H as <- <-. right.
      exists filename, text, w4, split_results, w5, json_results. done.
    + done.
  - done.
Qed.

Lemma process_conll_not_500 req w resp w' :
  process_conll float_of_str json_loads json_load_config secure_filename req w
  = (Ok resp, w') ->
  status resp <> 500 ->
  process_conll_try float_of_str json_loads json_load_config secure_filename req w
  = (Ok resp, w').
Proof.
  unfold process_conll, try_except.
  destruct (process_conll_try _ _ _ _ req w) as [[r|e] w1]; [done|].
  intros [= <- <-]. done.
Qed.

(** X20. A response 400 other than the one for a missing file is given
    before anything is done: the world is as it was, and the response is
    one of the two for malformed ratios and malformed [custom_map]. *)
Theorem bad_request_leaves_world req w resp w' :
  process_conll float_of_str json_loads json_load_config secure_filename req w
  = (Ok resp, w') ->
  status resp = 400 ->
  body_of resp <> ErrorBody "No file uploaded" ->
  w' = w /\ early_response resp.
Proof.
  intros H Hst Hbody. apply process_conll_not_500 in H; [|by rewrite Hst].
  apply process_conll_try_ok in H as [?|H]; [done|].
  destruct H as (ratio & items & cm & w1 & od & w2 & w3 & _ & _ & _ & _ & _ & H).
  destruct H as [(text & _ & _ & ->)|H]; [done|].
  destruct H as (fn & text & w4 & sr & w5 & jr & _ & _ & _ & _ & _ & ->). done.
Qed.

(** X21. The response for a missing file comes after the directories are
    made: when the base name has no slash, a numbered directory that was
    not there before the request, and its [conll_files] directory, are
    there after it, while no file has been written or read and nothing
    that was there has changed. *)
Theorem no_file_leaves_directories req w w' :
  PyStr.contains "/" (base_name_of secure_filename (folder_name req) w) = false ->
  process_conll float_of_str json_loads json_load_config secure_filename req w
  = (Ok (Response 400 (ErrorBody "No file uploaded")), w') ->
  exists output_dir seq_num,
    output_dir = "./data/" +:+ base_name_of secure_filename (folder_name req) w
                 +:+ "-" +:+ seq_num /\
    fs w !! output_dir = None /\
    fs w' !! output_dir = Some Dir /\
    fs w' !! Os.path_join output_dir "conll_files" = Some Dir /\
    grows (fs w) (fs w') /\
    trace w' = EvMakedirs (Os.path_join output_dir "conll_files")
               :: EvMakedirs output_dir :: EvMakedirs "./data" :: trace w.
Proof.
  intros Hbase H. apply process_conll_not_500 in H; [|done].
  apply process_conll_try_ok in H as [[_ [?|?]]|H]; [done..|].
  destruct H as (ratio & items & cm & w1 & od & w2 & w3 & _ & _ & Hcm & Hcd & Hmk & H).
  destruct H as [(text & _ & -> & _)|H].
  2:{ by destruct H as (fn & text & w4 & sr & w5 & jr & _ & _ & _ & _ & _ & ?). }
  apply put_custom_map_spec in Hcm as (Hf1 & Ht1 & Hd1 & _).
  apply create_data_directory_ok in Hcd as (w0 & seq_num & Hcd). cbv zeta in Hcd.
  destruct Hcd as (Hmk0 & -> & Hmk1 & Hseq).
  assert (base_name_of secure_filename (folder_name req) w1
          = base_name_of secure_filename (folder_name req) w) as Hb
    by (unfold base_name_of; by rewrite Hd1).
  rewrite Hb in *.
  assert (fs w !! ("./data/" +:+ base_name_of secure_filename (folder_name req) w
                   +:+ "-" +:+ seq_num) = None) as Hnew.
  { rewrite <- Hf1. eapply numbered_path_is_new; [done|exact Hmk0|].
    by destruct (filter _ _). }
  apply makedirs_spec in Hmk0 as (Ht0 & _ & Hg0 & _).
  apply makedirs_spec in Hmk1 as (Ht2 & _ & Hg2 & Hd2).
  apply makedirs_spec in Hmk as (Ht3 & _ & Hg3 & Hd3).
  exists ("./data/" +:+ base_name_of secure_filename (folder_name req) w
          +:+ "-" +:+ seq_num), seq_num.
  split; [done|]. split; [done|].
  split. { specialize (Hd2 eq_refl). destruct (Hg3 ("./data/" +:+
             base_name_of secure_filename (folder_name req) w +:+ "-" +:+ seq_num))
             as [E|[E _]]; congruence. }
  split; [by apply Hd3|].
  split. { rewrite <- Hf1. eapply grows_trans; [exact Hg0|].
           eapply grows_trans; [exact Hg2|exact Hg3]. }
  by rewrite Ht3, Ht2, Ht0, Ht1.
Qed.

(** X22. A response 200 names the directory of the run, which is there,
    and reports every split: the results have the names of the split
    files, in their order, and for each of them the JSON file of the
    group and the class mapping file are there. *)
Theorem success_reports_every_split req w resp w' :
  process_conll float_of_str json_loads json_load_config secure_filename req w
  = (Ok resp, w') ->
  status resp = 200 ->
  exists output_dir info,
    body_of resp = SuccessBody output_dir info /\
    fs w' !! output_dir = Some Dir /\
    (json_results info).*1 = (files_created info).*1 /\
    forall name, name ∈ (files_created info).*1 ->
      exists g, name = file_name g /\
        is_file (fs w') (Os.path_join output_dir (json_name g)) /\
        is_file (fs w') (Os.path_join output_dir "class_mapping.py").
Proof.
  intros H Hst. apply process_conll_not_500 in H; [|by rewrite Hst].
  apply process_conll_try_ok in H as [[_ [->| ->]]|H]; [done..|].
  destruct H as (ratio & items & cm & w1 & od & w2 & w3 & _ & _ & _ & Hcd & Hmk & H).
  destruct H as [(text & _ & _ & ->)|H]; [done|].
  destruct H as (fn & text & w4 & sr & w5 & jr & _ & _ & Hwr & Hsp & Hcv & ->).
  cbv zeta in *. exists od, (ProcessingInfo sr ratio jr). simpl.
  split; [done|].
  destruct (split_conll_names _ _ _ _ _ _ Hsp) as [Hnd Hnames].
  destruct (convert_splits_ok _ _ _ _ _ _ _ _ _ Hcv Hnd) as (Hkeys & Hframe & Hfiles).
  split; [|split; [done|]].
  - rewrite Hframe.
    + destruct (confined_split_conll _ _ _ _ _ _ Hsp) as [_ Hsplit].
      assert (fs w4 !! od = Some Dir) as Hod4.
      { apply write_file_spec in Hwr as (_ & _ & Hf & _). rewrite (Hf eq_refl).
        rewrite lookup_insert_ne by (by apply path_join_ne2).
        apply create_data_directory_ok in Hcd as (w0 & seq_num & Hcd).
        cbv zeta in Hcd. destruct Hcd as (_ & -> & Hmk1 & _).
        apply makedirs_spec in Hmk1 as (_ & _ & _ & Hd1).
        apply makedirs_spec in Hmk as (_ & _ & Hg & _).
        specialize (Hd1 eq_refl). destruct (Hg ("./data/" +:+
          base_name_of secure_filename (folder_name req) w1 +:+ "-" +:+ seq_num))
          as [E|[E _]]; congruence. }
      destruct (Hsplit od) as [E|[E _]]; [|congruence|congruence].
      intros [g Hg]. symmetry in Hg. by apply path_join_ne2 in Hg.
    + intros E. symmetry in E. by apply path_join_ne in E.
    + intros name Hn E. destruct (Hnames name Hn) as [g ->].
      symmetry in E. apply path_join_ne in E; [done|]. by destruct g.
  - intros name Hn. destruct (Hnames name Hn) as [g ->]. exists g.
    split; [done|]. by apply Hfiles.
Qed.

End RouteExtras.

(** X20, witness: a request with two ratios. *)
Lemma bad_request_leaves_world_witness :
  let w := Example.w_empty in
  let out := process_conll Example.float_of_str Example.json_loads
               Example.json_load_config Example.secure_filename
               Scenario.req_two_ratios w in
  out.2 = w /\
  early_response (Response 400 (ErrorBody "Ratios must be three comma-separated numbers")).
Proof.
  apply (bad_request_leaves_world Example.float_of_str Example.json_loads
           Example.json_load_config Example.secure_filename
           Scenario.req_two_ratios Example.w_empty).
  - vm_compute; reflexivity.
  - reflexivity.
  - discriminate.
Defined.


(** X21, witness: a request for the folder "run" with no file, where the
    runs 1 and 7 exist. *)
Lemma no_file_leaves_directories_witness :
  let w := Scenario.w_numbered in
  let w' := (process_conll Example.float_of_str Example.json_loads
               Example.json_load_config Example.secure_filename
               Scenario.req_no_file w).2 in
  exists output_dir seq_num,
    output_dir = "./data/" +:+ base_name_of Example.secure_filename
                   (folder_name Scenario.req_no_file) w
                 +:+ "-" +:+ seq_num /\
    fs w !! output_dir = None /\
    fs w' !! output_dir = Some Dir /\
    fs w' !! Os.path_join output_dir "conll_files" = Some Dir /\
    grows (fs w) (fs w') /\
    trace w' = EvMakedirs (Os.path_join output_dir "conll_files")
               :: EvMakedirs output_dir :: EvMakedirs "./data" :: trace w.
Proof.
  apply (no_file_leaves_directories Example.float_of_str Example.json_loads
           Example.json_load_config Example.secure_filename
           Scenario.req_no_file Scenario.w_numbered).
  - vm_compute; reflexivity.
  - vm_compute; reflexivity.
Defined.


(** X22, witness: the request with the default ratios and a corpus of three blocks. *)
Lemma success_reports_every_split_witness :
  let w := Example.w_empty in
  let out := process_conll Example.float_of_str Example.json_loads
               Example.json_load_config Example.secure_filename
               Example.req_default w in
  exists resp, out.1 = Ok resp /\
  exists output_dir info,
    body_of resp = SuccessBody output_dir info /\
    fs out.2 !! output_dir = Some Dir /\
    (json_results info).*1 = (files_created info).*1 /\
    forall name, name ∈ (files_created info).*1 ->
      exists g, name = file_name g /\
        is_file (fs out.2) (Os.path_join output_dir (json_name g)) /\
        is_file (fs out.2) (Os.path_join output_dir "class_mapping.py").
Proof.
  cbv zeta.
  destruct (process_conll Example.float_of_str Example.json_loads
              Example.json_load_config Example.secure_filename
              Example.req_default Example.w_empty) as [res w'] eqn:E.
  cbn [fst snd].
  assert (exists resp, res = Ok resp /\ status resp = 200) as (resp & -> & Hst).
  { assert (res = (process_conll Example.float_of_str Example.json_loads
              Example.json_load_config Example.secure_filename
              Example.req_default Example.w_empty).1) as ->
      by (rewrite E; reflexivity).
    vm_compute. eexists. split; reflexivity. }
  exists resp. split; [reflexivity|].
  exact (success_reports_every_split Example.float_of_str Example.json_loads
           Example.json_load_config Example.secure_filename
           Example.req_default Example.w_empty resp w' E Hst).
Defined.


Lemma kind_of_short line : short_line line = true <-> kind_of line = Skipped.
Proof.
  unfold short_line, kind_of. cbv zeta.
  destruct (_ || _); [done|]. cbn [negb andb].
  destruct (PyStr.split_ws _) as [|? [|? [|? [|? ?]]]]; done.
Qed.

(** X23. Lines with fewer than four fields change nothing: the loop does
    on a corpus what it does on the corpus without them. *)
Theorem short_lines_are_ignored ign st lines :
  process_lines ign st (filter (fun line => short_line line = false) lines)
  = process_lines ign st lines.
Proof.
  revert st. induction lines as [|line lines IH]; intros st; [done|].
  destruct (short_line line) eqn:E.
  - rewrite filter_cons_False by (rewrite E; discriminate).
    cbn [process_lines]. rewrite process_line_kind.
    apply kind_of_short in E. rewrite E. apply IH.
  - rewrite filter_cons_True by done. cbn [process_lines].
    destruct (process_line ign st line); [apply IH|done].
Qed.

Lemma tokens_of_cons line lines :
  tokens_of (line :: lines) =
  match kind_of line with
  | Token token _ => token :: tokens_of lines
  | _ => tokens_of lines
  end.
Proof. unfold tokens_of. simpl. by destruct (kind_of line). Qed.

Lemma segment_from_tokens cur lines :
  concat ((fun s : list (string * string) => s.*1) <$> segment_from cur lines)
  = cur.*1 ++ tokens_of lines.
Proof.
  revert cur. induction lines as [|line lines IH]; intros cur.
  - simpl. destruct cur; [done|]. simpl. by rewrite !app_nil_r.
  - cbn [segment_from]. rewrite tokens_of_cons.
    destruct (kind_of line) as [|token tag|].
    + destruct cur as [|c cur].
      * by rewrite IH.
      * rewrite fmap_cons. cbn [concat]. by rewrite IH.
    + rewrite IH, fmap_app. simpl. by rewrite <- (assoc_L (++)).
    + apply IH.
Qed.

(** X24. No token is lost or moved: the tokens of the records a
    conversion writes, one record after the other, are the tokens of the
    lines of at least four fields, in the order of the corpus. *)
Theorem tokens_are_kept jl inp out cmf arg ign w s w' :
  out <> cmf ->
  conll_to_json jl inp out cmf arg ign w = (Ok s, w') ->
  exists raw records,
    fs w !! inp = Some (File raw) /\
    fs w' !! out = Some (File (json_lines records)) /\
    concat (tokens <$> records)
    = tokens_of (PyStr.lines (PyStr.universal_newlines raw)).
Proof.
  intros Hne H.
  apply conversion_ok in H as (raw & m0 & st & _ & _ & Hin & Hrun & _ & _ & Hfs).
  exists raw, (last_sentence st). split; [done|]. split.
  { rewrite Hfs, lookup_insert_ne by done. apply lookup_insert_eq. }
  destruct (process_lines_records ign (resolve ign (inverse m0))
              (PyStr.lines (PyStr.universal_newlines raw)) (init_locals m0) st [])
    as (recs & Hrecs & HF); [apply init_ok|done|by split|exact Hrun|].
  simpl in Hrecs. rewrite Hrecs.
  etrans; [|apply (segment_from_tokens [])]. f_equal.
  clear Hrecs. induction HF as [|r sent recs sents [Ht _] _ IH]; [done|].
  by rewrite !fmap_cons, Ht, IH.
Qed.

(** X24, witness: a corpus of two sentences. *)
Lemma tokens_are_kept_witness :
  let w := Example.w_four_columns in
  let out := conll_to_json Example.json_load_config "in.conll" "out.json"
               "class_mapping.py" None true w in
  exists raw records,
    fs w !! "in.conll" = Some (File raw) /\
    fs out.2 !! "out.json" = Some (File (json_lines records)) /\
    concat (tokens <$> records)
    = tokens_of (PyStr.lines (PyStr.universal_newlines raw)).
Proof.
  apply (tokens_are_kept Example.json_load_config "in.conll" "out.json"
           "class_mapping.py" None true Example.w_four_columns
           (Summary 2 2 [("B-PER", 2); ("O", 2)] ({["B-PER"]} ∪ {["O"]}))).
  - discriminate.
  - vm_compute; reflexivity.
Defined.


Section RouteEdge.
Variable float_of_str : string -> option PyFloat.float.
Variable json_loads : string -> json_map.
Variable json_load_config : string -> json_config.
Variable secure_filename : string -> string.

Lemma write_file_slash p c w :
  PyStr.startswith (String.rev p) "/" = true ->
  exists e w', Os.write_file p c w = (Raise e, w').
Proof.
  intros Hp. unfold Os.write_file, bind, log, get_world, raise. simpl.
  rewrite Hp. destruct (fs w !! p) as [[|c0]|]; eauto.
Qed.

Lemma path_join_empty a :
  a <> "" -> PyStr.startswith (String.rev (Os.path_join a "")) "/" = true.
Proof.
  intros Ha. unfold Os.path_join. rewrite decide_False by done.
  destruct (PyStr.startswith (String.rev a) "/") eqn:E.
  - by rewrite str_app_nil_r.
  - rewrite str_rev_app. change (String.rev ("/" +:+ "")) with "/".
    rewrite str_app_cons, str_app_nil_l. unfold PyStr.startswith.
    by rewrite str_prefix_cons, str_prefix_nil.
Qed.

Lemma path_join_nonempty a b : b <> "" -> Os.path_join a b <> "".
Proof.
  intros Hb E. pose proof (path_join_length a b) as Hl. rewrite E in Hl.
  destruct b; [done|]. simpl in Hl. lia.
Qed.

(** X25. An uploaded file whose secured name is empty cannot be saved:
    when the ratios and the [custom_map] of the request are well formed,
    the answer is 500. *)
Theorem empty_secured_name_gives_500 req w filename text resp w' :
  file req = Some (filename, text) ->
  filename <> "" ->
  secure_filename filename = "" ->
  process_conll float_of_str json_loads json_load_config secure_filename req w
  = (Ok resp, w') ->
  status resp = 500 \/ (w' = w /\ early_response resp).
Proof.
  intros Hfile Hname Hsec H.
  destruct (decide (status resp = 500)) as [?|Hst]; [by left|].
  apply process_conll_not_500 in H; [|done].
  apply process_conll_try_ok in H as [?|H]; [by right|]. exfalso.
  destruct H as (ratio & items & cm & w1 & od & w2 & w3 & _ & _ & _ & _ & _ & H).
  destruct H as [(text' & Hf & _)|H]; [congruence|].
  destruct H as (fn & text' & w4 & sr & w5 & jr & Hf & _ & Hwr & _). cbv zeta in Hwr.
  rewrite Hfile in Hf. injection Hf as <- <-. rewrite Hsec in Hwr.
  destruct (write_file_slash (Os.path_join (Os.path_join od "conll_files") "") text w3)
    as (e & w0 & Hraise); [|congruence].
  apply path_join_empty. by apply path_join_nonempty.
Qed.

End RouteEdge.

(** X25, witness: a file named "???", whose secured name is empty. *)
Lemma empty_secured_name_gives_500_witness :
  let out := process_conll Example.float_of_str Example.json_loads
               Example.json_load_config Example.secure_filename
               Scenario.req_bad_name Example.w_empty in
  exists resp, out.1 = Ok resp /\
    (status resp = 500 \/ (out.2 = Example.w_empty /\ early_response resp)).
Proof.
  cbv zeta.
  destruct (process_conll Example.float_of_str Example.json_loads
              Example.json_load_config Example.secure_filename
              Scenario.req_bad_name Example.w_empty) as [res w'] eqn:E.
  cbn [fst snd].
  assert (exists resp, res = Ok resp) as (resp & ->).
  { assert (res = (process_conll Example.float_of_str Example.json_loads
              Example.json_load_config Example.secure_filename
              Scenario.req_bad_name Example.w_empty).1) as ->
      by (rewrite E; reflexivity).
    vm_compute. eexists. reflexivity. }
  exists resp. split; [reflexivity|].
  exact (empty_secured_name_gives_500 Example.float_of_str Example.json_loads
           Example.json_load_config Example.secure_filename
           Scenario.req_bad_name Example.w_empty "???" Example.three_blocks resp w'
           eq_refl ltac:(discriminate) eq_refl E).
Defined.

(** ** The responses of the route *)

Section Classification.
Variable float_of_str : string -> option PyFloat.float.
Variable json_loads : string -> json_map.
Variable json_load_config : string -> json_config.
Variable secure_filename : string -> string.



End Classification.


(** ** The round trip through the table of ids *)

Lemma reads_back_extends table table' rho records raw :
  (forall k t, PyDict.get table k = Some t -> PyDict.get table' k = Some t) ->
  reads_back table rho records raw -> reads_back table' rho records raw.
Proof.
  intros Hext H. eapply Forall2_impl; [exact H|].
  intros rec sent [Ht Hi]. split; [done|].
  revert Hi. generalize (sent.*2).
  induction (ner_tags rec) as [|i ids IH]; intros [|t ts]; simpl; try done.
  intros [= Hi Hids]. f_equal; [by apply Hext|by apply IH].
Qed.

(** One conversion on a dictionary of the heap: the table it leaves
    extends the one it found, and reads its records back. *)
Lemma conversion_reads_back jl inp out cmf r ign w s w' m :
  heap w !! r = Some m -> NoDup (PyDict.keys m) ->
  conll_to_json jl inp out cmf (Some r) ign w = (Ok s, w') ->
  exists raw records table,
    fs w !! inp = Some (File raw) /\
    heap w' = <[r := table]> (heap w) /\
    fs w' = <[cmf := File (class_mapping_text table)]>
              (<[out := File (json_lines records)]> (fs w)) /\
    NoDup (PyDict.keys table) /\
    (forall k t, PyDict.get m k = Some t -> PyDict.get table k = Some t) /\
    reads_back table (resolve ign (inverse m)) records raw.
Proof.
  intros Hr Hnd H.
  apply (conversion_with_ref_ok _ _ _ _ _ _ _ _ _ _ Hr) in H
    as (raw & st & Hin & Hrun & -> & Hheap & Hfs).
  unfold run in Hrun.
  pose proof (process_lines_ok _ _ _ _ _ Hrun (init_ok m)) as Hok.
  destruct (process_lines_mono _ _ _ _ _ Hrun (init_ok m)) as (_ & Hext & Hnd').
  destruct (process_lines_records ign (resolve ign (inverse m)) _ _ _ []
              (init_ok m) ltac:(done) ltac:(by split; [|constructor]) Hrun)
    as (recs & Hlast & Hrecs).
  simpl in Hlast.
  exists raw, (last_sentence st), (custom_mapping st).
  split; [done|]. split; [done|]. split; [done|]. split; [by apply Hnd'|].
  split; [exact Hext|].
  rewrite Hlast. unfold reads_back, segment.
  eapply Forall2_impl; [exact Hrecs|]. intros rec sent Henc.
  apply decode_encoded; [done|by apply Hnd'|done].
Qed.

(** The loop over the splits with one dictionary for all of them: at the
    end every split reads back through the table the last conversion
    leaves. *)
Lemma convert_splits_reads_back jl cd od cmf r l acc w res w' :
  NoDup l.*1 ->
  (forall n n', n ∈ l.*1 -> n' ∈ l.*1 ->
     Os.path_join od (PyStr.replace n ".conll" ".json")
     = Os.path_join od (PyStr.replace n' ".conll" ".json") -> n = n') ->
  (forall n n', n ∈ l.*1 -> n' ∈ l.*1 ->
     Os.path_join cd n <> Os.path_join od (PyStr.replace n' ".conll" ".json")) ->
  (forall n, n ∈ l.*1 ->
     Os.path_join cd n <> cmf /\
     Os.path_join od (PyStr.replace n ".conll" ".json") <> cmf) ->
  foldl (convert_split jl cd od cmf (Some r)) acc l w = (Ok res, w') ->
  exists res0 w0,
    acc w = (Ok res0, w0) /\
    forall m, heap w0 !! r = Some m -> NoDup (PyDict.keys m) ->
    exists table,
      heap w' !! r = Some table /\ NoDup (PyDict.keys table) /\
      (forall k t, PyDict.get m k = Some t -> PyDict.get table k = Some t) /\
      (l <> [] -> fs w' !! cmf = Some (File (class_mapping_text table))) /\
      (forall q, q <> cmf ->
         (forall n, n ∈ l.*1 ->
            q <> Os.path_join od (PyStr.replace n ".conll" ".json")) ->
         fs w' !! q = fs w0 !! q) /\
      forall n, n ∈ l.*1 ->
        exists raw records,
          fs w0 !! Os.path_join cd n = Some (File raw) /\
          fs w' !! Os.path_join od (PyStr.replace n ".conll" ".json")
          = Some (File (json_lines records)) /\
          reads_back table (fun t => t) records raw.
Proof.
  revert acc res w'. induction l as [|sr l IH] using rev_ind;
    intros acc res w' Hnd Hinj Hcd Hcmf.
  - simpl. intros H. exists res, w'. split; [done|]. intros m Hm Hndm.
    exists m. split; [done|]. split; [done|]. split; [done|]. split; [done|].
    split; [done|]. intros n Hn. by apply elem_of_nil in Hn.
  - rewrite foldl_app. cbn [foldl]. unfold convert_split at 1.
    intros H. apply bind_ok in H as (res1 & w1 & Hacc & H).
    apply bind_ok in H as (s & w2 & Hconv & [= <- <-]).
    rewrite fmap_app in Hnd, Hinj, Hcd, Hcmf. cbn [fmap list_fmap] in *.
    apply NoDup_app in Hnd as (Hnd & Hfresh & _).
    destruct (IH acc res1 w1 Hnd) as (res0 & w0 & Hacc0 & Hloop); [| | |exact Hacc|].
    { intros n n' Hn Hn'. apply Hinj; apply elem_of_app; by left. }
    { intros n n' Hn Hn'. apply Hcd; apply elem_of_app; by left. }
    { intros n Hn. apply Hcmf. apply elem_of_app. by left. }
    exists res0, w0. split; [done|]. intros m Hm Hndm.
    destruct (Hloop m Hm Hndm) as (t1 & Ht1 & Hnd1 & Hext1 & _ & Hframe1 & Hall1).
    destruct (conversion_reads_back _ _ _ _ _ _ _ _ _ _ Ht1 Hnd1 Hconv)
      as (raw & records & t2 & Hin & Hheap & Hfs & Hnd2 & Hext2 & Hrb).
    assert (sr.1 ∈ l.*1 ++ [sr.1]) as Hsr
      by (apply elem_of_app; right; apply list_elem_of_here).
    exists t2. rewrite !fmap_app. cbn [fmap list_fmap].
    split; [rewrite Hheap; apply lookup_insert_eq|]. split; [done|].
    split; [intros k t Hk; by apply Hext2, Hext1|].
    split; [intros _; rewrite Hfs; apply lookup_insert_eq|].
    split.
    { intros q Hq Hqs. rewrite Hfs, !lookup_insert_ne.
      - apply Hframe1; [done|]. intros n Hn. apply Hqs. apply elem_of_app. by left.
      - intros E. symmetry in E. by apply (Hqs sr.1).
      - done. }
    intros n Hn. apply elem_of_app in Hn as [Hn|Hn].
    + destruct (Hall1 n Hn) as (raw1 & recs1 & Hraw1 & Hjs1 & Hrb1).
      exists raw1, recs1. split; [done|]. split.
      * rewrite Hfs, !lookup_insert_ne; [done| |].
        -- intros E. apply Hinj in E; [|done|by apply elem_of_app; left].
           subst n. by apply (Hfresh sr.1 Hn), list_elem_of_here.
        -- intros E. symmetry in E.
           by apply (Hcmf n (proj2 (elem_of_app _ _ _) (or_introl Hn))).
      * by eapply reads_back_extends.
    + apply list_elem_of_singleton in Hn as ->.
      exists raw, records. split.
      * rewrite <- Hin. symmetry. apply Hframe1.
        -- by apply (Hcmf sr.1 Hsr).
        -- intros n Hn. apply Hcd; [done|apply elem_of_app; by left].
      * split; [|done]. rewrite Hfs, lookup_insert_ne; [apply lookup_insert_eq|].
        intros E. symmetry in E. by apply (Hcmf sr.1 Hsr).
Qed.

Lemma path_join_conll_files a c :
  Os.path_join (Os.path_join a "conll_files") c
  = Os.path_join a ("conll_files/" +:+ c).
Proof.
  unfold Os.path_join. destruct (decide (a = "")) as [->|Ha]; [done|].
  assert (forall x, PyStr.startswith (String.rev (x +:+ "conll_files")) "/" = false)
    as Hrev by (intros x; by rewrite str_rev_app).
  destruct (PyStr.startswith (String.rev a) "/").
  - rewrite decide_False by (by destruct a). rewrite Hrev.
    by rewrite !str_app_assoc.
  - rewrite decide_False by (by destruct a).
    rewrite <- (str_app_assoc a "/" "conll_files"), Hrev.
    by rewrite !str_app_assoc.
Qed.

Section RoundTrip.
Variable float_of_str : string -> option PyFloat.float.
Variable json_loads : string -> json_map.
Variable json_load_config : string -> json_config.
Variable secure_filename : string -> string.

(** C9 (amended). The ids of the records read back through a table
    give the tags of the tokens, in two cases. For one conversion that
    returns, the table is the one the conversion leaves (the dictionary
    on the heap, which the class mapping file shows): a tag that was
    registered before or got registered is read back as itself, a tag
    replaced by the fallback as ["O"]. For a request answered 200 that
    came with a [custom_map], the table is the one the class mapping
    file shows at the end: every split that was created reads back
    through it, each tag as itself, because all the conversions of the
    request work on the one dictionary and no id is ever changed. *)
Theorem tag_ids_round_trip :
  (forall inp out cmf arg ign w s w',
     heap_wf w -> out <> cmf ->
     conll_to_json json_load_config inp out cmf arg ign w = (Ok s, w') ->
     exists raw m0 records table,
       initial_mapping json_load_config arg w m0 /\
       fs w !! inp = Some (File raw) /\
       fs w' !! out = Some (File (json_lines records)) /\
       heap w' !! ref_of arg w = Some table /\
       fs w' !! cmf = Some (File (class_mapping_text table)) /\
       reads_back table (resolve ign (inverse m0)) records raw) /\
  (forall req w resp w' items,
     requested_map json_loads (custom_map_field req) = Ok (inr (Some items)) ->
     process_conll float_of_str json_loads json_load_config secure_filename req w
     = (Ok resp, w') ->
     status resp = 200 ->
     exists output_dir info table,
       body_of resp = SuccessBody output_dir info /\
       (files_created info <> [] ->
        fs w' !! Os.path_join output_dir "class_mapping.py"
        = Some (File (class_mapping_text table))) /\
       forall name, name ∈ (files_created info).*1 ->
         exists raw records,
           fs w' !! Os.path_join (Os.path_join output_dir "conll_files") name
           = Some (File raw) /\
           fs w' !! Os.path_join output_dir (PyStr.replace name ".conll" ".json")
           = Some (File (json_lines records)) /\
           reads_back table (fun t => t) records raw).
Proof.
  split.
  { intros inp out cmf arg ign w s w' Hwf Hne H. by eapply conversion_round_trip. }
  intros req w resp w' items.
  intros Hmap H Hst. apply process_conll_not_500 in H; [|by rewrite Hst].
  apply process_conll_try_ok in H as [[_ [->| ->]]|H]; [done..|].
  destruct H as (ratio & items' & cm & w1 & od & w2 & w3 & _ & Hm & Hcm & Hcd & Hmk & H).
  destruct H as [(text & _ & _ & ->)|H]; [done|].
  destruct H as (fn & text & w4 & sr & w5 & jr & _ & _ & Hwr & Hsplit & Hconv & ->).
  cbv zeta in *. rewrite Hmap in Hm. injection Hm as <-.
  assert (NoDup (PyDict.keys items)) as Hnd.
  { revert Hmap. unfold requested_map. destruct (truthy _); [|done].
    destruct (json_loads _) as [|k|its]; [done..|].
    destruct (int_keys its []) as [d|e] eqn:Ek; [|done].
    intros [= <-]. eapply int_keys_NoDup; [|exact Ek]. constructor. }
  unfold put_custom_map, bind, alloc, bind, get_world, set_heap, ret in Hcm.
  injection Hcm as <- <-.
  set (r := fresh (dom (heap w))) in *.
  assert (heap w5 !! r = Some items) as Hr.
  { apply create_data_directory_ok in Hcd as (w0 & seq_num & Hcd). cbv zeta in Hcd.
    destruct Hcd as (Hmk0 & _ & Hmk1 & _).
    apply makedirs_spec in Hmk0 as (_ & (Hh0 & _) & _).
    apply makedirs_spec in Hmk1 as (_ & (Hh1 & _) & _).
    apply makedirs_spec in Hmk as (_ & (Hh2 & _) & _).
    apply write_file_spec in Hwr as (_ & (Hh3 & _) & _).
    destruct (confined_split_conll _ _ _ _ _ _ Hsplit) as [Hh4 _].
    rewrite Hh4, Hh3, Hh2, Hh1, Hh0. simpl. apply lookup_insert_eq. }
  destruct (split_conll_names _ _ _ _ _ _ Hsplit) as [Hnames Hgroups].
  assert (forall n, n ∈ sr.*1 -> n = "train.conll" \/ n = "val.conll" \/ n = "test.conll")
    as Hthree.
  { intros n Hn. destruct (Hgroups n Hn) as [[] ->]; auto. }
  destruct (convert_splits_reads_back json_load_config
              (Os.path_join od "conll_files") od
              (Os.path_join od "class_mapping.py") r sr (ret []) w5 jr w')
    as (res0 & w0 & [= <- <-] & Hloop); [done| | | |exact Hconv|].
  { intros n n' Hn Hn' E%path_join_inj.
    destruct (Hthree n Hn) as [->|[->| ->]], (Hthree n' Hn') as [->|[->| ->]];
      done. }
  { intros n n' Hn Hn'. rewrite path_join_conll_files. intros E%path_join_inj.
    destruct (Hthree n' Hn') as [->|[->| ->]]; done. }
  { intros n Hn. rewrite path_join_conll_files.
    split; intros E%path_join_inj; [done|].
    destruct (Hthree n Hn) as [->|[->| ->]]; done. }
  destruct (Hloop items Hr Hnd) as (table & _ & _ & _ & Hcmf & Hframe & Hall).
  exists od, (ProcessingInfo sr ratio jr), table. split; [done|]. split; [done|].
  intros name Hname. destruct (Hall name Hname) as (raw & records & Hraw & Hjs & Hrb).
  exists raw, records. split; [|done]. rewrite <- Hraw. apply Hframe.
  - rewrite path_join_conll_files. by intros E%path_join_inj.
  - intros n Hn. rewrite path_join_conll_files. intros E%path_join_inj.
    destruct (Hthree n Hn) as [->|[->| ->]]; done.
Qed.

End RoundTrip.

(** C9, witness: the strict conversion with the table [{0: 'O'}] of a
    corpus whose one token is tagged B-PER, which reads back as O; and
    a request with that table as [custom_map] and a corpus of two
    sentences, one to a split. *)
Lemma tag_ids_round_trip_witness :
  (let w := Example.w_only_O in
   let out := conll_to_json Example.json_load_config "in.conll" "out.json"
                "class_mapping.py" (Some 0%nat) false w in
   exists raw m0 records table,
     initial_mapping Example.json_load_config (Some 0%nat) w m0 /\
     fs w !! "in.conll" = Some (File raw) /\
     fs out.2 !! "out.json" = Some (File (json_lines records)) /\
     heap out.2 !! ref_of (Some 0%nat) w = Some table /\
     fs out.2 !! "class_mapping.py" = Some (File (class_mapping_text table)) /\
     reads_back table (resolve false (inverse m0)) records raw) /\
  (let out := process_conll Example.float_of_str Scenario.json_loads
                Example.json_load_config Example.secure_filename
                Scenario.req_with_map Example.w_empty in
   exists resp, out.1 = Ok resp /\
   exists output_dir info table,
     body_of resp = SuccessBody output_dir info /\
     (files_created info <> [] ->
      fs out.2 !! Os.path_join output_dir "class_mapping.py"
      = Some (File (class_mapping_text table))) /\
     forall name, name ∈ (files_created info).*1 ->
       exists raw records,
         fs out.2 !! Os.path_join (Os.path_join output_dir "conll_files") name
         = Some (File raw) /\
         fs out.2 !! Os.path_join output_dir (PyStr.replace name ".conll" ".json")
         = Some (File (json_lines records)) /\
         reads_back table (fun t => t) records raw).
Proof.
  destruct (tag_ids_round_trip Example.float_of_str Scenario.json_loads
              Example.json_load_config Example.secure_filename) as [Hone Hall].
  split.
  - apply (Hone "in.conll" "out.json" "class_mapping.py" (Some 0%nat) false
             Example.w_only_O (Summary 1 1 [("O", 1)] ∅)).
    + unfold heap_wf. refine (bool_decide_unpack _ _). vm_compute. exact I.
    + discriminate.
    + vm_compute. reflexivity.
  - cbv zeta.
    destruct (process_conll Example.float_of_str Scenario.json_loads
                Example.json_load_config Example.secure_filename
                Scenario.req_with_map Example.w_empty) as [res w'] eqn:E.
    cbn [fst snd].
    assert (exists resp, res = Ok resp /\ status resp = 200) as (resp & -> & Hst).
    { assert (res = (process_conll Example.float_of_str Scenario.json_loads
                Example.json_load_config Example.secure_filename
                Scenario.req_with_map Example.w_empty).1) as ->
        by (rewrite E; reflexivity).
      vm_compute. eexists. split; reflexivity. }
    exists resp. split; [reflexivity|].
    apply (Hall Scenario.req_with_map Example.w_empty resp w' [(0, "O")]).
    + vm_compute. reflexivity.
    + exact E.
    + exact Hst.
Defined.

(** C9, counterexample: the same corpus uploaded without a [custom_map].
    Each split is numbered on its own, and the class mapping file shows
    the table of the last one, [test.conll]: the record of
    [train.conll], whose tokens are tagged O and B-PER, reads back
    through it as B-PER and O. *)
Lemma final_table_misreads_first_split :
  let out := process_conll Example.float_of_str Example.json_loads
               Example.json_load_config Example.secure_filename
               Scenario.req_two_orders Example.w_empty in
  let dir := "./data/03-Nov-2026-0001" in
  let table := [(0, "B-PER"); (1, "O")] in
  let records := [Sentence "0" ["No"; "Bob"] [0; 1]] in
  (exists info, out.1 = Ok (Response 200 (SuccessBody dir info)) /\
                (files_created info).*1 = ["train.conll"; "test.conll"]) /\
  fs out.2 !! Os.path_join (Os.path_join dir "conll_files") "train.conll"
  = Some (File Example.split_b) /\
  fs out.2 !! Os.path_join dir "train.json" = Some (File (json_lines records)) /\
  fs out.2 !! Os.path_join dir "class_mapping.py"
  = Some (File (class_mapping_text table)) /\
  tags_of (PyStr.lines (PyStr.universal_newlines Example.split_b)) = ["O"; "B-PER"] /\
  PyDict.get table <$> [0; 1] = [Some "B-PER"; Some "O"] /\
  ~ reads_back table (fun t => t) records Example.split_b.
Proof.
  cbv zeta. split; [|split; [|split; [|split; [|split; [|split]]]]].
  - vm_compute. eexists. split; reflexivity.
  - vm_compute. reflexivity.
  - vm_compute. reflexivity.
  - vm_compute. reflexivity.
  - vm_compute. reflexivity.
  - vm_compute. reflexivity.
  - intros H. apply Forall2_cons_inv_l in H as (sent & rest & [_ H] & _ & Hseg).
    vm_compute in Hseg. injection Hseg as <- _. vm_compute in H. discriminate.
Qed.
